(** * Virtual try-on: the retrying predict client and the compositor

    A shallow embedding of [virtual_try_on_demo.py] (the retry loop around
    the Vertex AI predict endpoint) and of the image pipeline of
    [api_app.py] ([resize_and_encode], [composite_on_background]).

    Conventions.
    - Python [int] is [Z]; Python [float] is read as an exact rational [Q]:
      the programs only multiply, divide, compare and truncate floats.
    - An exception is a value of [exn]; a computation that may raise
      returns a sum.
    - Effects (HTTP POSTs, prints, sleeps, Pillow calls) are recorded in an
      explicit trace, in program order.
    - What the platform decides (whether the system call behind
      [time.sleep] accepts a duration, how pydantic treats a number given
      for a [str] field) is a parameter of the model. *)

From Stdlib Require Import ZArith QArith Qround Qabs Qfield List String Bool.
From Stdlib Require Import Lia Lqa.
Import ListNotations.
Local Open Scope Z_scope.
Set Warnings "-register-all".

(** ** Python built-ins shared by both programs *)

(** [range(n)]: the integers [0 .. n-1], empty when [n <= 0]. *)
Definition range (n : Z) : list Z := map Z.of_nat (seq 0 (Z.to_nat n)).

(** [a < b] on floats, as a boolean. *)
Definition Qltb (a b : Q) : bool := negb (Qle_bool b a).

(** [max(a, b)]: keeps the first argument unless the second is greater. *)
Definition py_max (a b : Q) : Q := if Qltb a b then b else a.

(** [min(a, b)]: keeps the first argument unless the second is smaller. *)
Definition py_min (a b : Q) : Q := if Qltb b a then b else a.

(** [int(x)] on a float: truncation toward zero. *)
Definition py_int (x : Q) : Z := if Qltb x 0 then Qceiling x else Qfloor x.

(** * virtual_try_on_demo.py *)

Module VirtualTryOnDemo.

(** A parsed JSON document ([response.json()], the request payload). *)
Inductive json : Type :=
| JNull
| JBool (b : bool)
| JNum (n : Z)
| JStr (s : string)
| JList (items : list json)
| JDict (fields : list (string * json)).

(** What the client reads of a [requests.Response]: [parsed] is the value
    of [response.json()], [None] when the body is not JSON. *)
Record response : Type := mkResponse {
  status_code : Z;
  text : string;
  parsed : option json
}.

(** [response.raise_for_status()] raises [HTTPError] exactly for the 4xx
    and 5xx status codes; [response.ok] is its negation. *)
Definition raises_for_status (r : response) : bool :=
  (400 <=? status_code r) && (status_code r <? 600).

Definition ok (r : response) : bool := negb (raises_for_status r).

(** Failures of [requests.post] itself: no response was received. None of
    them is a [requests.HTTPError]. *)
Inductive transport_error : Type :=
| ConnectionError
| ReadTimeout
| OtherRequestException (what : string).

(** The exceptions that leave [call_virtual_try_on]. The last three come
    from the handler's own two statements: [OverflowError] from the
    product [backoff_seconds * (2 ** attempt)] and from [time.sleep],
    [ValueError] from [time.sleep], and [SleepRefused errno] is the
    [OSError] of [time.sleep] when the system call fails with [errno]. *)
Inductive exn : Type :=
| HTTPError (r : response)
| TransportError (e : transport_error)
| JSONDecodeError
| OverflowError (msg : string)
| ValueError (msg : string)
| SleepRefused (errno : Z).

(** One POST either yields a response or fails in transport. *)
Inductive outcome : Type :=
| Responds (r : response)
| Fails (e : transport_error).

Record request : Type := mkRequest {
  url : string;
  headers : list (string * string);
  payload : json;
  timeout : Z
}.

(** [ESleep seconds] is a call of [time.sleep] that returned: the process
    slept for that long. A call of [time.sleep] that raises does not
    sleep and leaves no event; its exception ends the call. *)
Inductive event : Type :=
| EPost (rq : request)
| EPrintStatus (code : Z)
| EPrintBody (body : string)
| ESleep (seconds : Q).

(** How a call ends: [return], a propagated exception, or the
    [SystemExit] after the loop, which records [last_exc]. *)
Inductive result : Type :=
| Return (j : json)
| Raise (e : exn)
| SystemExit (last_exc : option exn).

Definition predict_url (project location model : string) : string :=
  ("https://" ++ location ++ "-aiplatform.googleapis.com/v1/projects/"
   ++ project ++ "/locations/" ++ location
   ++ "/publishers/google/models/" ++ model ++ ":predict")%string.

Definition predict_headers (token : string) : list (string * string) :=
  [ ("Authorization", ("Bearer " ++ token)%string);
    ("Content-Type", "application/json") ]%string.

(** ** The two statements of the handler: the product and the sleep *)

(** [backoff_seconds * (2 ** attempt)], a float times an int: the int is
    converted to a float first, which raises [OverflowError] from
    [2 ** 1024] on, whatever the float is. Below that the product by a
    power of two is exact, unless it overflows to infinity; [time.sleep]
    then refuses the infinity as it refuses the exact product here, with
    [OverflowError]. *)
Definition sleep_duration (backoff_seconds : Q) (attempt : Z) : exn + Q :=
  if 1024 <=? attempt
  then inl (OverflowError "int too large to convert to float")
  else inr (backoff_seconds * inject_Z (2 ^ attempt))%Q.

(** The system call behind [time.sleep] ([clock_nanosleep], [select], a
    waitable timer), for a duration that CPython has validated: [None]
    when it sleeps and returns, the error number when it fails. What it
    accepts depends on the platform: Linux refuses, with [EINVAL], a
    duration that carries the monotonic clock past its last instant. *)
Class Clock : Type := {
  system_sleep : Q -> option Z
}.

(** The range of [_PyTime_t], a signed 64-bit count of nanoseconds. *)
Definition PyTime_MIN : Z := - 2 ^ 63.

Definition PyTime_MAX : Z := 2 ^ 63 - 1.

(** A duration in nanoseconds, rounded away from zero
    ([_PyTime_ROUND_TIMEOUT]). The count is exact here; CPython computes
    it in doubles, which gives the same sign and, away from the two ends
    of the range, the same side of them. *)
Definition nanoseconds (secs : Q) : Z :=
  let ns := (secs * inject_Z (10 ^ 9))%Q in
  if Qltb ns 0 then Qfloor ns else Qceiling ns.

(** [time.sleep(secs)] for a float, as CPython's [time_sleep] runs it: the
    duration is converted to nanoseconds, which raises [OverflowError]
    outside the 64-bit range; a negative duration raises [ValueError];
    then comes the system call, whose failure is raised as [OSError].
    [None] when the call returns. *)
Definition time_sleep {clock : Clock} (secs : Q) : option exn :=
  let ns := nanoseconds secs in
  if (ns <? PyTime_MIN) || (PyTime_MAX <? ns)
  then Some (OverflowError "timestamp too large to convert to C _PyTime_t")
  else if ns <? 0
  then Some (ValueError "sleep length must be non-negative")
  else match system_sleep secs with
       | Some errno => Some (SleepRefused errno)
       | None => None
       end.

(** Lines 94-95, [sleep_for = backoff_seconds * (2 ** attempt)] and
    [time.sleep(sleep_for)]: the duration slept, or the exception of
    either statement. *)
Definition backoff_sleep {clock : Clock} (backoff_seconds : Q) (attempt : Z)
  : exn + Q :=
  match sleep_duration backoff_seconds attempt with
  | inl e => inl e
  | inr sleep_for =>
      match time_sleep sleep_for with
      | Some e => inl e
      | None => inr sleep_for
      end
  end.

(** Whether the sleep after attempt [attempt] returns. *)
Definition sleep_returns {clock : Clock} (backoff_seconds : Q) (attempt : Z)
  : bool :=
  match backoff_sleep backoff_seconds attempt with
  | inr _ => true
  | inl _ => false
  end.

Section Call.

Context {clock : Clock}.

(** The endpoint: the outcome of the [n]-th POST of this call. *)
Variable endpoint : nat -> outcome.

Variables (rq : request) (max_retries : Z) (backoff_seconds : Q).

(** The two prints guarded by [if not response.ok]. *)
Definition report (r : response) : list event :=
  if ok r then [] else [EPrintStatus (status_code r); EPrintBody (text r)].

(** The body of [for attempt in range(max_retries + 1)], by recursion on
    the attempts still to run. [posts] counts the POSTs already made;
    the result carries the events of the remaining iterations. The two
    statements after [raise] run inside the handler: an exception of
    either leaves the function, as no handler encloses them. *)
Fixpoint retry_loop (attempts : list Z) (last_exc : option exn)
         (posts : nat) : result * list event :=
  match attempts with
  | [] => (SystemExit last_exc, [])
  | attempt :: rest =>
      match endpoint posts with
      | Fails e => (Raise (TransportError e), [EPost rq])
      | Responds r =>
          if raises_for_status r then
            if max_retries <=? attempt then
              (Raise (HTTPError r), EPost rq :: report r)
            else
              match backoff_sleep backoff_seconds attempt with
              | inl e => (Raise e, EPost rq :: report r)
              | inr sleep_for =>
                  let '(res, tr) :=
                    retry_loop rest (Some (HTTPError r)) (S posts) in
                  (res, EPost rq :: report r ++ ESleep sleep_for :: tr)
              end
          else
            match parsed r with
            | Some j => (Return j, EPost rq :: report r)
            | None => (Raise JSONDecodeError, EPost rq :: report r)
            end
      end
  end.

End Call.

Definition call_virtual_try_on {clock : Clock} (endpoint : nat -> outcome)
           (project location model token : string) (payload : json)
           (max_retries : Z) (backoff_seconds : Q) : result * list event :=
  let rq := mkRequest (predict_url project location model)
                      (predict_headers token) payload 120 in
  retry_loop endpoint rq max_retries backoff_seconds
             (range (max_retries + 1)) None 0.

(** Projections of a trace. *)
Definition is_post (e : event) : bool :=
  match e with EPost _ => true | _ => false end.

Definition is_print (e : event) : bool :=
  match e with EPrintStatus _ | EPrintBody _ => true | _ => false end.

Definition posts_of (tr : list event) : nat := List.length (filter is_post tr).

Fixpoint sleeps_of (tr : list event) : list Q :=
  match tr with
  | [] => []
  | ESleep s :: tr' => s :: sleeps_of tr'
  | _ :: tr' => sleeps_of tr'
  end.

(** The trace without its prints: the POSTs and sleeps, in order. *)
Definition network_trace (tr : list event) : list event :=
  filter (fun e => negb (is_print e)) tr.

(** [http_failure o r]: the POST got response [r], and [r] carries an
    error status, so [raise_for_status] raises [HTTPError]. *)
Definition http_failure (o : outcome) (r : response) : Prop :=
  o = Responds r /\ ok r = false.

(** The events of the first [k] attempts when each one got an error
    status and was retried. *)
Definition retried_attempt (endpoint : nat -> outcome) (rq : request)
           (backoff_seconds : Q) (i : nat) : list event :=
  EPost rq
  :: match endpoint i with Responds r => report r | Fails _ => [] end
  ++ [ESleep (backoff_seconds * inject_Z (2 ^ Z.of_nat i))%Q].

Definition retried_attempts (endpoint : nat -> outcome) (rq : request)
           (backoff_seconds : Q) (first k : nat) : list event :=
  flat_map (retried_attempt endpoint rq backoff_seconds) (seq first k).

(** ** The rest of the script: token, payload, output, [main] *)

(** The sum of the sleeps of a trace, in seconds. *)
Definition total_sleep (tr : list event) : Q :=
  fold_right Qplus 0%Q (sleeps_of tr).

Definition bytes : Type := list Byte.byte.

(** Truth value of a JSON value in [if x] / [if not x]. *)
Definition truthy (j : json) : bool :=
  match j with
  | JNull => false
  | JBool b => b
  | JNum n => negb (n =? 0)
  | JStr s => negb (s =? "")%string
  | JList items => match items with [] => false | _ :: _ => true end
  | JDict fields => match fields with [] => false | _ :: _ => true end
  end.

(** An [Optional[str]] under [if s]: the string when it is truthy,
    that is neither [None] nor empty. *)
Definition nonempty (s : option string) : option string :=
  match s with
  | Some t => if (t =? "")%string then None else Some t
  | None => None
  end.

(** Key lookup in a dict, given by its items. *)
Fixpoint dict_get (key : string) (fields : list (string * json)) : option json :=
  match fields with
  | [] => None
  | (k, v) :: rest => if (k =? key)%string then Some v else dict_get key rest
  end.

Inductive script_exn : Type :=
| Exit (msg : string)
| AttributeError (attribute : string)
| TypeError (what : string)
| IndexError
| KeyError
| DecodingError (what : string)
| OSError (what : string).

(** [x.get(key, default)]: only a dict has it. *)
Definition get (x : json) (key : string) (default : json) : script_exn + json :=
  match x with
  | JDict fields =>
      inr match dict_get key fields with Some v => v | None => default end
  | _ => inl (AttributeError "get")
  end.

(** [x[0]]: the first item of a list, the first character of a string;
    a dict parsed from JSON has no key [0], other values have no items. *)
Definition item0 (x : json) : script_exn + json :=
  match x with
  | JList (first :: _) => inr first
  | JList [] => inl IndexError
  | JStr (String c _) => inr (JStr (String c ""))
  | JStr EmptyString => inl IndexError
  | JDict _ => inl KeyError
  | _ => inl (TypeError "object is not subscriptable")
  end.

(** The validation every caller runs on a predict response
    ([save_output], lines 102-108):
    [predictions = response_json.get("predictions", [])], stop if it is
    falsy, [image_payload = predictions[0].get("bytesBase64Encoded")],
    stop if it is falsy. *)
Inductive extraction : Type :=
| NoPredictions
| MissingImage
| Image (first : json) (image_payload : json)
| Broken (e : script_exn).

Definition image_payload_of (response_json : json) : extraction :=
  match get response_json "predictions" (JList []) with
  | inl e => Broken e
  | inr predictions =>
      if negb (truthy predictions) then NoPredictions
      else
        match item0 predictions with
        | inl e => Broken e
        | inr first =>
            match get first "bytesBase64Encoded" JNull with
            | inl e => Broken e
            | inr image_payload =>
                if negb (truthy image_payload) then MissingImage
                else Image first image_payload
            end
        end
  end.

Definition image_field (b64 : string) : json :=
  JDict [("image"%string, JDict [("bytesBase64Encoded"%string, JStr b64)])].

(** [build_payload], lines 18-39. *)
Definition build_payload (person_b64 garment_b64 : string) : json :=
  JDict [("instances"%string,
          JList [JDict [("personImage"%string, image_field person_b64);
                        ("productImages"%string,
                         JList [image_field garment_b64])]]);
         ("parameters"%string, JDict [("sampleCount"%string, JNum 1)])].

(** [os.environ], as the lookup [os.environ.get]. *)
Definition environment : Type := string -> option string.

(** [get_access_token], lines 42-50. *)
Definition get_access_token (environ : environment)
           (explicit_token : option string) : script_exn + string :=
  match nonempty explicit_token with
  | Some t => inr t
  | None =>
      match nonempty (environ "ACCESS_TOKEN"%string) with
      | Some token => inr token
      | None =>
          inl (Exit "Missing access token. Provide --access-token or set ACCESS_TOKEN.")
      end
  end.

(** The operating system and the [base64] module, as the script uses
    them. Paths are kept as text; [parent] is [Path(p).parent] and
    [path_str] is [str(Path(p))]. A failing call yields its exception. *)
Class Host : Type := {
  environ : environment;
  path_exists : string -> bool;
  read_bytes : string -> script_exn + bytes;
  mkdir_parents : string -> option script_exn;
  write_bytes : string -> bytes -> option script_exn;
  parent : string -> string;
  path_str : string -> string;
  b64encode : bytes -> string;
  b64decode : string -> script_exn + bytes
}.

(** What the script does to the outside, in order. *)
Inductive effect : Type :=
| Exists (p : string)
| ReadBytes (p : string)
| Net (e : event)
| Mkdir (dir : string)
| WriteBytes (p : string) (data : bytes)
| Stdout (line : string).

(** How [main] ends. *)
Inductive ending : Type :=
| Done
| Failed (e : script_exn)
| CallFailed (e : exn)
| LoopExit (last_exc : option exn).

Section Script.

Context {host : Host} {clock : Clock}.

(** [read_image_base64], lines 13-15. *)
Definition read_image_base64 (p : string) : (script_exn + string) * list effect :=
  (match read_bytes p with
   | inl e => inl e
   | inr data => inr (b64encode data)
   end,
   [ReadBytes p]).

(** [base64.b64decode(x)]: a string is decoded, anything else is
    refused. *)
Definition decode_payload (image_payload : json) : script_exn + bytes :=
  match image_payload with
  | JStr s => b64decode s
  | _ => inl (TypeError "argument should be a bytes-like object or ASCII string")
  end.

(** [save_output], lines 100-110. The directory is made before the
    payload is decoded. *)
Definition save_output (response_json : json) (output_path : string)
  : option script_exn * list effect :=
  match image_payload_of response_json with
  | Broken e => (Some e, [])
  | NoPredictions => (Some (Exit "No predictions returned from API."), [])
  | MissingImage => (Some (Exit "Missing image data in API response."), [])
  | Image _ image_payload =>
      match mkdir_parents (parent output_path) with
      | Some e => (Some e, [Mkdir (parent output_path)])
      | None =>
          match decode_payload image_payload with
          | inl e => (Some e, [Mkdir (parent output_path)])
          | inr data =>
              (write_bytes output_path data,
               [Mkdir (parent output_path); WriteBytes output_path data])
          end
      end
  end.

(** The parsed command line. *)
Record arguments : Type := mkArguments {
  arg_project : string;
  arg_location : string;
  arg_person : string;
  arg_garment : string;
  arg_output : string;
  arg_access_token : option string;
  arg_model : string;
  arg_max_retries : Z;
  arg_backoff_seconds : Q
}.

(** [main], lines 113-151, after [parse_args]. *)
Definition main (endpoint : nat -> outcome) (args : arguments)
  : ending * list effect :=
  if negb (path_exists (arg_person args)) then
    (Failed (Exit ("Person image not found: " ++ path_str (arg_person args))),
     [Exists (arg_person args)])
  else if negb (path_exists (arg_garment args)) then
    (Failed (Exit ("Garment image not found: " ++ path_str (arg_garment args))),
     [Exists (arg_person args); Exists (arg_garment args)])
  else
    let checked := [Exists (arg_person args); Exists (arg_garment args)] in
    match get_access_token environ (arg_access_token args) with
    | inl e => (Failed e, checked)
    | inr token =>
        match read_image_base64 (arg_person args) with
        | (inl e, tr1) => (Failed e, checked ++ tr1)
        | (inr person_b64, tr1) =>
            match read_image_base64 (arg_garment args) with
            | (inl e, tr2) => (Failed e, checked ++ tr1 ++ tr2)
            | (inr garment_b64, tr2) =>
                let payload := build_payload person_b64 garment_b64 in
                let '(res, net) :=
                  call_virtual_try_on endpoint (arg_project args)
                                      (arg_location args) (arg_model args)
                                      token payload (arg_max_retries args)
                                      (arg_backoff_seconds args) in
                let before := checked ++ tr1 ++ tr2 ++ map Net net in
                match res with
                | Raise e => (CallFailed e, before)
                | SystemExit last_exc => (LoopExit last_exc, before)
                | Return response_json =>
                    match save_output response_json (arg_output args) with
                    | (Some e, tr3) => (Failed e, before ++ tr3)
                    | (None, tr3) =>
                        (Done,
                         before ++ tr3
                         ++ [Stdout ("Saved try-on image to " ++ arg_output args)])
                    end
                end
            end
        end
    end.

End Script.

(** How the call ends at an attempt that is not retried, and the events
    of that attempt. *)
Definition settle (o : outcome) : result :=
  match o with
  | Fails e => Raise (TransportError e)
  | Responds r =>
      if raises_for_status r then Raise (HTTPError r)
      else match parsed r with
           | Some j => Return j
           | None => Raise JSONDecodeError
           end
  end.

Definition final_attempt (rq : request) (o : outcome) : list event :=
  EPost rq :: match o with Responds r => report r | Fails _ => [] end.

(** How the last attempt [k] of a run ends: it settles the call, as the
    last attempt of the budget or as one that is not an error status; or
    it is an error status with retries left whose sleep raises. *)
Definition last_attempt (clock : Clock) (ep : nat -> outcome) (b : Q)
           (k : nat) (budget_spent : Prop) (res : result) : Prop :=
  (res = settle (ep k) /\
   (budget_spent \/ forall r, ~ http_failure (ep k) r))
  \/ (exists e r, ~ budget_spent /\ http_failure (ep k) r /\
                  backoff_sleep b (Z.of_nat k) = inl e /\ res = Raise e).

Definition is_net (e : effect) : bool :=
  match e with Net _ => true | _ => false end.

Definition is_read (e : effect) : bool :=
  match e with ReadBytes _ => true | _ => false end.

Definition is_write (e : effect) : bool :=
  match e with WriteBytes _ _ => true | Mkdir _ => true | _ => false end.

(** A host with one person and one garment file and no token in the
    environment; its base64 is a stand-in that renders bytes as text. *)
Definition text_of_bytes (data : bytes) : string :=
  string_of_list_byte data.

Definition sample_host : Host := {|
  environ := fun _ => None;
  path_exists := fun p => (p =? "person.jpg")%string || (p =? "top.jpg")%string;
  read_bytes := fun p =>
    if (p =? "person.jpg")%string then inr [Byte.x70]
    else if (p =? "top.jpg")%string then inr [Byte.x74]
    else inl (OSError "No such file or directory");
  mkdir_parents := fun _ => None;
  write_bytes := fun _ _ => None;
  parent := fun _ => "out"%string;
  path_str := fun p => p;
  b64encode := text_of_bytes;
  b64decode := fun s => if (s =? "=")%string then inl (DecodingError "Incorrect padding")
                        else inr (list_byte_of_string s)
|}.

Definition sample_arguments : arguments :=
  mkArguments "p" "us-central1" "person.jpg" "top.jpg" "out/result.png"
              (Some "t"%string) "virtual-try-on-001" 3 2.

(** Endpoints used as concrete inputs. *)
Definition unavailable : response :=
  mkResponse 503 "Service Unavailable" None.

Definition prediction : json :=
  JDict [("predictions"%string,
          JList [JDict [("bytesBase64Encoded"%string, JStr "aGVsbG8=")]])].

Definition always_unavailable : nat -> outcome :=
  fun _ => Responds unavailable.

Definition unavailable_once : nat -> outcome :=
  fun n => match n with
           | O => Responds unavailable
           | _ => Responds (mkResponse 200 "{...}" (Some prediction))
           end.

Definition always_timeout : nat -> outcome := fun _ => Fails ReadTimeout.

Definition always_refused : nat -> outcome := fun _ => Fails ConnectionError.

(** A clock whose system call sleeps up to nine billion seconds and
    fails with [EINVAL] beyond. *)
Definition sample_clock : Clock := {|
  system_sleep := fun secs =>
    if Qle_bool secs (inject_Z 9000000000) then None else Some 22
|}.

End VirtualTryOnDemo.

(** * api_app.py *)

Module ApiApp.

(** ** Images as Pillow presents them *)

Inductive image_mode : Type := L | RGB | RGBA.

(** One pixel, 8 bits per band. An image without alpha band carries
    [alpha = 255]; an [L] image carries its value in the three colour
    bands. *)
Record pixel : Type := mkPixel { red : Z; green : Z; blue : Z; alpha : Z }.

Record image : Type := mkImage {
  mode : image_mode;
  width : Z;
  height : Z;
  data : list pixel
}.

Definition size (im : image) : Z * Z := (width im, height im).

(** A single band, as [split()] returns it: an [L] image. *)
Record band : Type := mkBand {
  band_width : Z;
  band_height : Z;
  values : list Z
}.

Inductive resampling : Type := NEAREST | BICUBIC | LANCZOS.

Inductive image_format : Type :=
| PNG
| JPEG (quality : Z) (optimize : bool).

(** A base64 string or byte string, represented by what it decodes to:
    an image file in some format, or something [Image.open] rejects. *)
Inductive encoded : Type :=
| Encoded (fmt : image_format) (im : image)
| Undecodable (raw : string).

(** [getpixel] yields an int for one band, a tuple for several, and is
    typed as possibly [None]. *)
Inductive pixel_value : Type :=
| PxInt (v : Z)
| PxTuple (v : Z) (rest : list Z)
| PxNone.

Inductive exn : Type :=
| DecodeError (raw : string)
| ValueError (msg : string)
| TypeError (msg : string)
| ZeroDivisionError
| OSError (msg : string)
| RembgError (msg : string).

Definition res (A : Type) : Type := (exn + A)%type.

(** [a / b] on floats. *)
Definition py_div (a b : Q) : res Q :=
  if Qeq_bool b 0 then inl ZeroDivisionError else inr (a / b)%Q.

(** ** The external capabilities *)

(** The numeric kernels of Pillow. The pipeline fixes the sizes, modes and
    order of the calls; the pixel values these produce are left open. *)
Class Pillow : Type := {
  resample : resampling -> image -> Q * Q * Q * Q -> Z * Z -> list pixel;
  draw_ellipse : image -> Z * Z * Z * Z -> pixel -> list pixel;
  gaussian_blur : Z -> image -> list pixel;
  grayscale_1x1 : image -> pixel_value;
  brightness : Q -> image -> list pixel;
  alpha_over : image -> image -> Z * Z -> list pixel
}.

Record matting : Type := mkMatting {
  alpha_matting : bool;
  alpha_matting_foreground_threshold : Z;
  alpha_matting_background_threshold : Z;
  alpha_matting_erode_size : Z
}.

(** What [rembg.remove] may hand back. An array is given by the image
    [Image.fromarray] builds from it, [None] when it has no image layout. *)
Inductive cutout_result : Type :=
| CutBytes (e : encoded)
| CutImage (im : image)
| CutArray (a : option image)
| CutOther (type_name : string).

(** The segmenter, [rembg]. *)
Class Rembg : Type := {
  new_session : string -> res string;
  remove : encoded -> string -> matting -> res cutout_result
}.

(** ** Calls, in order *)

Inductive op : Type :=
| OpOpen
| OpConvert (m : image_mode)
| OpSave (fmt : image_format)
| OpNewSession (name : string)
| OpRemove (m : matting)
| OpFromArray
| OpResize (target : Z * Z)
| OpFit (target : Z * Z)
| OpThumbnail (target : Z * Z)
| OpSplit
| OpPoint
| OpPutalpha
| OpNew (target : Z * Z)
| OpEllipse (box : Z * Z * Z * Z)
| OpBlur (radius : Z)
| OpGrayscale
| OpEnhance (factor : Q)
| OpAlphaComposite (dest : Z * Z).

(** A computation logs the library calls it makes and stops at the first
    exception; the log is kept in both cases. *)
Definition M (A : Type) : Type := list op -> res A * list op.

Definition ret {A : Type} (a : A) : M A := fun log => (inr a, log).

Definition raise {A : Type} (e : exn) : M A := fun log => (inl e, log).

Definition bind {A B : Type} (m : M A) (k : A -> M B) : M B :=
  fun log =>
    match m log with
    | (inl e, log') => (inl e, log')
    | (inr a, log') => k a log'
    end.

(** One library call: logged, then its value or exception. *)
Definition call {A : Type} (o : op) (r : res A) : M A :=
  fun log => (r, log ++ [o]).

Definition run {A : Type} (m : M A) : res A * list op := m [].

Notation "x <- m ;; k" := (bind m (fun x => k))
  (at level 61, m at next level, right associativity).

(** ** Pillow operations: sizes, modes and failures *)

Definition Image_open (e : encoded) : M image :=
  call OpOpen match e with
              | Encoded _ im => inr im
              | Undecodable raw => inl (DecodeError raw)
              end.

Definition opaque (p : pixel) : pixel :=
  mkPixel (red p) (green p) (blue p) 255.

(** [convert("RGBA")]: an absent alpha band becomes 255. *)
Definition convert_RGBA (im : image) : M image :=
  call (OpConvert RGBA) (inr (mkImage RGBA (width im) (height im) (data im))).

(** [convert("RGB")]: the alpha band is dropped. *)
Definition convert_RGB (im : image) : M image :=
  call (OpConvert RGB)
       (inr (mkImage RGB (width im) (height im) (map opaque (data im)))).

(** [save]: the JPEG writer refuses an alpha band. *)
Definition save (fmt : image_format) (im : image) : M encoded :=
  call (OpSave fmt)
       match fmt, mode im with
       | JPEG _ _, RGBA => inl (OSError "cannot write mode RGBA as JPEG")
       | _, _ => inr (Encoded fmt im)
       end.

Definition whole (im : image) : Q * Q * Q * Q :=
  (0%Q, 0%Q, inject_Z (width im), inject_Z (height im)).

Definition box_eqb (a b : Q * Q * Q * Q) : bool :=
  let '(a0, a1, a2, a3) := a in
  let '(b0, b1, b2, b3) := b in
  Qeq_bool a0 b0 && Qeq_bool a1 b1 && Qeq_bool a2 b2 && Qeq_bool a3 b3.

Definition size_eqb (a b : Z * Z) : bool :=
  (fst a =? fst b) && (snd a =? snd b).

(** The checks the resampler makes on the source box. *)
Definition box_error (im : image) (box : Q * Q * Q * Q) : option exn :=
  let '(x0, y0, x1, y1) := box in
  if Qltb x0 0 || Qltb y0 0
  then Some (ValueError "box offset can't be negative")
  else if Qltb (inject_Z (width im)) x1 || Qltb (inject_Z (height im)) y1
  then Some (ValueError "box can't exceed original image size")
  else if Qltb (x1 - x0) 0 || Qltb (y1 - y0) 0
  then Some (ValueError "box can't be empty")
  else None.

(** A box that passes them: inside the image and not inverted. *)
Definition box_within (im : image) (box : Q * Q * Q * Q) : Prop :=
  let '(x0, y0, x1, y1) := box in
  (0 <= x0 /\ 0 <= y0 /\ x1 <= inject_Z (width im) /\ y1 <= inject_Z (height im)
   /\ x0 <= x1 /\ y0 <= y1)%Q.

Section Operations.

Context {pillow : Pillow} {rembg : Rembg}.

(** [Image.resize(size, resample, box)]: a copy when nothing changes,
    [ValueError] when a target side is below 1 or the box is refused,
    else an image of exactly the target size and the same mode. *)
Definition resize_box (im : image) (target : Z * Z) (f : resampling)
           (box : Q * Q * Q * Q) : res image :=
  if size_eqb (size im) target && box_eqb box (whole im) then inr im
  else if (fst target <? 1) || (snd target <? 1)
       then inl (ValueError "height and width must be > 0")
       else match box_error im box with
            | Some e => inl e
            | None => inr (mkImage (mode im) (fst target) (snd target)
                                   (resample f im box target))
            end.

Definition resize (im : image) (target : Z * Z) (f : resampling) : M image :=
  call (OpResize target) (resize_box im target f (whole im)).

(** [ImageOps.fit(image, size, method)] with its defaults, no bleed and
    centering (0.5, 0.5): the largest centred crop of the output's
    aspect ratio, resized to [size]. *)
Definition fit_crop (im : image) (target : Z * Z) : res (Q * Q * Q * Q) :=
  let live_w := inject_Z (width im) in
  let live_h := inject_Z (height im) in
  match py_div live_w live_h with
  | inl e => inl e
  | inr live_size_ratio =>
      match py_div (inject_Z (fst target)) (inject_Z (snd target)) with
      | inl e => inl e
      | inr output_ratio =>
          let crop :=
            if Qeq_bool live_size_ratio output_ratio then
              inr (live_w, live_h)
            else if Qle_bool output_ratio live_size_ratio then
              inr ((output_ratio * live_h)%Q, live_h)
            else
              match py_div live_w output_ratio with
              | inl e => inl e
              | inr h => inr (live_w, h)
              end in
          match crop with
          | inl e => inl e
          | inr (crop_width, crop_height) =>
              let crop_left := ((live_w - crop_width) * 0.5)%Q in
              let crop_top := ((live_h - crop_height) * 0.5)%Q in
              inr (crop_left, crop_top,
                   (crop_left + crop_width)%Q, (crop_top + crop_height)%Q)
          end
      end
  end.

Definition fit (im : image) (target : Z * Z) (f : resampling) : M image :=
  call (OpFit target)
       match fit_crop im target with
       | inl e => inl e
       | inr crop => resize_box im target f crop
       end.

(** [split()[-1]]: the last band of the image. *)
Definition last_band (im : image) : M band :=
  call OpSplit
       (inr (mkBand (width im) (height im)
                    (map (match mode im with
                          | RGBA => alpha
                          | _ => blue
                          end) (data im)))).

(** [point(f)] on a one-band image: [f] is tabulated over [range(256)]
    and every value is replaced by its table entry. *)
Definition lut (f : Z -> Z) : list Z := map f (range 256).

Definition lookup (table : list Z) (v : Z) : Z := nth (Z.to_nat v) table 0.

Definition point (f : Z -> Z) (b : band) : M band :=
  call OpPoint
       (inr (mkBand (band_width b) (band_height b)
                    (map (lookup (lut f)) (values b)))).

Fixpoint set_alphas (ps : list pixel) (vs : list Z) : list pixel :=
  match ps, vs with
  | p :: ps', v :: vs' =>
      mkPixel (red p) (green p) (blue p) v :: set_alphas ps' vs'
  | _, _ => ps
  end.

(** [putalpha(band)]: the band replaces the alpha band; sizes must agree. *)
Definition putalpha (im : image) (a : band) : M image :=
  call OpPutalpha
       (if size_eqb (size im) (band_width a, band_height a)
        then inr (mkImage RGBA (width im) (height im)
                          (set_alphas (data im) (values a)))
        else inl (ValueError "images do not match")).

(** [Image.new(mode, size, color)]. *)
Definition new (m : image_mode) (target : Z * Z) (color : pixel) : M image :=
  call (OpNew target)
       (if (fst target <? 0) || (snd target <? 0)
        then inl (ValueError "Width and height must be >= 0")
        else inr (mkImage m (fst target) (snd target)
                          (repeat color (Z.to_nat (fst target * snd target))))).

(** [ImageDraw.Draw(im).ellipse(box, fill=...)]. *)
Definition ellipse (im : image) (box : Z * Z * Z * Z) (fill : pixel) : M image :=
  call (OpEllipse box)
       (inr (mkImage (mode im) (width im) (height im)
                     (draw_ellipse im box fill))).

(** [im.filter(ImageFilter.GaussianBlur(radius))]. *)
Definition GaussianBlur (radius : Z) (im : image) : M image :=
  call (OpBlur radius)
       (inr (mkImage (mode im) (width im) (height im)
                     (gaussian_blur radius im))).

(** [ImageOps.grayscale(im).resize((1, 1)).getpixel((0, 0))]. *)
Definition luma (im : image) : M pixel_value :=
  call OpGrayscale (inr (grayscale_1x1 im)).

(** [ImageEnhance.Brightness(im).enhance(factor)]. *)
Definition enhance (factor : Q) (im : image) : M image :=
  call (OpEnhance factor)
       (inr (mkImage (mode im) (width im) (height im) (brightness factor im))).

(** [bg.alpha_composite(im, dest=...)]: both images must be RGBA; the
    destination keeps its size. *)
Definition alpha_composite (bg im : image) (dest : Z * Z) : M image :=
  call (OpAlphaComposite dest)
       match mode bg, mode im with
       | RGBA, RGBA =>
           inr (mkImage RGBA (width bg) (height bg) (alpha_over bg im dest))
       | _, _ => inl (ValueError "image has wrong mode")
       end.

(** ** [Image.thumbnail] *)

(** [round_aspect(number, key)]: of the floor and the ceiling of
    [number], the one with the smaller key (the floor on a tie), and at
    least 1. *)
Definition round_aspect (number : Q) (key : Z -> Q) : Z :=
  let lo := Qfloor number in
  let hi := Qceiling number in
  Z.max (if Qltb (key hi) (key lo) then hi else lo) 1.

(** [preserve_aspect_ratio()]: [None] when the image already fits the
    requested box, else the size to shrink to. *)
Definition preserve_aspect_ratio (im : image) (provided : Z * Z)
  : res (option (Z * Z)) :=
  let '(x, y) := provided in
  if (width im <=? x) && (height im <=? y) then inr None
  else
    match py_div (inject_Z (width im)) (inject_Z (height im)) with
    | inl e => inl e
    | inr aspect =>
        match py_div (inject_Z x) (inject_Z y) with
        | inl e => inl e
        | inr box_ratio =>
            if Qle_bool aspect box_ratio then
              inr (Some
                     (round_aspect
                        (inject_Z y * aspect)
                        (fun n => Qabs (aspect - inject_Z n / inject_Z y)),
                      y))
            else
              match py_div (inject_Z x) aspect with
              | inl e => inl e
              | inr number =>
                  inr (Some
                         (x,
                          round_aspect
                            number
                            (fun n => if n =? 0 then 0%Q
                                      else Qabs (aspect - inject_Z x / inject_Z n))))
              end
        end
    end.

(** [image.thumbnail(size)] on an image already in memory: it shrinks in
    place, never enlarges, with the default bicubic filter. *)
Definition thumbnail (im : image) (target : Z * Z) : M image :=
  call (OpThumbnail target)
       match preserve_aspect_ratio im target with
       | inl e => inl e
       | inr None => inr im
       | inr (Some final) =>
           if size_eqb (size im) final then inr im
           else resize_box im final BICUBIC (whole im)
       end.

(** ** The functions of api_app.py *)

Definition MAX_IMAGE_DIM : Z := 1280.

Definition resize_and_encode (base64_str : encoded) (max_dim : Z) : M encoded :=
  image0 <- Image_open base64_str ;;
  image1 <- convert_RGB image0 ;;
  image2 <- thumbnail image1 (max_dim, max_dim) ;;
  save (JPEG 90 true) image2.

(** The edge-cleanup rule, [lambda a: 255 if a > 200 else a]. *)
Definition snap (a : Z) : Z := if 200 <? a then 255 else a.

(** Lines 172-174: the alpha band of the subject is passed through
    [snap] and put back. *)
Definition edge_cleanup (fg : image) : M image :=
  fg_alpha <- last_band fg ;;
  fg_alpha' <- point snap fg_alpha ;;
  putalpha fg fg_alpha'.

(** [x[0]] when [x] is a tuple; [None] stays [None]. *)
Definition first_band (p : pixel_value) : option Z :=
  match p with
  | PxInt v => Some v
  | PxTuple v _ => Some v
  | PxNone => None
  end.

(** Lines 197-205: the two luminances as floats, 128 for both when
    either pixel is [None]. *)
Definition luminances (bg_px fg_px : pixel_value) : Q * Q :=
  match first_band bg_px, first_band fg_px with
  | Some bg_luma, Some fg_luma => (inject_Z bg_luma, inject_Z fg_luma)
  | _, _ => (128%Q, 128%Q)
  end.

(** Lines 206-207: the factor to apply, [None] when the guard
    [fg_luma > 0] fails. *)
Definition brightness_factor (bg_luma fg_luma : Q) : res (option Q) :=
  if Qltb 0 fg_luma then
    match py_div bg_luma fg_luma with
    | inl e => inl e
    | inr ratio => inr (Some (py_max 0.85 (py_min 1.15 ratio)))
    end
  else inr None.

(** Lines 195-208: luminance matching of the subject to the background. *)
Definition match_luminance (bg fg : image) : M image :=
  bg_px <- luma bg ;;
  fg_px <- luma fg ;;
  let '(bg_luma, fg_luma) := luminances bg_px fg_px in
  match brightness_factor bg_luma fg_luma with
  | inl e => raise e
  | inr (Some factor) => enhance factor fg
  | inr None => ret fg
  end.

Definition rembg_matting : matting := mkMatting true 240 10 10.

(** Lines 145-152: the representations of a cutout the code accepts. *)
Definition cutout_image (cutout : cutout_result) : M image :=
  match cutout with
  | CutBytes e => im <- Image_open e ;; convert_RGBA im
  | CutImage im => convert_RGBA im
  | CutArray a =>
      im <- call OpFromArray
                 match a with
                 | Some im => inr im
                 | None => inl (TypeError "Cannot handle this data type")
                 end ;;
      convert_RGBA im
  | CutOther type_name =>
      raise (TypeError ("Unexpected rembg output type: " ++ type_name))
  end.

Definition scaled (side : Z) (factor : Q) : Z := py_int (inject_Z side * factor).

(** Lines 154-217 of [composite_on_background]: everything after the
    segmentation, from the fitted background to the encoded result. *)
Definition place_on_background (background foreground : image) : M encoded :=
  let zoom := 1.35%Q in
  bg_zoom <- resize background
                    (scaled (width background) zoom,
                     scaled (height background) zoom) LANCZOS ;;
  bg <- fit bg_zoom (size foreground) LANCZOS ;;
  let scale := 0.78%Q in
  let fg_target := (scaled (width foreground) scale,
                    scaled (height foreground) scale) in
  fg <- resize foreground fg_target LANCZOS ;;
  fg <- edge_cleanup fg ;;
  shadow <- new RGBA (size fg) (mkPixel 0 0 0 0) ;;
  let fg_w := width fg in
  let fg_h := height fg in
  let ellipse_width := scaled fg_w 0.55 in
  let ellipse_height := scaled fg_h 0.08 in
  let ellipse_x := (width fg - ellipse_width) / 2 in
  let ellipse_y := scaled fg_h 0.88 in
  shadow <- ellipse shadow
                    (ellipse_x, ellipse_y,
                     ellipse_x + ellipse_width, ellipse_y + ellipse_height)
                    (mkPixel 0 0 0 120) ;;
  shadow <- GaussianBlur 18 shadow ;;
  let offset := ((width bg - width fg) / 2, scaled (height bg) 0.14) in
  let shadow_offset := (fst offset, snd offset) in
  fg <- match_luminance bg fg ;;
  bg <- alpha_composite bg shadow shadow_offset ;;
  bg <- alpha_composite bg fg offset ;;
  output <- convert_RGB bg ;;
  save (JPEG 92 true) output.

(** [composite_on_background]: lines 126-152, decoding and segmentation,
    then the placement above. *)
Definition composite_on_background (foreground_b64 background_b64 : encoded)
  : M encoded :=
  fg_in <- Image_open foreground_b64 ;;
  foreground0 <- convert_RGBA fg_in ;;
  bg_in <- Image_open background_b64 ;;
  background <- convert_RGBA bg_in ;;
  foreground_bytes <- save PNG foreground0 ;;
  session <- call (OpNewSession "u2net") (new_session "u2net") ;;
  cutout <- call (OpRemove rembg_matting)
                 (remove foreground_bytes session rembg_matting) ;;
  foreground <- cutout_image cutout ;;
  place_on_background background foreground.

End Operations.

(** The image an encoded string holds, [None] when it holds none. *)
Definition decoded (e : encoded) : option image :=
  match e with
  | Encoded _ im => Some im
  | Undecodable _ => None
  end.

(** The image a cutout in a supported representation stands for. *)
Definition cutout_as_image (cutout : cutout_result) : option image :=
  match cutout with
  | CutBytes e => decoded e
  | CutImage im => Some im
  | CutArray a => a
  | CutOther _ => None
  end.

(** The steps after segmentation: fitting, scaling, edge cleanup, shadow,
    luminance matching and blending all go through one of these calls. *)
Definition is_compositing_step (o : op) : bool :=
  match o with
  | OpResize _ | OpFit _ | OpSplit | OpPoint | OpPutalpha | OpNew _
  | OpEllipse _ | OpBlur _ | OpGrayscale | OpEnhance _
  | OpAlphaComposite _ => true
  | _ => false
  end.

(** ** Concrete capabilities and images, used as inputs *)

Definition grey : pixel := mkPixel 128 128 128 255.

(** A backend whose kernels paint everything mid-grey. *)
Definition flat_pillow : Pillow := {|
  resample := fun _ _ _ target => repeat grey (Z.to_nat (fst target * snd target));
  draw_ellipse := fun im _ _ => data im;
  gaussian_blur := fun _ im => data im;
  grayscale_1x1 := fun _ => PxInt 128;
  brightness := fun _ im => data im;
  alpha_over := fun bg _ _ => data bg
|}.

(** A backend that sees a black subject: its luminance is 0. *)
Definition dark_pillow : Pillow := {|
  resample := fun _ _ _ target => repeat grey (Z.to_nat (fst target * snd target));
  draw_ellipse := fun im _ _ => data im;
  gaussian_blur := fun _ im => data im;
  grayscale_1x1 := fun _ => PxInt 0;
  brightness := fun _ im => data im;
  alpha_over := fun bg _ _ => data bg
|}.

(** A segmenter that always hands back [cutout]. *)
Definition stub_rembg (cutout : cutout_result) : Rembg := {|
  new_session := fun name => inr name;
  remove := fun _ _ _ => inr cutout
|}.

Definition solid (m : image_mode) (w h : Z) (p : pixel) : image :=
  mkImage m w h (repeat p (Z.to_nat (w * h))).

Definition sample_subject : image := solid RGB 8 12 (mkPixel 200 180 160 255).

Definition sample_scene : image := solid RGB 10 10 grey.

(** A 2 x 2 cutout: one opaque, one nearly opaque, one faint and one
    transparent pixel. *)
Definition sample_cutout : image :=
  mkImage RGBA 2 2
          [mkPixel 200 180 160 255; mkPixel 200 180 160 201;
           mkPixel 200 180 160 200; mkPixel 0 0 0 0].

(** A subject one pixel wide, and its cutout. *)
Definition sliver_subject : image := solid RGB 1 12 (mkPixel 200 180 160 255).

Definition sliver_cutout : image := solid RGBA 1 12 (mkPixel 200 180 160 255).

End ApiApp.

(** * api_app.py: token, payload, predict call and the two endpoints *)

Module ApiService.

Import VirtualTryOnDemo.

(** What [resolve_token] reads of the credentials object. *)
Record credentials : Type := mkCredentials {
  valid : bool;
  expired : bool;
  token : option string
}.

(** [google.auth]: [auth_default] is [google.auth.default(scopes=...)],
    [refresh] is [credentials.refresh(Request())], given by the
    credentials as they are after it; [None] when the call raises. *)
Class GoogleAuth : Type := {
  auth_default : option credentials;
  refresh : credentials -> option credentials
}.

(** Base64 text and what it stands for in the image pipeline. *)
Class Base64Images : Type := {
  as_image : string -> ApiApp.encoded;
  as_text : ApiApp.encoded -> string
}.

(** pydantic's check of a value given for a [str] field. A string is
    kept; a list, a dict and [None] are refused; a number or a boolean is
    turned into text by pydantic 1 and refused by pydantic 2:
    [str_of_scalar] is that choice. *)
Class Pydantic : Type := {
  str_of_scalar : json -> option string
}.

(** [ValidationError fields]: pydantic's error, with the fields it
    refused. *)
Inductive failure : Type :=
| HTTPException (status : Z) (detail : string)
| RequestFailed (e : exn)
| ScriptError (e : script_exn)
| ImageError (e : ApiApp.exn)
| ValidationError (fields : list string).

(** A value given for a field declared [str]: its text, or [None] when
    it is refused. *)
Definition as_str {pydantic : Pydantic} (v : json) : option string :=
  match v with
  | JStr s => Some s
  | JNum _ | JBool _ => str_of_scalar v
  | JNull | JList _ | JDict _ => None
  end.

(** The same for a field declared [Optional[str]], which takes [None]. *)
Definition as_optional_str {pydantic : Pydantic} (v : json)
  : option (option string) :=
  match v with
  | JNull => Some None
  | _ => match as_str v with Some s => Some (Some s) | None => None end
  end.

Inductive api_event : Type :=
| AuthDefault
| AuthRefresh
| Http (e : event)
| Imaging (o : ApiApp.op).

Definition missing_token : failure :=
  HTTPException 401
    "Missing access token. Run `gcloud auth application-default login` or set ACCESS_TOKEN.".

(** [build_payload], lines 221-237. *)
Definition build_payload (person_b64 garment_b64 : string)
           (background_prompt : option string) : json :=
  JDict [("instances"%string,
          JList [JDict [("personImage"%string, image_field person_b64);
                        ("productImages"%string,
                         JList [image_field garment_b64])]]);
         ("parameters"%string,
          JDict (("sampleCount"%string, JNum 1)
                 :: match nonempty background_prompt with
                    | Some prompt => [("backgroundPrompt"%string, JStr prompt)]
                    | None => []
                    end))].

Definition vertex_url (project location model : string) : string :=
  ("https://" ++ location ++ "-aiplatform.googleapis.com/v1/projects/"
   ++ project ++ "/locations/" ++ location
   ++ "/publishers/google/models/" ++ model ++ ":predict")%string.

(** [call_vertex], lines 241-253: one POST, no retry. *)
Definition call_vertex (endpoint : nat -> outcome)
           (project location model token : string) (payload : json)
  : (failure + json) * list event :=
  let rq := mkRequest (vertex_url project location model)
                      [("Authorization"%string, ("Bearer " ++ token)%string);
                       ("Content-Type"%string, "application/json"%string)]
                      payload 120 in
  (match endpoint 0%nat with
   | Fails e => inl (RequestFailed (TransportError e))
   | Responds r =>
       if negb (ok r) then inl (HTTPException (status_code r) (text r))
       else match parsed r with
            | Some j => inr j
            | None => inl (RequestFailed JSONDecodeError)
            end
   end,
   [EPost rq]).

(** The request models, lines 38-62. *)
Record TryOnRequest : Type := mkTryOnRequest {
  project : string;
  location : string;
  model : string;
  personImageBase64 : string;
  garmentImageBase64 : string;
  backgroundPrompt : option string;
  backgroundImageBase64 : option string
}.

Record BackgroundRequest : Type := mkBackgroundRequest {
  bg_project : string;
  bg_location : string;
  bg_model : string;
  prompt : string;
  sampleCount : Z
}.

(** The response models, lines 51-68. *)
Record TryOnResponse : Type := mkTryOnResponse { imageBase64 : string }.

Record BackgroundResponse : Type := mkBackgroundResponse {
  bg_imageBase64 : string;
  bg_prompt : option string
}.

(** [TryOnResponse(imageBase64=v)]: the model is built when [v] passes
    as a [str]. *)
Definition new_TryOnResponse {pydantic : Pydantic} (v : json)
  : failure + TryOnResponse :=
  match as_str v with
  | Some s => inr (mkTryOnResponse s)
  | None => inl (ValidationError ["imageBase64"%string])
  end.

(** [BackgroundResponse(imageBase64=v, prompt=p)]: every field is
    checked, and one error names all the fields refused. *)
Definition new_BackgroundResponse {pydantic : Pydantic} (v p : json)
  : failure + BackgroundResponse :=
  match as_str v, as_optional_str p with
  | Some s, Some echoed => inr (mkBackgroundResponse s echoed)
  | None, Some _ => inl (ValidationError ["imageBase64"%string])
  | Some _, None => inl (ValidationError ["prompt"%string])
  | None, None => inl (ValidationError ["imageBase64"%string; "prompt"%string])
  end.

Section Service.

Context {auth : GoogleAuth} {codec : Base64Images} {pydantic : Pydantic}.
Context {pillow : ApiApp.Pillow} {rembg : ApiApp.Rembg}.

Variable environ : environment.
Variable endpoint : nat -> outcome.

(** The fallback of [resolve_token], lines 97-107. *)
Definition token_from_environment (tr : list api_event)
  : (failure + string) * list api_event :=
  match nonempty (environ "ACCESS_TOKEN"%string) with
  | Some t => (inr t, tr)
  | None => (inl missing_token, tr)
  end.

(** [resolve_token], lines 84-107: application default credentials
    first, refreshed when not valid or expired; any exception on that path
    is swallowed and the environment is tried. *)
Definition resolve_token : (failure + string) * list api_event :=
  match auth_default with
  | None => token_from_environment [AuthDefault]
  | Some credentials =>
      if negb (valid credentials) || expired credentials then
        match refresh credentials with
        | None => token_from_environment [AuthDefault; AuthRefresh]
        | Some refreshed =>
            match nonempty (token refreshed) with
            | Some t => (inr t, [AuthDefault; AuthRefresh])
            | None => token_from_environment [AuthDefault; AuthRefresh]
            end
        end
      else
        match nonempty (token credentials) with
        | Some t => (inr t, [AuthDefault])
        | None => token_from_environment [AuthDefault]
        end
  end.

(** A run of the image pipeline, its library calls as events. *)
Definition imaging {A : Type} (m : ApiApp.M A)
  : ApiApp.res A * list api_event :=
  (fst (ApiApp.run m), map Imaging (snd (ApiApp.run m))).

(** [generate_background], lines 301-329. *)
Definition generate_background (request : BackgroundRequest)
  : (failure + BackgroundResponse) * list api_event :=
  match resolve_token with
  | (inl e, tr0) => (inl e, tr0)
  | (inr tok, tr0) =>
      let payload :=
        JDict [("instances"%string,
                JList [JDict [("prompt"%string, JStr (prompt request))]]);
               ("parameters"%string,
                JDict [("sampleCount"%string, JNum (sampleCount request))])] in
      match call_vertex endpoint (bg_project request) (bg_location request)
                        (bg_model request) tok payload with
      | (inl e, net) => (inl e, tr0 ++ map Http net)
      | (inr response_json, net) =>
          let before := tr0 ++ map Http net in
          match image_payload_of response_json with
          | Broken e => (inl (ScriptError e), before)
          | NoPredictions =>
              (inl (HTTPException 502 "No predictions returned from API."), before)
          | MissingImage =>
              (inl (HTTPException 502 "Missing image data in API response."), before)
          | Image first image_payload =>
              match get first "prompt" JNull with
              | inl e => (inl (ScriptError e), before)
              | inr echoed =>
                  (new_BackgroundResponse image_payload echoed, before)
              end
          end
      end
  end.

(** [try_on], lines 265-296; [max_image_dim] is the module constant
    [MAX_IMAGE_DIM], the default of [resize_and_encode]. *)
Definition try_on (max_image_dim : Z) (request : TryOnRequest)
  : (failure + TryOnResponse) * list api_event :=
  match resolve_token with
  | (inl e, tr0) => (inl e, tr0)
  | (inr tok, tr0) =>
      match imaging (ApiApp.resize_and_encode
                       (as_image (personImageBase64 request)) max_image_dim) with
      | (inl e, tr1) => (inl (ImageError e), tr0 ++ tr1)
      | (inr person, tr1) =>
          match imaging (ApiApp.resize_and_encode
                           (as_image (garmentImageBase64 request))
                           max_image_dim) with
          | (inl e, tr2) => (inl (ImageError e), tr0 ++ tr1 ++ tr2)
          | (inr garment, tr2) =>
              let payload := build_payload (as_text person) (as_text garment)
                                           (backgroundPrompt request) in
              match call_vertex endpoint (project request) (location request)
                                (model request) tok payload with
              | (inl e, net) => (inl e, tr0 ++ tr1 ++ tr2 ++ map Http net)
              | (inr response_json, net) =>
                  let before := tr0 ++ tr1 ++ tr2 ++ map Http net in
                  match image_payload_of response_json with
                  | Broken e => (inl (ScriptError e), before)
                  | NoPredictions =>
                      (inl (HTTPException 502 "No predictions returned from API."),
                       before)
                  | MissingImage =>
                      (inl (HTTPException 502 "Missing image data in API response."),
                       before)
                  | Image _ image_payload =>
                      match nonempty (backgroundImageBase64 request) with
                      | None => (new_TryOnResponse image_payload, before)
                      | Some background =>
                          match image_payload with
                          | JStr s =>
                              match imaging (ApiApp.composite_on_background
                                               (as_image s) (as_image background)) with
                              | (inl e, tr4) => (inl (ImageError e), before ++ tr4)
                              | (inr out, tr4) =>
                                  (new_TryOnResponse (JStr (as_text out)),
                                   before ++ tr4)
                              end
                          | _ =>
                              (inl (ScriptError
                                      (TypeError "argument should be a bytes-like object or ASCII string")),
                               before)
                          end
                      end
                  end
              end
          end
      end
  end.

End Service.

Definition is_http (e : api_event) : bool :=
  match e with Http _ => true | _ => false end.

Definition is_imaging (e : api_event) : bool :=
  match e with Imaging _ => true | _ => false end.

(** Credentials and codecs used as concrete inputs. *)
Definition no_auth : GoogleAuth := {|
  auth_default := None;
  refresh := fun _ => None
|}.

Definition stale_auth : GoogleAuth := {|
  auth_default := Some (mkCredentials false true None);
  refresh := fun _ => Some (mkCredentials true false (Some "ya29.fresh"%string))
|}.

(** A codec that reads every string as the PNG of one fixed image. *)
Definition fixed_codec (im : ApiApp.image) : Base64Images := {|
  as_image := fun _ => ApiApp.Encoded ApiApp.PNG im;
  as_text := fun _ => "aW1hZ2U="%string
|}.

(** pydantic 2: a number is no string. *)
Definition strict_pydantic : Pydantic := {|
  str_of_scalar := fun _ => None
|}.

(** A codec for which no string is an image. *)
Definition broken_codec : Base64Images := {|
  as_image := fun s => ApiApp.Undecodable s;
  as_text := fun _ => ""%string
|}.

Definition sample_request : TryOnRequest :=
  mkTryOnRequest "p" "us-central1" "virtual-try-on-001" "cGVyc29u" "dG9w"
                 None None.

Definition no_environment : environment := fun _ => None.

Definition token_in_environment : environment :=
  fun name => if (name =? "ACCESS_TOKEN")%string then Some "t"%string else None.

End ApiService.

(** * streamlit_app.py *)

Module StreamlitApp.

Import VirtualTryOnDemo.

Inductive error : Type := ValueError (msg : string).

(** [resolve_token], lines 30-36; the explicit token is a string, empty
    when the field was left blank. *)
Definition resolve_token (environ : environment) (explicit_token : string)
  : error + string :=
  match nonempty (Some explicit_token) with
  | Some t => inr t
  | None =>
      match nonempty (environ "ACCESS_TOKEN"%string) with
      | Some t => inr t
      | None => inl (ValueError "Missing access token. Provide it or set ACCESS_TOKEN.")
      end
  end.

(** The garments kept by the handler, line 133:
    [[b64 for b64 in [garment_top_b64, garment_bottom_b64] if b64]]. *)
Definition garment_b64_list (garment_top_b64 garment_bottom_b64 : option string)
  : list string :=
  flat_map (fun b64 => match nonempty b64 with Some s => [s] | None => [] end)
           [garment_top_b64; garment_bottom_b64].

(** [build_payload_multi], lines 113-126. *)
Definition build_payload_multi (person_b64 : string)
           (garment_b64_list : list string) : json :=
  JDict [("instances"%string,
          JList [JDict [("personImage"%string, image_field person_b64);
                        ("productImages"%string,
                         JList (map image_field garment_b64_list))]]);
         ("parameters"%string, JDict [("sampleCount"%string, JNum 1)])].

End StreamlitApp.

(** * Properties of the retrying client *)

Import VirtualTryOnDemo.

Lemma ok_false_raises (r : response) :
  ok r = false -> raises_for_status r = true.
Proof. unfold ok. now destruct (raises_for_status r). Qed.

Lemma report_failed (r : response) :
  ok r = false -> report r = [EPrintStatus (status_code r); EPrintBody (text r)].
Proof. unfold report. now intros ->. Qed.


(** ** The sleep of the handler *)

(** A sleep that returns lasted [backoff_seconds * 2^attempt] seconds. *)
Lemma backoff_sleep_duration (clock : Clock) (b : Q) (a : Z) (s : Q) :
  backoff_sleep b a = inr s -> s = (b * inject_Z (2 ^ a))%Q.
Proof.
  unfold backoff_sleep, sleep_duration.
  destruct (1024 <=? a); [discriminate |].
  destruct (time_sleep (b * inject_Z (2 ^ a))); [discriminate |].
  now intros [= <-].
Qed.

Lemma sleep_returns_true (clock : Clock) (b : Q) (a : Z) :
  sleep_returns b a = true ->
  backoff_sleep b a = inr (b * inject_Z (2 ^ a))%Q.
Proof.
  unfold sleep_returns. destruct (backoff_sleep b a) as [e | s] eqn:E;
    [discriminate |].
  intros _. now rewrite (backoff_sleep_duration _ _ _ _ E).
Qed.


(** The handler's two statements raise no [HTTPError]. *)
Lemma backoff_sleep_not_http (clock : Clock) (b : Q) (a : Z)
      (e : VirtualTryOnDemo.exn) (r : response) :
  backoff_sleep b a = inl e -> e <> HTTPError r.
Proof.
  unfold backoff_sleep, sleep_duration, time_sleep.
  destruct (1024 <=? a); [intros [= <-]; discriminate |].
  destruct ((_ <? _) || (_ <? _)); [intros [= <-]; discriminate |].
  destruct (_ <? 0); [intros [= <-]; discriminate |].
  destruct (system_sleep _); [intros [= <-]; discriminate | discriminate].
Qed.

(** From attempt 1024 on the product itself raises. *)
Lemma backoff_sleep_overflow (clock : Clock) (b : Q) (a : Z) :
  1024 <= a ->
  backoff_sleep b a = inl (OverflowError "int too large to convert to float").
Proof.
  intros Ha. unfold backoff_sleep, sleep_duration.
  now replace (1024 <=? a) with true by (symmetry; apply Z.leb_le; lia).
Qed.

(** [time.sleep] never returns on a negative duration. *)
Lemma time_sleep_negative (clock : Clock) (secs : Q) :
  (secs < 0)%Q -> time_sleep secs <> None.
Proof.
  intros Hneg. unfold time_sleep.
  destruct ((_ <? _) || (_ <? _)); [discriminate |].
  assert (Hns : nanoseconds secs < 0).
  { unfold nanoseconds.
    assert (Hq : (secs * inject_Z (10 ^ 9) < 0)%Q).
    { setoid_replace 0%Q with (0 * inject_Z (10 ^ 9))%Q by ring.
      apply Qmult_lt_compat_r; [reflexivity | exact Hneg]. }
    replace (Qltb (secs * inject_Z (10 ^ 9)) 0) with true.
    - apply Z.nle_gt. intros Hge.
      apply (Qlt_irrefl 0). apply Qle_lt_trans with (secs * inject_Z (10 ^ 9))%Q;
        [| exact Hq].
      apply Qle_trans with (inject_Z (Qfloor (secs * inject_Z (10 ^ 9)))).
      + change 0%Q with (inject_Z 0). now rewrite <- Zle_Qle.
      + apply Qfloor_le.
    - symmetry. unfold Qltb. apply negb_true_iff.
      destruct (Qle_bool 0 (secs * inject_Z (10 ^ 9))) eqn:E; [| reflexivity].
      apply Qle_bool_iff in E. exfalso.
      apply (Qlt_irrefl 0). now apply Qle_lt_trans with (secs * inject_Z (10 ^ 9))%Q. }
  replace (nanoseconds secs <? 0) with true by (symmetry; now apply Z.ltb_lt).
  discriminate.
Qed.

(** So a sleep that returns has a non-negative backoff and an attempt
    below 1024. *)
Lemma sleep_returns_bounds (clock : Clock) (b : Q) (a : Z) :
  0 <= a -> sleep_returns b a = true -> a < 1024 /\ (0 <= b)%Q.
Proof.
  intros Ha Hs. apply sleep_returns_true in Hs.
  unfold backoff_sleep, sleep_duration in Hs.
  destruct (1024 <=? a) eqn:E; [discriminate |]. apply Z.leb_gt in E.
  split; [exact E |].
  destruct (time_sleep (b * inject_Z (2 ^ a))) eqn:Es; [discriminate |].
  destruct (Qlt_le_dec b 0) as [Hneg | Hpos]; [| exact Hpos].
  exfalso. apply (time_sleep_negative clock (b * inject_Z (2 ^ a))); [| exact Es].
  setoid_replace 0%Q with (0 * inject_Z (2 ^ a))%Q by ring.
  apply Qmult_lt_compat_r; [| exact Hneg].
  change 0%Q with (inject_Z 0). rewrite <- Zlt_Qlt. apply Z.pow_pos_nonneg; lia.
Qed.

(** Every iteration starts with its POST. *)
Lemma retry_loop_posts_first (clock : Clock) ep rq mr b a rest last n :
  exists res tr, retry_loop ep rq mr b (a :: rest) last n = (res, EPost rq :: tr).
Proof.
  simpl. destruct (ep n) as [r | e]; [| eauto].
  destruct (raises_for_status r).
  - destruct (mr <=? a); [eauto |].
    destruct (backoff_sleep b a); [eauto |].
    destruct (retry_loop ep rq mr b rest (Some (HTTPError r)) (S n)); eauto.
  - destruct (parsed r); eauto.
Qed.

(** [k] attempts in a row that get an error status while retries remain,
    and whose sleeps return, are each followed by their sleep, and the
    loop goes on with the rest. *)
Lemma retry_loop_after_failures (clock : Clock) ep rq mr b :
  forall k n len last,
    (forall i, (i < k)%nat -> exists r, http_failure (ep (n + i)%nat) r) ->
    (forall i, (i < k)%nat -> sleep_returns b (Z.of_nat (n + i)) = true) ->
    Z.of_nat (n + k) <= mr ->
    exists last',
      retry_loop ep rq mr b (map Z.of_nat (seq n (k + len))) last n =
      (fst (retry_loop ep rq mr b (map Z.of_nat (seq (n + k) len)) last' (n + k)),
       retried_attempts ep rq b n k
       ++ snd (retry_loop ep rq mr b (map Z.of_nat (seq (n + k) len)) last' (n + k))).
Proof.
  induction k as [| k IH]; intros n len last Hfail Hsleep Hle.
  - exists last. rewrite Nat.add_0_r. simpl.
    now destruct (retry_loop ep rq mr b (map Z.of_nat (seq n len)) last n).
  - destruct (Hfail 0%nat ltac:(lia)) as [r [Hr Hok]].
    rewrite Nat.add_0_r in Hr.
    pose proof (sleep_returns_true _ _ _ (Hsleep 0%nat ltac:(lia))) as Hs.
    rewrite Nat.add_0_r in Hs.
    destruct (IH (S n) len (Some (HTTPError r))) as [last' IHeq].
    + intros i Hi. destruct (Hfail (S i) ltac:(lia)) as [r' Hr'].
      exists r'. now replace (S n + i)%nat with (n + S i)%nat by lia.
    + intros i Hi. replace (S n + i)%nat with (n + S i)%nat by lia.
      apply Hsleep. lia.
    + lia.
    + exists last'.
      replace (n + S k)%nat with (S n + k)%nat by lia.
      cbn [Nat.add seq map retry_loop]. rewrite Hr, (ok_false_raises _ Hok).
      replace (mr <=? Z.of_nat n) with false by (symmetry; apply Z.leb_gt; lia).
      rewrite Hs.
      cbn [Nat.add] in IHeq. rewrite IHeq.
      unfold retried_attempts. cbn [seq flat_map fst snd].
      unfold retried_attempt at 2. rewrite Hr.
      f_equal. cbn [app]. f_equal. now rewrite <- !app_assoc.
Qed.

(** C8. For every [max_retries < 0] the loop body is never entered: no
    POST, no sleep, no print, no response; the call ends in the
    [SystemExit] after the loop, whose recorded last error is [None]. *)
Theorem negative_max_retries_exits (clock : Clock) (ep : nat -> outcome)
        (project location model token : string) (payload : json)
        (max_retries : Z) (backoff_seconds : Q) :
  max_retries < 0 ->
  call_virtual_try_on ep project location model token payload
                      max_retries backoff_seconds
  = (SystemExit None, []).
Proof.
  intros Hneg. unfold call_virtual_try_on, range.
  replace (Z.to_nat (max_retries + 1)) with 0%nat by lia.
  reflexivity.
Qed.

Lemma negative_max_retries_exits_witness :
  @call_virtual_try_on sample_clock always_unavailable "p" "us-central1"
                       "virtual-try-on-001" "t" JNull (-1) 2
  = (SystemExit None, []).
Proof. apply negative_max_retries_exits. lia. Defined.

(** C1, as stated, fails: "every attempt fails" also covers attempts
    that fail in transport, and "every backoff" covers negative ones.
    With [max_retries = 3], an endpoint that refuses every connection is
    POSTed once, not four times, and nothing is slept; and with a backoff
    of -2 seconds an endpoint that always answers 503 is POSTed once
    too: the first [time.sleep] raises [ValueError], which ends the
    call. *)
Lemma permanent_failure_single_attempt :
  let rq := mkRequest (predict_url "p" "us-central1" "virtual-try-on-001")
                      (predict_headers "t") JNull 120 in
  let refused := @call_virtual_try_on sample_clock always_refused "p"
                   "us-central1" "virtual-try-on-001" "t" JNull 3 2 in
  let hasty := @call_virtual_try_on sample_clock always_unavailable "p"
                 "us-central1" "virtual-try-on-001" "t" JNull 3 (-2) in
  (forall n, always_refused n = Fails ConnectionError) /\
  refused = (Raise (TransportError ConnectionError), [EPost rq]) /\
  posts_of (snd refused) = 1%nat /\ sleeps_of (snd refused) = [] /\
  (forall n, http_failure (always_unavailable n) unavailable) /\
  hasty = (Raise (ValueError "sleep length must be non-negative"),
           [EPost rq; EPrintStatus 503; EPrintBody "Service Unavailable"]) /\
  posts_of (snd hasty) = 1%nat /\ sleeps_of (snd hasty) = [].
Proof.
  cbv zeta. repeat split; reflexivity.
Qed.

(** C1, amended. With [max_retries = 3], an endpoint that answers every
    POST with an error status, and a backoff [b] whose three sleeps
    [b*1], [b*2], [b*4] are durations [time.sleep] returns from, the call
    POSTs exactly 4 times, sleeps exactly three times, for [b*1], [b*2],
    [b*4] seconds, one sleep between each two consecutive POSTs, and ends
    by re-raising the [HTTPError] of the fourth response. *)
Theorem permanent_failure_exhausts_retries (clock : Clock) (ep : nat -> outcome)
        (project location model token : string) (payload : json) (b : Q) :
  (forall n, exists r, http_failure (ep n) r) ->
  time_sleep (b * 1) = None ->
  time_sleep (b * 2) = None ->
  time_sleep (b * 4) = None ->
  let rq := mkRequest (predict_url project location model)
                      (predict_headers token) payload 120 in
  let run := call_virtual_try_on ep project location model token payload 3 b in
  exists r_last,
    http_failure (ep 3%nat) r_last /\
    fst run = Raise (HTTPError r_last) /\
    posts_of (snd run) = 4%nat /\
    sleeps_of (snd run) = [b * 1; b * 2; b * 4]%Q /\
    network_trace (snd run) =
      [EPost rq; ESleep (b * 1); EPost rq; ESleep (b * 2);
       EPost rq; ESleep (b * 4); EPost rq]%Q.
Proof.
  intros Hfail S0 S1 S2 rq run.
  destruct (Hfail 0%nat) as [r0 [E0 O0]], (Hfail 1%nat) as [r1 [E1 O1]],
           (Hfail 2%nat) as [r2 [E2 O2]], (Hfail 3%nat) as [r3 [E3 O3]].
  exists r3. split; [now split |].
  assert (B0 : backoff_sleep b 0 = inr (b * 1)%Q).
  { unfold backoff_sleep, sleep_duration. change (1024 <=? 0) with false.
    cbv iota. change (inject_Z (2 ^ 0)) with 1%Q. now rewrite S0. }
  assert (B1 : backoff_sleep b 1 = inr (b * 2)%Q).
  { unfold backoff_sleep, sleep_duration. change (1024 <=? 1) with false.
    cbv iota. change (inject_Z (2 ^ 1)) with 2%Q. now rewrite S1. }
  assert (B2 : backoff_sleep b 2 = inr (b * 4)%Q).
  { unfold backoff_sleep, sleep_duration. change (1024 <=? 2) with false.
    cbv iota. change (inject_Z (2 ^ 2)) with 4%Q. now rewrite S2. }
  subst run. unfold call_virtual_try_on, range.
  change (Z.to_nat (3 + 1)) with 4%nat.
  cbn [seq map retry_loop].
  rewrite E0, E1, E2, E3, !ok_false_raises by assumption.
  change (3 <=? Z.of_nat 0) with false. change (3 <=? Z.of_nat 1) with false.
  change (3 <=? Z.of_nat 2) with false. change (3 <=? Z.of_nat 3) with true.
  change (Z.of_nat 0) with 0. change (Z.of_nat 1) with 1.
  change (Z.of_nat 2) with 2.
  rewrite B0, B1, B2.
  cbn iota. rewrite !report_failed by assumption.
  repeat split.
Qed.

Lemma permanent_failure_exhausts_retries_witness :
  let rq := mkRequest (predict_url "p" "us-central1" "virtual-try-on-001")
                      (predict_headers "t") JNull 120 in
  let run := @call_virtual_try_on sample_clock always_unavailable "p"
               "us-central1" "virtual-try-on-001" "t" JNull 3 2 in
  exists r_last,
    http_failure (always_unavailable 3%nat) r_last /\
    fst run = Raise (HTTPError r_last) /\
    posts_of (snd run) = 4%nat /\
    sleeps_of (snd run) = [2 * 1; 2 * 2; 2 * 4]%Q /\
    network_trace (snd run) =
      [EPost rq; ESleep (2 * 1); EPost rq; ESleep (2 * 2);
       EPost rq; ESleep (2 * 4); EPost rq]%Q.
Proof.
  apply (permanent_failure_exhausts_retries sample_clock always_unavailable).
  - intros n. exists unavailable. split; reflexivity.
  - reflexivity.
  - reflexivity.
  - reflexivity.
Defined.



(** C2, as stated, fails: with retries left, a POST that fails in
    transport (here a timeout on the first attempt, [max_retries = 3]) is
    not followed by any sleep or second POST; the error propagates. *)
Lemma transport_failure_not_retried :
  let rq := mkRequest (predict_url "p" "us-central1" "virtual-try-on-001")
                      (predict_headers "t") JNull 120 in
  let run := @call_virtual_try_on sample_clock always_timeout "p" "us-central1"
                                  "virtual-try-on-001" "t" JNull 3 2 in
  0 < 3 /\ always_timeout 0%nat = Fails ReadTimeout /\
  run = (Raise (TransportError ReadTimeout), [EPost rq]) /\
  sleeps_of (snd run) = [] /\ posts_of (snd run) = 1%nat /\
  ~ In (ESleep (2 * inject_Z (2 ^ 0))) (snd run).
Proof.
  repeat split; try reflexivity.
  intros [H | []]. discriminate H.
Qed.

(** C2, amended. At an attempt [k < max_retries] reached after [k]
    retried error statuses: a response with an error status is followed
    by the handler's two statements, the product
    [backoff_seconds * 2^k] and the [time.sleep] of it; when they return,
    the call has slept that long and makes the next POST; when one of
    them raises (a negative backoff, an attempt from 1024 on, a duration
    the platform refuses), that exception ends the call after the
    prints; a transport failure is not caught, it ends the call at once
    with that error, without sleep or further POST. *)
Theorem only_http_failures_retried (clock : Clock) (ep : nat -> outcome)
        (project location model token : string) (payload : json)
        (max_retries : Z) (b : Q) (k : nat) :
  Z.of_nat k < max_retries ->
  (forall i, (i < k)%nat -> exists r, http_failure (ep i) r) ->
  (forall i, (i < k)%nat -> sleep_returns b (Z.of_nat i) = true) ->
  let rq := mkRequest (predict_url project location model)
                      (predict_headers token) payload 120 in
  let run := call_virtual_try_on ep project location model token payload
                                 max_retries b in
  match ep k with
  | Responds r =>
      if ok r then True
      else
        match backoff_sleep b (Z.of_nat k) with
        | inr sleep_for =>
            sleep_for = (b * inject_Z (2 ^ Z.of_nat k))%Q /\
            exists res tr',
              run = (res,
                     retried_attempts ep rq b 0 k
                     ++ [EPost rq; EPrintStatus (status_code r);
                         EPrintBody (text r); ESleep sleep_for; EPost rq]
                     ++ tr')
        | inl e =>
            (forall r', e <> HTTPError r') /\
            run = (Raise e,
                   retried_attempts ep rq b 0 k
                   ++ [EPost rq; EPrintStatus (status_code r);
                       EPrintBody (text r)])
        end
  | Fails e =>
      run = (Raise (TransportError e), retried_attempts ep rq b 0 k ++ [EPost rq])
  end.
Proof.
  intros Hk Hfail Hsleep rq run. subst run. unfold call_virtual_try_on, range.
  fold rq.
  assert (Hlen : exists len, Z.to_nat (max_retries + 1) = (k + S (S len))%nat).
  { exists (Z.to_nat (max_retries + 1) - k - 2)%nat. lia. }
  destruct Hlen as [len ->].
  destruct (retry_loop_after_failures clock ep rq max_retries b k 0 (S (S len)) None)
    as [last' ->]; [exact Hfail | exact Hsleep | lia |].
  cbn [Nat.add seq map].
  destruct (ep k) as [r | e] eqn:Ek.
  - destruct (ok r) eqn:Hok; [exact I |].
    destruct (backoff_sleep b (Z.of_nat k)) as [e | sleep_for] eqn:Eb.
    + split; [intros r'; exact (backoff_sleep_not_http _ _ _ _ r' Eb) |].
      cbn [retry_loop]. rewrite Ek, (ok_false_raises _ Hok).
      replace (max_retries <=? Z.of_nat k) with false
        by (symmetry; apply Z.leb_gt; lia).
      rewrite Eb, (report_failed _ Hok). reflexivity.
    + split; [exact (backoff_sleep_duration _ _ _ _ Eb) |].
      destruct (retry_loop_posts_first clock ep rq max_retries b (Z.of_nat (S k))
                  (map Z.of_nat (seq (S (S k)) len)) (Some (HTTPError r)) (S k))
        as [res [tr' Hnext]].
      exists res, tr'.
      cbn [retry_loop] in *. rewrite Ek, (ok_false_raises _ Hok).
      replace (max_retries <=? Z.of_nat k) with false
        by (symmetry; apply Z.leb_gt; lia).
      rewrite Eb, Hnext, (report_failed _ Hok). reflexivity.
  - cbn [retry_loop]. now rewrite Ek.
Qed.

Lemma only_http_failures_retried_witness :
  let rq := mkRequest (predict_url "p" "us-central1" "virtual-try-on-001")
                      (predict_headers "t") JNull 120 in
  let run := @call_virtual_try_on sample_clock always_unavailable "p"
               "us-central1" "virtual-try-on-001" "t" JNull 3 2 in
  (2 * inject_Z (2 ^ Z.of_nat 1) = 2 * inject_Z (2 ^ Z.of_nat 1))%Q /\
  exists res tr',
    run = (res,
           retried_attempts always_unavailable rq 2 0 1
           ++ [EPost rq; EPrintStatus (status_code unavailable);
               EPrintBody (text unavailable);
               ESleep (2 * inject_Z (2 ^ Z.of_nat 1)); EPost rq]
           ++ tr').
Proof.
  apply (only_http_failures_retried sample_clock always_unavailable "p"
           "us-central1" "virtual-try-on-001" "t" JNull 3 2 1).
  - reflexivity.
  - intros i _. exists unavailable. split; reflexivity.
  - intros i Hi. assert (i = 0%nat) as -> by lia. reflexivity.
Defined.

(** ** Total attempts, for every retry budget *)

Lemma posts_of_app (tr1 tr2 : list event) :
  posts_of (tr1 ++ tr2) = (posts_of tr1 + posts_of tr2)%nat.
Proof. unfold posts_of. now rewrite filter_app, length_app. Qed.

Lemma sleeps_of_app (tr1 tr2 : list event) :
  sleeps_of (tr1 ++ tr2) = sleeps_of tr1 ++ sleeps_of tr2.
Proof.
  induction tr1 as [| e tr1 IH]; [reflexivity |].
  destruct e; simpl; now rewrite IH.
Qed.

Lemma report_quiet (r : response) :
  posts_of (report r) = 0%nat /\ sleeps_of (report r) = [].
Proof. unfold report. destruct (ok r); split; reflexivity. Qed.

Lemma retried_attempts_counts (ep : nat -> outcome) (rq : request) (b : Q) :
  forall k n,
    posts_of (retried_attempts ep rq b n k) = k /\
    sleeps_of (retried_attempts ep rq b n k)
    = map (fun i => (b * inject_Z (2 ^ Z.of_nat i))%Q) (seq n k).
Proof.
  unfold retried_attempts.
  induction k as [| k IH]; intros n; [split; reflexivity |].
  destruct (IH (S n)) as [IHp IHs].
  cbn [seq flat_map map]. rewrite posts_of_app, sleeps_of_app, IHp, IHs.
  unfold retried_attempt.
  destruct (ep n) as [r | e].
  - destruct (report_quiet r) as [Hp Hs].
    change (EPost rq :: report r ++ [ESleep (b * inject_Z (2 ^ Z.of_nat n))])
      with ([EPost rq] ++ report r ++ [ESleep (b * inject_Z (2 ^ Z.of_nat n))]).
    rewrite !posts_of_app, !sleeps_of_app, Hp, Hs. split; reflexivity.
  - split; reflexivity.
Qed.

(** X8. For every [max_retries >= 0], an endpoint that answers every POST
    with an error status, and a backoff [b] whose sleeps
    [b * 2^0, ..., b * 2^(max_retries - 1)] all return, give
    [max_retries + 1] POSTs with exactly those sleeps, and the call ends
    by re-raising the [HTTPError] of the last response. Sleeps that all
    return leave room for at most 1024 retries, and for a non-negative
    backoff only. *)
Lemma permanent_failure_attempts (clock : Clock) (ep : nat -> outcome)
      (project location model token : string) (payload : json)
      (max_retries : Z) (b : Q) :
  0 <= max_retries ->
  (forall n, exists r, http_failure (ep n) r) ->
  (forall i, 0 <= i < max_retries -> sleep_returns b i = true) ->
  let run := call_virtual_try_on ep project location model token payload
                                 max_retries b in
  max_retries <= 1024 /\ (1 <= max_retries -> (0 <= b)%Q) /\
  posts_of (snd run) = Z.to_nat (max_retries + 1) /\
  sleeps_of (snd run)
  = map (fun i => (b * inject_Z (2 ^ i))%Q) (range max_retries) /\
  exists r, http_failure (ep (Z.to_nat max_retries)) r /\
            fst run = Raise (HTTPError r).
Proof.
  intros Hmr Hfail Hsleep run.
  split.
  { destruct (Z_le_gt_dec max_retries 1024) as [H | H]; [exact H |].
    destruct (sleep_returns_bounds clock b 1024 ltac:(lia)
                (Hsleep 1024 ltac:(lia))).
    lia. }
  split.
  { intros H1.
    now destruct (sleep_returns_bounds clock b 0 ltac:(lia)
                    (Hsleep 0 ltac:(lia))). }
  subst run. unfold call_virtual_try_on, range.
  set (rq := mkRequest _ _ _ _).
  replace (Z.to_nat (max_retries + 1)) with (Z.to_nat max_retries + 1)%nat by lia.
  destruct (retry_loop_after_failures clock ep rq max_retries b
              (Z.to_nat max_retries) 0 1 None) as [last' ->];
    [intros i _; apply Hfail | intros i Hi; apply Hsleep; lia | lia |].
  cbn [Nat.add seq map retry_loop fst snd].
  destruct (Hfail (Z.to_nat max_retries)) as [r [Er Or]].
  rewrite Er, (ok_false_raises _ Or).
  replace (max_retries <=? Z.of_nat (Z.to_nat max_retries)) with true
    by (symmetry; apply Z.leb_le; lia).
  cbn [fst snd].
  destruct (retried_attempts_counts ep rq b (Z.to_nat max_retries) 0) as [Hp Hs].
  destruct (report_quiet r) as [Rp Rs].
  change (EPost rq :: report r) with ([EPost rq] ++ report r).
  rewrite !posts_of_app, !sleeps_of_app, Hp, Hs, Rp, Rs.
  split; [cbn; lia |]. split.
  - cbn [sleeps_of app]. now rewrite app_nil_r, map_map.
  - exists r. split; [split; [reflexivity | assumption] | reflexivity].
Qed.

(** * Properties of the compositor *)

Import ApiApp.

(** ** Comparisons on floats *)

Lemma Qltb_true (a b : Q) : Qltb a b = true -> (a < b)%Q.
Proof.
  unfold Qltb. intros H. apply negb_true_iff in H.
  apply Qnot_le_lt. intros Hle. apply Qle_bool_iff in Hle. congruence.
Qed.

Lemma Qltb_false (a b : Q) : Qltb a b = false -> (b <= a)%Q.
Proof.
  unfold Qltb. intros H. apply negb_false_iff in H. now apply Qle_bool_iff.
Qed.

Lemma py_div_pos (a b : Q) : (0 < b)%Q -> py_div a b = inr (a / b)%Q.
Proof.
  intros Hb. unfold py_div.
  destruct (Qeq_bool b 0) eqn:E; [| reflexivity].
  apply Qeq_bool_iff in E. rewrite E in Hb. now apply Qlt_irrefl in Hb.
Qed.

(** The clamp [max(0.85, min(1.15, x))] lands in [0.85, 1.15]. *)
Lemma clamp_bounds (x : Q) :
  (0.85 <= py_max 0.85 (py_min 1.15 x))%Q /\ (py_max 0.85 (py_min 1.15 x) <= 1.15)%Q.
Proof.
  unfold py_max, py_min.
  destruct (Qltb x 1.15) eqn:Hmin.
  - apply Qltb_true in Hmin.
    destruct (Qltb 0.85 x) eqn:Hmax.
    + apply Qltb_true in Hmax. split; now apply Qlt_le_weak.
    + split; [apply Qle_refl | discriminate].
  - destruct (Qltb 0.85 1.15) eqn:Hmax.
    + split; [discriminate | apply Qle_refl].
    + discriminate Hmax.
Qed.

(** ** The alpha rule *)

Lemma snap_snap (a : Z) : snap (snap a) = snap a.
Proof.
  unfold snap. destruct (200 <? a) eqn:E; [reflexivity | now rewrite E].
Qed.

Lemma snap_range (a : Z) : 0 <= a <= 255 -> 0 <= snap a <= 255.
Proof. unfold snap. destruct (200 <? a); lia. Qed.

Lemma snap_ge (a : Z) : 0 <= a <= 255 -> a <= snap a.
Proof. unfold snap. destruct (200 <? a) eqn:E; lia. Qed.

(** A table built by [point] answers like the function on 8-bit values. *)
Lemma lookup_lut (f : Z -> Z) (v : Z) : 0 <= v <= 255 -> lookup (lut f) v = f v.
Proof.
  intros Hv. unfold lookup, lut, range.
  change (Z.to_nat 256) with 256%nat.
  rewrite nth_indep with (d' := f 0%Z)
    by (rewrite !length_map, length_seq; lia).
  rewrite map_nth, nth_indep with (d' := Z.of_nat 0)
    by (rewrite length_map, length_seq; lia).
  rewrite map_nth, seq_nth by lia. f_equal. lia.
Qed.

Lemma map_lookup_snap (vs : list Z) :
  Forall (fun v => 0 <= v <= 255) vs ->
  map (lookup (lut snap)) vs = map snap vs.
Proof.
  induction 1 as [| v vs Hv _ IH]; [reflexivity |].
  simpl. now rewrite IH, lookup_lut.
Qed.

Lemma set_alphas_twice (ps : list pixel) (vs ws : list Z) :
  List.length vs = List.length ps -> List.length ws = List.length ps ->
  set_alphas (set_alphas ps vs) ws = set_alphas ps ws.
Proof.
  revert vs ws. induction ps as [| p ps IH]; intros [| v vs] [| w ws];
    simpl; try discriminate; try reflexivity.
  intros Hv Hw. f_equal. apply IH; lia.
Qed.

Lemma alpha_set_alphas (ps : list pixel) (vs : list Z) :
  List.length vs = List.length ps -> map alpha (set_alphas ps vs) = vs.
Proof.
  revert vs. induction ps as [| p ps IH]; intros [| v vs];
    simpl; try discriminate; try reflexivity.
  intros Hv. f_equal. apply IH. lia.
Qed.

Lemma size_eqb_refl (s : Z * Z) : size_eqb s s = true.
Proof. unfold size_eqb. now rewrite !Z.eqb_refl. Qed.

(** What [edge_cleanup] computes on an RGBA image. *)
Lemma edge_cleanup_run (fg : image) (log : list op) :
  mode fg = RGBA ->
  edge_cleanup fg log =
  (inr (mkImage RGBA (width fg) (height fg)
                (set_alphas (data fg) (map (lookup (lut snap)) (map alpha (data fg))))),
   ((log ++ [OpSplit]) ++ [OpPoint]) ++ [OpPutalpha]).
Proof.
  intros Hm. unfold edge_cleanup, bind, last_band, point, putalpha, call.
  cbn [band_width band_height values size]. rewrite Hm.
  unfold size. cbn [width height]. now rewrite size_eqb_refl.
Qed.

(** C6. The alpha rule is idempotent: [snap (snap a) = snap a] for every
    8-bit alpha [a], and cleaning the edges of an RGBA subject twice
    yields the very image one cleanup yields. *)
Theorem edge_cleanup_idempotent (a : Z) (fg : image) :
  0 <= a <= 255 ->
  mode fg = RGBA ->
  Forall (fun p => 0 <= alpha p <= 255) (data fg) ->
  snap (snap a) = snap a /\
  fst (run (fg1 <- edge_cleanup fg ;; edge_cleanup fg1))
  = fst (run (edge_cleanup fg)) /\
  exists fg1, fst (run (edge_cleanup fg)) = inr fg1 /\
              map alpha (data fg1) = map snap (map alpha (data fg)).
Proof.
  intros _ Hm Hrange.
  assert (Hvals : Forall (fun v => 0 <= v <= 255) (map alpha (data fg))).
  { apply Forall_map. exact Hrange. }
  split; [apply snap_snap |].
  unfold run, bind. rewrite (edge_cleanup_run fg [] Hm).
  rewrite edge_cleanup_run by reflexivity.
  cbn [fst width height data].
  rewrite !map_lookup_snap by assumption.
  rewrite alpha_set_alphas by now rewrite !length_map.
  rewrite map_lookup_snap by (apply Forall_map; revert Hvals; apply Forall_impl;
                              intros v Hv; now apply snap_range).
  rewrite set_alphas_twice by now rewrite !length_map.
  split.
  - do 3 f_equal. rewrite (map_map snap snap). apply map_ext. intros v.
    apply snap_snap.
  - eexists. split; [reflexivity |]. cbn [data].
    apply alpha_set_alphas. now rewrite !length_map.
Qed.

Lemma edge_cleanup_idempotent_witness :
  snap (snap 201) = snap 201 /\
  fst (run (fg1 <- edge_cleanup sample_cutout ;; edge_cleanup fg1))
  = fst (run (edge_cleanup sample_cutout)) /\
  exists fg1, fst (run (edge_cleanup sample_cutout)) = inr fg1 /\
              map alpha (data fg1) = map snap (map alpha (data sample_cutout)).
Proof.
  apply (edge_cleanup_idempotent 201 sample_cutout).
  - lia.
  - reflexivity.
  - repeat constructor; simpl; lia.
Defined.

Lemma set_alphas_colours (ps : list pixel) (vs : list Z) :
  Forall2 (fun p q => red q = red p /\ green q = green p /\ blue q = blue p)
          ps (set_alphas ps vs).
Proof.
  revert vs. induction ps as [| p ps IH]; intros vs; [constructor |].
  destruct vs as [| v vs]; simpl.
  - constructor; [auto |]. clear. induction ps; constructor; auto.
  - constructor; [auto | apply IH].
Qed.

(** C9. Edge cleanup never lowers opacity: [a <= snap a] on 8-bit alphas
    and [snap 0 = 0]; on an RGBA subject every pixel keeps its colour,
    gets an alpha at least as large, and a fully transparent pixel stays
    fully transparent. *)
Theorem edge_cleanup_never_lowers_alpha (a : Z) (fg : image) :
  0 <= a <= 255 ->
  mode fg = RGBA ->
  Forall (fun p => 0 <= alpha p <= 255) (data fg) ->
  a <= snap a /\ snap 0 = 0 /\
  exists fg1,
    fst (run (edge_cleanup fg)) = inr fg1 /\
    size fg1 = size fg /\
    Forall2 (fun p q => alpha p <= alpha q /\ (alpha p = 0 -> alpha q = 0) /\
                        red q = red p /\ green q = green p /\ blue q = blue p)
            (data fg) (data fg1).
Proof.
  intros Ha Hm Hrange.
  split; [now apply snap_ge |]. split; [reflexivity |].
  unfold run. rewrite (edge_cleanup_run fg [] Hm). cbn [fst].
  eexists. split; [reflexivity |]. split; [reflexivity |]. cbn [data].
  rewrite map_lookup_snap by (apply Forall_map; exact Hrange).
  clear Hm. induction Hrange as [| p ps Hp _ IH]; [constructor |].
  simpl. constructor; [| exact IH]. cbn [alpha red green blue].
  repeat split; [now apply snap_ge |].
  intros ->. reflexivity.
Qed.

Lemma edge_cleanup_never_lowers_alpha_witness :
  200 <= snap 200 /\ snap 0 = 0 /\
  exists fg1,
    fst (run (edge_cleanup sample_cutout)) = inr fg1 /\
    size fg1 = size sample_cutout /\
    Forall2 (fun p q => alpha p <= alpha q /\ (alpha p = 0 -> alpha q = 0) /\
                        red q = red p /\ green q = green p /\ blue q = blue p)
            (data sample_cutout) (data fg1).
Proof.
  apply (edge_cleanup_never_lowers_alpha 200 sample_cutout).
  - lia.
  - reflexivity.
  - repeat constructor; simpl; lia.
Defined.

(** C5. Luminance matching never divides by zero and never applies a
    factor outside [0.85, 1.15]: for every pair of luminances the factor
    is computed only under the guard [fg_luma > 0] and is then clamped;
    when the guard fails there is no factor. And [match_luminance] does
    just that with the luminances it measures of the background and the
    subject: when the subject's is positive it enhances the subject
    once, by the clamped ratio of the two; when it is not, it makes no
    [enhance] call and hands the subject back unchanged. It never
    raises. *)
Theorem luminance_factor_guarded_and_clamped (pillow : Pillow)
        (bg_luma fg_luma : Q) (bg fg : image) :
  match brightness_factor bg_luma fg_luma with
  | inl _ => False
  | inr (Some factor) =>
      (0 < fg_luma)%Q /\ factor = py_max 0.85 (py_min 1.15 (bg_luma / fg_luma))
      /\ (0.85 <= factor)%Q /\ (factor <= 1.15)%Q
  | inr None => (fg_luma <= 0)%Q
  end
  /\ let measured := luminances (grayscale_1x1 bg) (grayscale_1x1 fg) in
     match Qlt_le_dec 0 (snd measured) with
     | left _ =>
         exists factor,
           factor = py_max 0.85 (py_min 1.15 (fst measured / snd measured)) /\
           (0.85 <= factor)%Q /\ (factor <= 1.15)%Q /\
           run (match_luminance bg fg)
           = (inr (mkImage (mode fg) (width fg) (height fg)
                           (brightness factor fg)),
              [OpGrayscale; OpGrayscale; OpEnhance factor])
     | right _ =>
         run (match_luminance bg fg) = (inr fg, [OpGrayscale; OpGrayscale])
     end.
Proof.
  assert (Hfactor : forall b f,
             match brightness_factor b f with
             | inl _ => False
             | inr (Some factor) =>
                 (0 < f)%Q /\ factor = py_max 0.85 (py_min 1.15 (b / f))
                 /\ (0.85 <= factor)%Q /\ (factor <= 1.15)%Q
             | inr None => (f <= 0)%Q
             end).
  { intros b f. unfold brightness_factor.
    destruct (Qltb 0 f) eqn:Hguard.
    - apply Qltb_true in Hguard. rewrite py_div_pos by assumption.
      split; [assumption |]. split; [reflexivity |]. apply clamp_bounds.
    - now apply Qltb_false. }
  split; [apply Hfactor |].
  cbv zeta.
  unfold run, match_luminance, bind, luma, call. cbn [app].
  destruct (luminances (grayscale_1x1 bg) (grayscale_1x1 fg)) as [b f].
  cbn [fst snd].
  specialize (Hfactor b f).
  destruct (Qlt_le_dec 0 f) as [Hpos | Hneg].
  - destruct (brightness_factor b f) as [e | [factor |]].
    + destruct Hfactor.
    + destruct Hfactor as (_ & Hf & Hlo & Hhi).
      exists factor. unfold enhance, call. cbn [app]. auto.
    + exfalso. exact (Qlt_not_le _ _ Hpos Hfactor).
  - destruct (brightness_factor b f) as [e | [factor |]].
    + destruct Hfactor.
    + destruct Hfactor as (Hpos & _). exfalso. exact (Qlt_not_le _ _ Hpos Hneg).
    + reflexivity.
Qed.

(** A subject of luminance 0: the guard fails, nothing is divided and the
    subject comes back as it was. *)
Example dark_subject_left_unchanged :
  run (@match_luminance dark_pillow sample_scene sample_cutout)
  = (inr sample_cutout, [OpGrayscale; OpGrayscale]).
Proof. reflexivity. Qed.

(** ** Sizes *)

Lemma size_eqb_true (a b : Z * Z) : size_eqb a b = true -> a = b.
Proof.
  destruct a, b. unfold size_eqb. simpl. intros H.
  apply andb_true_iff in H. destruct H as [H1 H2].
  apply Z.eqb_eq in H1, H2. congruence.
Qed.

Lemma Qltb_ge (a b : Q) : (b <= a)%Q -> Qltb a b = false.
Proof.
  intros H. unfold Qltb. apply negb_false_iff. now apply Qle_bool_iff.
Qed.

Lemma box_error_none (im : image) (box : Q * Q * Q * Q) :
  box_within im box -> box_error im box = None.
Proof.
  destruct box as [[[x0 y0] x1] y1]. unfold box_within, box_error.
  intros (H0 & H1 & H2 & H3 & H4 & H5).
  rewrite !Qltb_ge; try assumption; try reflexivity.
  - apply Qle_minus_iff in H5. exact H5.
  - apply Qle_minus_iff in H4. exact H4.
Qed.

Lemma whole_within (im : image) :
  0 <= width im -> 0 <= height im -> box_within im (whole im).
Proof.
  intros HW HH. unfold box_within, whole.
  rewrite Zle_Qle in HW, HH.
  repeat split; try apply Qle_refl; assumption.
Qed.

(** A resize to a target with both sides at least 1, from a box within
    the image, succeeds, and yields exactly the target size in the mode
    of its input. *)
Lemma resize_box_ok (pillow : Pillow) (im : image) (target : Z * Z)
      (f : resampling) (box : Q * Q * Q * Q) :
  1 <= fst target -> 1 <= snd target -> box_within im box ->
  exists out, resize_box im target f box = inr out /\
              size out = target /\ mode out = mode im.
Proof.
  intros H1 H2 Hbox. unfold resize_box. rewrite (box_error_none _ _ Hbox).
  destruct (size_eqb (size im) target && box_eqb box (whole im)) eqn:Ecopy.
  - apply andb_true_iff in Ecopy. destruct Ecopy as [Es _].
    apply size_eqb_true in Es. eauto.
  - replace (fst target <? 1) with false by (symmetry; apply Z.ltb_ge; lia).
    replace (snd target <? 1) with false by (symmetry; apply Z.ltb_ge; lia).
    simpl. eexists. split; [reflexivity |]. destruct target. auto.
Qed.

Lemma inject_Z_pos (z : Z) : 0 < z -> (0 < inject_Z z)%Q.
Proof. intros H. rewrite Zlt_Qlt in H. exact H. Qed.

Lemma inject_Z_nonzero (z : Z) : 0 < z -> ~ (inject_Z z == 0)%Q.
Proof.
  intros H E. apply inject_Z_pos in H. rewrite E in H.
  now apply Qlt_irrefl in H.
Qed.

(** Comparing two ratios of integers. *)
Lemma Qdiv_Z_le (a b c d : Z) :
  0 < b -> 0 < d ->
  ((inject_Z a / inject_Z b <= inject_Z c / inject_Z d)%Q <-> a * d <= c * b).
Proof.
  intros Hb Hd.
  destruct b as [| b | b]; try lia. destruct d as [| d | d]; try lia.
  unfold Qle, Qdiv, Qmult, Qinv, inject_Z. simpl. lia.
Qed.

(** Floor and ceiling of a ratio of positive integers, in integers. *)
Lemma floor_ceiling_ratio (q : Q) (n d : Z) :
  0 < d -> (q == inject_Z n / inject_Z d)%Q ->
  Qfloor q * d <= n < (Qfloor q + 1) * d /\
  (Qceiling q - 1) * d < n <= Qceiling q * d.
Proof.
  intros Hd Hq.
  assert (Hlo : Qfloor q = n / d).
  { rewrite (Qfloor_comp _ _ Hq). symmetry. apply Zdiv_Qdiv. }
  assert (Hhi : Qceiling q = - ((- n) / d)).
  { unfold Qceiling. f_equal.
    rewrite (Zdiv_Qdiv (- n) d). apply Qfloor_comp.
    rewrite Hq, inject_Z_opp. unfold Qdiv. ring. }
  rewrite Hlo, Hhi.
  pose proof (Z.mul_div_le n d Hd). pose proof (Z.mul_succ_div_gt n d Hd).
  pose proof (Z.mul_div_le (- n) d Hd).
  pose proof (Z.mul_succ_div_gt (- n) d Hd).
  nia.
Qed.

(** [round_aspect] of a positive ratio [n / d]: at least 1, and within
    one unit of the ratio. *)
Lemma round_aspect_spec (q : Q) (key : Z -> Q) (n d : Z) :
  0 < n -> 0 < d -> (q == inject_Z n / inject_Z d)%Q ->
  1 <= round_aspect q key /\
  Z.abs (round_aspect q key * d - n) < d /\
  (round_aspect q key - 1) * d < n.
Proof.
  intros Hn Hd Hq.
  destruct (floor_ceiling_ratio q n d Hd Hq) as [Hlo Hhi].
  unfold round_aspect.
  destruct (Qltb (key (Qceiling q)) (key (Qfloor q)));
    [set (c := Qceiling q) in * | set (c := Qfloor q) in *];
    destruct (Z.max_spec c 1) as [[Hc ->] | [Hc ->]]; nia.
Qed.

(** The size [thumbnail] settles on for a square box of side [m]. *)
Lemma preserve_aspect_ratio_spec (im : image) (m : Z) :
  0 < width im -> 0 < height im -> 0 < m ->
  match preserve_aspect_ratio im (m, m) with
  | inl _ => False
  | inr None => width im <= m /\ height im <= m
  | inr (Some (x, y)) =>
      1 <= x <= Z.min (width im) m /\ 1 <= y <= Z.min (height im) m /\
      Z.abs (x * height im - y * width im) < Z.max (width im) (height im)
  end.
Proof.
  intros HW HH Hm. unfold preserve_aspect_ratio.
  destruct ((width im <=? m) && (height im <=? m)) eqn:Efits.
  - apply andb_true_iff in Efits. destruct Efits as [E1 E2].
    apply Z.leb_le in E1, E2. auto.
  - rewrite !py_div_pos by now apply inject_Z_pos.
    assert (Hbig : m < width im \/ m < height im).
    { apply andb_false_iff in Efits.
      destruct Efits as [E | E]; apply Z.leb_gt in E; auto. }
    destruct (Qle_bool (inject_Z (width im) / inject_Z (height im))
                       (inject_Z m / inject_Z m)) eqn:Ebranch.
    + apply Qle_bool_iff in Ebranch.
      apply (Qdiv_Z_le (width im) (height im) m m) in Ebranch; try assumption.
      assert (Hle : width im <= height im) by nia.
      destruct (round_aspect_spec
                  (inject_Z m * (inject_Z (width im) / inject_Z (height im)))
                  (fun n => Qabs (inject_Z (width im) / inject_Z (height im)
                                  - inject_Z n / inject_Z m))
                  (m * width im) (height im)) as (R1 & R2 & R3);
        [nia | assumption | rewrite inject_Z_mult; unfold Qdiv; ring |].
      set (x := round_aspect _ _) in *. nia.
    + assert (Hgt : m * height im < m * width im).
      { apply Z.nle_gt. intros Hle.
        assert (Hq : Qle_bool (inject_Z (width im) / inject_Z (height im))
                              (inject_Z m / inject_Z m) = true).
        { apply Qle_bool_iff.
          apply (Qdiv_Z_le (width im) (height im) m m); try assumption. lia. }
        congruence. }
      rewrite py_div_pos.
      2:{ apply Qlt_shift_div_l; [now apply inject_Z_pos |].
          rewrite Qmult_0_l. now apply inject_Z_pos. }
      destruct (round_aspect_spec
                  (inject_Z m / (inject_Z (width im) / inject_Z (height im)))
                  (fun n => if n =? 0 then 0%Q
                            else Qabs (inject_Z (width im) / inject_Z (height im)
                                       - inject_Z m / inject_Z n))
                  (m * height im) (width im)) as (R1 & R2 & R3);
        [nia | assumption | |].
      * rewrite inject_Z_mult. field.
        split; now apply inject_Z_nonzero.
      * assert (Hlt : height im < width im) by nia.
        set (y := round_aspect _ _) in *. nia.
Qed.

(** C10. [resize_and_encode] never upscales. For a decodable image with
    positive sides and a positive [max_dim], the call succeeds with a JPEG
    (quality 90) of an RGB image whose width and height are at least 1,
    at most the input's, and at most [max_dim]; the aspect ratio is kept
    up to the rounding to whole pixels: the scaled side is within one
    pixel of the exactly proportional one. *)
Theorem resize_and_encode_never_upscales (pillow : Pillow)
        (fmt : image_format) (im : image) (max_dim : Z) :
  0 < width im -> 0 < height im -> 0 < max_dim ->
  exists out,
    run (resize_and_encode (Encoded fmt im) max_dim)
    = (inr (Encoded (JPEG 90 true) out),
       [OpOpen; OpConvert RGB; OpThumbnail (max_dim, max_dim);
        OpSave (JPEG 90 true)]) /\
    mode out = RGB /\
    1 <= width out <= Z.min (width im) max_dim /\
    1 <= height out <= Z.min (height im) max_dim /\
    Z.abs (width out * height im - height out * width im)
    < Z.max (width im) (height im).
Proof.
  intros HW HH Hm.
  unfold run, resize_and_encode, bind, Image_open, convert_RGB, thumbnail, call.
  cbn [app].
  set (im1 := mkImage RGB (width im) (height im) (map opaque (data im))).
  pose proof (preserve_aspect_ratio_spec im1 max_dim HW HH Hm) as Hspec.
  destruct (preserve_aspect_ratio im1 (max_dim, max_dim))
    as [e | [[x y] |]]; [contradiction | |].
  - cbn [width height im1] in Hspec. destruct Hspec as (Hx & Hy & Hratio).
    destruct (size_eqb (size im1) (x, y)) eqn:Esame.
    + apply size_eqb_true in Esame. injection Esame as <- <-.
      exists im1. unfold save, call. cbn. repeat split; lia.
    + destruct (resize_box_ok pillow im1 (x, y) BICUBIC (whole im1))
        as (out & -> & Hsize & Hmode);
        [simpl; lia | simpl; lia | apply whole_within; simpl; lia |].
      exists out. unfold save, call. rewrite Hmode. cbn [mode im1 app].
      injection Hsize as Hw Hh. rewrite Hw, Hh.
      repeat split; lia.
  - exists im1. unfold save, call. cbn. cbn in Hspec. repeat split; lia.
Qed.

Lemma resize_and_encode_never_upscales_witness :
  exists out,
    run (@resize_and_encode flat_pillow (Encoded PNG sample_subject) 6)
    = (inr (Encoded (JPEG 90 true) out),
       [OpOpen; OpConvert RGB; OpThumbnail (6, 6); OpSave (JPEG 90 true)]) /\
    mode out = RGB /\
    1 <= width out <= Z.min (width sample_subject) 6 /\
    1 <= height out <= Z.min (height sample_subject) 6 /\
    Z.abs (width out * height sample_subject - height out * width sample_subject)
    < Z.max (width sample_subject) (height sample_subject).
Proof.
  apply (resize_and_encode_never_upscales flat_pillow PNG sample_subject 6);
    reflexivity.
Defined.

(** ** The pipeline *)

Lemma bind_ok {A B : Type} (m : M A) (k : A -> M B) (log log' : list op) (a : A) :
  m log = (inr a, log') -> bind m k log = k a log'.
Proof. unfold bind. now intros ->. Qed.

Lemma bind_call_inr {A B : Type} (o : op) (a : A) (k : A -> M B) (log : list op) :
  bind (call o (inr a)) k log = k a (log ++ [o]).
Proof. reflexivity. Qed.

Lemma new_ok (pillow : Pillow) (m : image_mode) (target : Z * Z) (color : pixel)
      (log : list op) :
  0 <= fst target -> 0 <= snd target ->
  new m target color log =
  (inr (mkImage m (fst target) (snd target)
                (repeat color (Z.to_nat (fst target * snd target)))),
   log ++ [OpNew target]).
Proof.
  intros H1 H2. unfold new, call.
  replace (fst target <? 0) with false by (symmetry; apply Z.ltb_ge; lia).
  replace (snd target <? 0) with false by (symmetry; apply Z.ltb_ge; lia).
  reflexivity.
Qed.

(** [int(side * n/d)] for a non-negative side and factor. *)
Lemma scaled_eq (side n : Z) (d : positive) :
  0 <= side -> 0 <= n -> scaled side (n # d) = (side * n) / Z.pos d.
Proof.
  intros Hs Hn. unfold scaled, py_int, Qltb, Qle_bool, Qmult, inject_Z.
  cbn [Qnum Qden].
  replace (0 * Z.pos (1 * d) <=? side * n * 1) with true
    by (symmetry; apply Z.leb_le; nia).
  cbn [negb Qfloor]. f_equal.
Qed.

Lemma zoomed_side (side : Z) : 0 < side -> 1 <= side * 135 / 100.
Proof. intros H. apply Z.div_le_lower_bound; lia. Qed.

Lemma shrunk_side (side : Z) : 2 <= side -> 1 <= side * 78 / 100 <= side.
Proof.
  intros H. split.
  - apply Z.div_le_lower_bound; lia.
  - apply Z.div_le_upper_bound; lia.
Qed.

Lemma resize_ok (pillow : Pillow) (im : image) (target : Z * Z)
      (f : resampling) (log : list op) :
  0 <= width im -> 0 <= height im ->
  1 <= fst target -> 1 <= snd target ->
  exists out, resize im target f log = (inr out, log ++ [OpResize target]) /\
              size out = target /\ mode out = mode im.
Proof.
  intros HW HH H1 H2. unfold resize, call.
  destruct (resize_box_ok pillow im target f (whole im) H1 H2
                          (whole_within im HW HH))
    as (out & -> & Hs & Hm).
  eauto.
Qed.

Lemma ratio_pos (a b : Q) : (0 < a)%Q -> (0 < b)%Q -> (0 < a / b)%Q.
Proof.
  intros Ha Hb. apply Qlt_shift_div_l; [assumption |]. now rewrite Qmult_0_l.
Qed.

(** The crop [fit] computes lies within the image. *)
Lemma fit_crop_ok (im : image) (target : Z * Z) :
  0 < width im -> 0 < height im -> 0 < fst target -> 0 < snd target ->
  exists crop, fit_crop im target = inr crop /\ box_within im crop.
Proof.
  intros HW HH Hw Hh. unfold fit_crop.
  rewrite !py_div_pos by now apply inject_Z_pos.
  apply inject_Z_pos in HW, HH, Hw, Hh.
  assert (Hr : (0 < inject_Z (fst target) / inject_Z (snd target))%Q)
    by now apply ratio_pos.
  unfold box_within. revert HW HH Hr.
  generalize (inject_Z (width im)) as W, (inject_Z (height im)) as H,
             (inject_Z (fst target) / inject_Z (snd target))%Q as r.
  intros W H r HW HH Hr.
  destruct (Qeq_bool (W / H) r) eqn:Eeq.
  - eexists. split; [reflexivity |]. repeat split; lra.
  - destruct (Qle_bool r (W / H)) eqn:Ewide.
    + apply Qle_bool_iff in Ewide.
      assert (F : (r * H <= W)%Q).
      { apply (Qmult_le_compat_r _ _ H) in Ewide; [| lra].
        setoid_replace (W / H * H)%Q with W in Ewide; [exact Ewide |].
        field. lra. }
      assert (F0 : (0 < r * H)%Q) by now apply Qmult_lt_0_compat.
      eexists. split; [reflexivity |].
      set (cw := (r * H)%Q) in *. repeat split; lra.
    + assert (Etall : (W / H < r)%Q).
      { apply Qnot_le_lt. intros Hle. apply Qle_bool_iff in Hle. congruence. }
      rewrite py_div_pos by assumption.
      assert (F : (W / r <= H)%Q).
      { apply Qle_shift_div_r; [assumption |].
        apply (Qmult_lt_compat_r _ _ H) in Etall; [| assumption].
        setoid_replace (W / H * H)%Q with W in Etall; [| field; lra].
        rewrite (Qmult_comm H r). lra. }
      assert (F0 : (0 < W / r)%Q) by now apply ratio_pos.
      eexists. split; [reflexivity |].
      set (ch := (W / r)%Q) in *. repeat split; lra.
Qed.

Lemma fit_ok (pillow : Pillow) (im : image) (target : Z * Z)
      (f : resampling) (log : list op) :
  0 < width im -> 0 < height im -> 1 <= fst target -> 1 <= snd target ->
  exists out, fit im target f log = (inr out, log ++ [OpFit target]) /\
              size out = target /\ mode out = mode im.
Proof.
  intros HW HH Hw Hh. unfold fit, call.
  destruct (fit_crop_ok im target) as (crop & -> & Hcrop); try lia.
  destruct (resize_box_ok pillow im target f crop Hw Hh Hcrop)
    as (out & -> & Hs & Hm).
  eauto.
Qed.

(** Luminance matching always succeeds, keeps size and mode of the
    subject, and only adds to the log. *)
Lemma match_luminance_ok (pillow : Pillow) (bg fg : image) (log : list op) :
  exists fg' extra,
    match_luminance bg fg log = (inr fg', log ++ extra) /\
    size fg' = size fg /\ mode fg' = mode fg.
Proof.
  unfold match_luminance, bind, luma, call.
  destruct (luminances (grayscale_1x1 bg) (grayscale_1x1 fg)) as [b f].
  unfold brightness_factor.
  destruct (Qltb 0 f) eqn:Hguard.
  - apply Qltb_true in Hguard. rewrite py_div_pos by assumption.
    unfold enhance, call. eexists. eexists.
    rewrite <- !app_assoc. split; [reflexivity |]. split; reflexivity.
  - unfold ret. exists fg. eexists.
    rewrite <- !app_assoc. split; [reflexivity |]. split; reflexivity.
Qed.

(** The placement phase on an RGBA background with positive sides and an
    RGBA cutout at least two pixels wide and high: it succeeds, fits the
    background to the cutout's size, and returns a JPEG of an RGB image of
    exactly that size. *)
Lemma place_on_background_ok (pillow : Pillow) (background foreground : image)
      (log : list op) :
  mode background = RGBA -> mode foreground = RGBA ->
  0 < width background -> 0 < height background ->
  2 <= width foreground -> 2 <= height foreground ->
  exists out extra,
    place_on_background background foreground log
    = (inr (Encoded (JPEG 92 true) out), log ++ extra) /\
    size out = size foreground /\ mode out = RGB /\
    In (OpFit (size foreground)) extra.
Proof.
  intros Hmb Hmf HWb HHb HWf HHf. unfold place_on_background.
  change 1.35%Q with (135 # 100). change 0.78%Q with (78 # 100).
  rewrite !scaled_eq by lia.
  pose proof (zoomed_side _ HWb) as Zw. pose proof (zoomed_side _ HHb) as Zh.
  pose proof (shrunk_side _ HWf) as Sw. pose proof (shrunk_side _ HHf) as Sh.
  (* the zoomed background *)
  destruct (resize_ok pillow background
              (width background * 135 / 100, height background * 135 / 100)
              LANCZOS log) as (bg_zoom & E1 & S1 & M1);
    [lia | lia | cbn [fst snd size]; lia | cbn [fst snd size]; lia |].
  rewrite (bind_ok _ _ _ _ _ E1). clear E1.
  injection S1 as W1 H1.
  (* the fitted background *)
  destruct (fit_ok pillow bg_zoom (size foreground) LANCZOS
              (log ++ [OpResize (width background * 135 / 100,
                                 height background * 135 / 100)]))
    as (bg & E2 & S2 & M2); [lia | lia | cbn [fst snd size]; lia | cbn [fst snd size]; lia |].
  rewrite (bind_ok _ _ _ _ _ E2). clear E2.
  injection S2 as W2 H2.
  (* the scaled subject *)
  match goal with
  | |- context [bind (resize foreground ?t LANCZOS) _ ?l] =>
      destruct (resize_ok pillow foreground t LANCZOS l)
        as (fg & E3 & S3 & M3);
        [lia | lia | cbn [fst snd size]; lia | cbn [fst snd size]; lia |];
      rewrite (bind_ok _ _ _ _ _ E3); clear E3
  end.
  injection S3 as W3 H3.
  (* edge cleanup *)
  rewrite (bind_ok _ _ _ _ _ (edge_cleanup_run fg _ (eq_trans M3 Hmf))).
  cbn [width height size].
  (* shadow *)
  match goal with
  | |- context [bind (new RGBA ?t ?c) _ ?l] =>
      rewrite (bind_ok _ _ _ _ _ (new_ok pillow RGBA t c l
                                         ltac:(unfold size; cbn [fst snd width height]; lia)
                                         ltac:(unfold size; cbn [fst snd width height]; lia)))
  end.
  unfold ellipse, GaussianBlur. rewrite !bind_call_inr.
  (* luminance matching *)
  match goal with
  | |- context [bind (match_luminance bg ?f) _ ?l] =>
      destruct (match_luminance_ok pillow bg f l)
        as (fg' & extra & E4 & S4 & M4);
      rewrite (bind_ok _ _ _ _ _ E4); clear E4
  end.
  (* blending and encoding *)
  unfold alpha_composite, convert_RGB, save, bind, call.
  rewrite M2, M1, Hmb, M4. cbn [mode width height].
  eexists. eexists. split.
  - rewrite <- !app_assoc. reflexivity.
  - cbn [size width height mode]. rewrite W2, H2.
    split; [reflexivity |]. split; [reflexivity |].
    rewrite !in_app_iff. simpl. tauto.
Qed.

(** A cutout in a supported representation becomes an RGBA image of the
    same size; only decoding calls are logged. *)
Lemma cutout_image_ok (cutout : cutout_result) (cut : image) (log : list op) :
  cutout_as_image cutout = Some cut ->
  exists extra,
    cutout_image cutout log
    = (inr (mkImage RGBA (width cut) (height cut) (data cut)), log ++ extra).
Proof.
  destruct cutout as [[fmt im | raw] | im | [im |] | name]; simpl;
    intros H; try discriminate; injection H as ->.
  - exists [OpOpen; OpConvert RGBA].
    unfold bind, Image_open, convert_RGBA, call. now rewrite <- app_assoc.
  - exists [OpConvert RGBA]. reflexivity.
  - exists [OpFromArray; OpConvert RGBA].
    unfold bind, convert_RGBA, call. now rewrite <- app_assoc.
Qed.

(** The decoding and segmentation phase, when both inputs decode and the
    segmenter answers [cutout]. *)
Lemma segmentation_run (pillow : Pillow) (rembg : Rembg)
      (foreground_b64 background_b64 : encoded) (fg_im bg_im : image)
      (session : string) (cutout : cutout_result) :
  decoded foreground_b64 = Some fg_im ->
  decoded background_b64 = Some bg_im ->
  new_session "u2net" = inr session ->
  remove (Encoded PNG (mkImage RGBA (width fg_im) (height fg_im) (data fg_im)))
         session rembg_matting = inr cutout ->
  run (composite_on_background foreground_b64 background_b64)
  = bind (cutout_image cutout)
         (place_on_background
            (mkImage RGBA (width bg_im) (height bg_im) (data bg_im)))
         [OpOpen; OpConvert RGBA; OpOpen; OpConvert RGBA; OpSave PNG;
          OpNewSession "u2net"; OpRemove rembg_matting].
Proof.
  intros Hf Hb Hs Hr.
  destruct foreground_b64 as [ff fi | ]; [injection Hf as -> | discriminate].
  destruct background_b64 as [fb bi | ]; [injection Hb as -> | discriminate].
  unfold run, composite_on_background, Image_open, convert_RGBA, save.
  cbv beta iota.
  repeat (rewrite bind_call_inr; cbv beta iota; cbn [mode]).
  rewrite Hs, bind_call_inr. cbv beta. rewrite Hr, bind_call_inr.
  reflexivity.
Qed.

(** C3, as stated, fails: both inputs decode, yet for a cutout one pixel
    wide the call returns no image; scaling the subject to width
    [int(1 * 0.78) = 0] raises [ValueError]. *)
Lemma one_pixel_cutout_raises :
  decoded (Encoded PNG sliver_subject) = Some sliver_subject /\
  decoded (Encoded PNG sample_scene) = Some sample_scene /\
  cutout_as_image (CutImage sliver_cutout) = Some sliver_cutout /\
  fst (run (@composite_on_background flat_pillow
              (stub_rembg (CutImage sliver_cutout))
              (Encoded PNG sliver_subject) (Encoded PNG sample_scene)))
  = inl (ValueError "height and width must be > 0").
Proof. repeat split; vm_compute; reflexivity. Qed.

(** C3, amended. When both inputs decode, the background has positive
    sides and the segmenter returns a cutout, in a supported
    representation, at least two pixels wide and high, the call returns a
    JPEG of an RGB image whose size is exactly the cutout's, the size the
    zoomed background was fitted to. *)
Theorem composite_has_cutout_size (pillow : Pillow) (rembg : Rembg)
        (foreground_b64 background_b64 : encoded) (fg_im bg_im : image)
        (session : string) (cutout : cutout_result) (cut : image) :
  decoded foreground_b64 = Some fg_im ->
  decoded background_b64 = Some bg_im ->
  0 < width bg_im -> 0 < height bg_im ->
  new_session "u2net" = inr session ->
  remove (Encoded PNG (mkImage RGBA (width fg_im) (height fg_im) (data fg_im)))
         session rembg_matting = inr cutout ->
  cutout_as_image cutout = Some cut ->
  2 <= width cut -> 2 <= height cut ->
  exists out log,
    run (composite_on_background foreground_b64 background_b64)
    = (inr (Encoded (JPEG 92 true) out), log) /\
    size out = size cut /\ mode out = RGB /\
    In (OpFit (size cut)) log.
Proof.
  intros Hf Hb HW HH Hs Hr Hc Hw Hh.
  rewrite (segmentation_run pillow rembg _ _ _ _ _ _ Hf Hb Hs Hr).
  destruct (cutout_image_ok cutout cut
              [OpOpen; OpConvert RGBA; OpOpen; OpConvert RGBA; OpSave PNG;
               OpNewSession "u2net"; OpRemove rembg_matting] Hc)
    as [extra Ecut].
  rewrite (bind_ok _ _ _ _ _ Ecut).
  match goal with
  | |- context [place_on_background ?b ?f ?l] =>
      destruct (place_on_background_ok pillow b f l)
        as (out & extra' & -> & Hsize & Hmode & Hfit); try reflexivity;
        try assumption
  end.
  exists out. eexists. split; [reflexivity |].
  split; [exact Hsize |]. split; [exact Hmode |].
  apply in_or_app. right. exact Hfit.
Qed.

Lemma composite_has_cutout_size_witness :
  exists out log,
    run (@composite_on_background flat_pillow (stub_rembg (CutImage sample_cutout))
           (Encoded PNG sample_subject) (Encoded PNG sample_scene))
    = (inr (Encoded (JPEG 92 true) out), log) /\
    size out = size sample_cutout /\ mode out = RGB /\
    In (OpFit (size sample_cutout)) log.
Proof.
  apply (composite_has_cutout_size flat_pillow (stub_rembg (CutImage sample_cutout))
           (Encoded PNG sample_subject) (Encoded PNG sample_scene)
           sample_subject sample_scene "u2net" (CutImage sample_cutout)
           sample_cutout);
    reflexivity || (simpl; lia).
Defined.

(** C4. When both inputs decode and the segmenter returns a value that is
    neither bytes, nor an image, nor an array, the call raises the
    [TypeError] of line 152 right after the [remove] call: the log holds
    the two decodings, the PNG hand-off and the segmenter calls, and no
    fitting, scaling, cleanup, shadow, luminance or blending step, hence
    no in-place operation on any image. *)
Theorem unsupported_cutout_raises (pillow : Pillow) (rembg : Rembg)
        (foreground_b64 background_b64 : encoded) (fg_im bg_im : image)
        (session type_name : string) :
  decoded foreground_b64 = Some fg_im ->
  decoded background_b64 = Some bg_im ->
  new_session "u2net" = inr session ->
  remove (Encoded PNG (mkImage RGBA (width fg_im) (height fg_im) (data fg_im)))
         session rembg_matting = inr (CutOther type_name) ->
  run (composite_on_background foreground_b64 background_b64)
  = (inl (TypeError ("Unexpected rembg output type: " ++ type_name)),
     [OpOpen; OpConvert RGBA; OpOpen; OpConvert RGBA; OpSave PNG;
      OpNewSession "u2net"; OpRemove rembg_matting])
  /\ forallb (fun o => negb (is_compositing_step o))
             (snd (run (composite_on_background foreground_b64 background_b64)))
     = true.
Proof.
  intros Hf Hb Hs Hr.
  rewrite (segmentation_run pillow rembg _ _ _ _ _ _ Hf Hb Hs Hr).
  split; reflexivity.
Qed.

Lemma unsupported_cutout_raises_witness :
  run (@composite_on_background flat_pillow (stub_rembg (CutOther "str"))
         (Encoded PNG sample_subject) (Encoded PNG sample_scene))
  = (inl (TypeError ("Unexpected rembg output type: " ++ "str")),
     [OpOpen; OpConvert RGBA; OpOpen; OpConvert RGBA; OpSave PNG;
      OpNewSession "u2net"; OpRemove rembg_matting])
  /\ forallb (fun o => negb (is_compositing_step o))
             (snd (run (@composite_on_background flat_pillow
                          (stub_rembg (CutOther "str"))
                          (Encoded PNG sample_subject) (Encoded PNG sample_scene))))
     = true.
Proof.
  apply (unsupported_cutout_raises flat_pillow (stub_rembg (CutOther "str"))
           (Encoded PNG sample_subject) (Encoded PNG sample_scene)
           sample_subject sample_scene "u2net" "str");
    reflexivity.
Defined.

(** * Further properties of the retrying client *)

(** ** The shape of every run *)

Lemma final_attempt_counts (rq : request) (o : outcome) :
  posts_of (final_attempt rq o) = 1%nat /\ sleeps_of (final_attempt rq o) = [].
Proof.
  unfold final_attempt. destruct o as [r | e]; [| split; reflexivity].
  destruct (report_quiet r) as [Hp Hs].
  change (EPost rq :: report r) with ([EPost rq] ++ report r).
  rewrite posts_of_app, sleeps_of_app, Hp, Hs. split; reflexivity.
Qed.

(** A loop over the attempts [n .. mr] stops at the first attempt [n + k]
    that is not retried: the [k] attempts before it got an error status
    and were followed by their sleep, and that attempt ends the call. *)
Lemma retry_loop_shape (clock : Clock) (ep : nat -> outcome) (rq : request)
      (mr : Z) (b : Q) :
  forall len n last,
    Z.of_nat (n + S len) = mr + 1 ->
    exists k res,
      (k <= len)%nat /\
      (forall i, (i < k)%nat -> exists r, http_failure (ep (n + i)%nat) r) /\
      (forall i, (i < k)%nat -> sleep_returns b (Z.of_nat (n + i)) = true) /\
      last_attempt clock ep b (n + k) (k = len) res /\
      retry_loop ep rq mr b (map Z.of_nat (seq n (S len))) last n
      = (res,
         retried_attempts ep rq b n k ++ final_attempt rq (ep (n + k)%nat)).
Proof.
  induction len as [| len IH]; intros n last Hn.
  - exists 0%nat, (settle (ep n)). rewrite Nat.add_0_r.
    cbn [seq map retry_loop].
    repeat split; [lia | intros i Hi; lia | intros i Hi; lia | left; auto |].
    unfold settle, final_attempt, retried_attempts. cbn [seq flat_map app].
    destruct (ep n) as [r | e]; [| reflexivity].
    destruct (raises_for_status r); [| now destruct (parsed r)].
    replace (mr <=? Z.of_nat n) with true by (symmetry; apply Z.leb_le; lia).
    reflexivity.
  - destruct (ep n) as [r | e] eqn:En.
    + destruct (raises_for_status r) eqn:Er.
      * assert (Hf : http_failure (ep n) r).
        { split; [exact En |]. unfold ok. now rewrite Er. }
        destruct (backoff_sleep b (Z.of_nat n)) as [e | s] eqn:Eb.
        -- exists 0%nat, (Raise e). rewrite Nat.add_0_r.
           split; [lia |]. split; [intros i Hi; lia |].
           split; [intros i Hi; lia |]. split.
           ++ right. exists e, r. split; [lia |]. split; [exact Hf |].
              split; [exact Eb | reflexivity].
           ++ remember (S len) as len'. cbn [seq map retry_loop]. subst len'.
              rewrite En, Er.
              replace (mr <=? Z.of_nat n) with false
                by (symmetry; apply Z.leb_gt; lia).
              rewrite Eb. unfold final_attempt, retried_attempts.
              rewrite ?En. reflexivity.
        -- pose proof (backoff_sleep_duration _ _ _ _ Eb) as Hs. subst s.
           destruct (IH (S n) (Some (HTTPError r)))
             as (k & res & Hk & Hpre & Hsl & Hlast & Heq); [lia |].
           exists (S k), res. replace (n + S k)%nat with (S n + k)%nat by lia.
           split; [lia |]. split; [| split; [| split]].
           ++ intros i Hi. destruct i as [| i].
              ** exists r. rewrite Nat.add_0_r. exact Hf.
              ** replace (n + S i)%nat with (S n + i)%nat by lia.
                 apply Hpre. lia.
           ++ intros i Hi. destruct i as [| i].
              ** rewrite Nat.add_0_r. unfold sleep_returns. now rewrite Eb.
              ** replace (n + S i)%nat with (S n + i)%nat by lia.
                 apply Hsl. lia.
           ++ destruct Hlast as [[Hres Hstop] | (e & r' & Hnot & Hr' & Hb & Hres)].
              ** left. split; [exact Hres |].
                 destruct Hstop as [-> | Hstop]; [now left | now right].
              ** right. exists e, r'. split; [intros HS; apply Hnot; lia |].
                 split; [exact Hr' |]. split; [exact Hb | exact Hres].
           ++ remember (S len) as len'. cbn [seq map retry_loop]. subst len'.
              rewrite En, Er.
              replace (mr <=? Z.of_nat n) with false
                by (symmetry; apply Z.leb_gt; lia).
              rewrite Eb, Heq. unfold retried_attempts. cbn [seq flat_map].
              unfold retried_attempt at 2. rewrite En.
              f_equal. cbn [app]. f_equal. now rewrite <- !app_assoc.
      * exists 0%nat, (settle (ep n)). rewrite Nat.add_0_r.
        split; [lia |]. split; [intros i Hi; lia |].
        split; [intros i Hi; lia |]. split.
        -- left. split; [reflexivity |].
           right. intros r' [Hr' Hok']. rewrite En in Hr'. injection Hr' as <-.
           unfold ok in Hok'. now rewrite Er in Hok'.
        -- remember (S len) as len'. cbn [seq map retry_loop]. subst len'.
           rewrite En, Er. unfold settle, final_attempt, retried_attempts.
           rewrite ?En, ?Er. cbn [seq flat_map app]. now destruct (parsed r).
    + exists 0%nat, (settle (ep n)). rewrite Nat.add_0_r.
      split; [lia |]. split; [intros i Hi; lia |].
      split; [intros i Hi; lia |]. split.
      * left. split; [reflexivity |].
        right. intros r' [Hr' _]. rewrite En in Hr'. discriminate.
      * remember (S len) as len'. cbn [seq map retry_loop]. subst len'.
        rewrite En. unfold settle, final_attempt, retried_attempts.
        now rewrite ?En.
Qed.

(** The same for a whole call with a non-negative retry budget. *)
Lemma call_shape (clock : Clock) (ep : nat -> outcome)
      (project location model token : string)
      (payload : json) (max_retries : Z) (b : Q) :
  0 <= max_retries ->
  let rq := mkRequest (predict_url project location model)
                      (predict_headers token) payload 120 in
  exists k res,
    Z.of_nat k <= max_retries /\
    (forall i, (i < k)%nat -> exists r, http_failure (ep i) r) /\
    (forall i, (i < k)%nat -> sleep_returns b (Z.of_nat i) = true) /\
    last_attempt clock ep b k (Z.of_nat k = max_retries) res /\
    call_virtual_try_on ep project location model token payload max_retries b
    = (res, retried_attempts ep rq b 0 k ++ final_attempt rq (ep k)).
Proof.
  intros Hmr rq. unfold call_virtual_try_on, range. fold rq.
  replace (Z.to_nat (max_retries + 1)) with (S (Z.to_nat max_retries)) by lia.
  destruct (retry_loop_shape clock ep rq max_retries b (Z.to_nat max_retries)
              0 None)
    as (k & res & Hk & Hpre & Hsl & Hlast & Heq); [lia |].
  exists k, res. cbn [Nat.add] in *.
  split; [lia |]. split; [exact Hpre |]. split; [exact Hsl |].
  split; [| exact Heq].
  destruct Hlast as [[Hres Hstop] | (e & r & Hnot & Hr & Hb & Hres)].
  - left. split; [exact Hres |].
    destruct Hstop as [-> | Hstop]; [left; lia | now right].
  - right. exists e, r. split; [intros HS; apply Hnot; lia |].
    split; [exact Hr |]. split; [exact Hb | exact Hres].
Qed.

Lemma call_negative (clock : Clock) (ep : nat -> outcome)
      (project location model token : string)
      (payload : json) (max_retries : Z) (b : Q) :
  max_retries < 0 ->
  call_virtual_try_on ep project location model token payload max_retries b
  = (SystemExit None, []).
Proof.
  intros Hneg. unfold call_virtual_try_on, range.
  replace (Z.to_nat (max_retries + 1)) with 0%nat by lia. reflexivity.
Qed.

Lemma shape_counts (ep : nat -> outcome) (rq : request) (b : Q) (k : nat) :
  posts_of (retried_attempts ep rq b 0 k ++ final_attempt rq (ep k)) = S k /\
  sleeps_of (retried_attempts ep rq b 0 k ++ final_attempt rq (ep k))
  = map (fun i => (b * inject_Z (2 ^ Z.of_nat i))%Q) (seq 0 k).
Proof.
  destruct (retried_attempts_counts ep rq b k 0) as [Hp Hs].
  destruct (final_attempt_counts rq (ep k)) as [Fp Fs].
  rewrite posts_of_app, sleeps_of_app, Hp, Hs, Fp, Fs, app_nil_r.
  split; [lia | reflexivity].
Qed.

(** ** What every call does, whatever the endpoint answers *)

(** X1. A call never makes more than [max_retries + 1] POSTs, for every
    endpoint behaviour and every retry budget, negative ones included. *)
Theorem attempts_never_exceed_budget (clock : Clock) (ep : nat -> outcome)
        (project location model token : string) (payload : json)
        (max_retries : Z) (b : Q) :
  (posts_of (snd (call_virtual_try_on ep project location model token payload
                                      max_retries b))
   <= Z.to_nat (max_retries + 1))%nat.
Proof.
  destruct (Z_lt_le_dec max_retries 0) as [Hneg | Hpos].
  - rewrite call_negative by assumption. cbn. lia.
  - destruct (call_shape clock ep project location model token payload
                max_retries b Hpos)
      as (k & res & Hk & _ & _ & _ & ->).
    cbn [snd]. destruct (shape_counts ep
      (mkRequest (predict_url project location model) (predict_headers token)
                 payload 120) b k) as [-> _].
    lia.
Qed.


Lemma settle_not_exit (o : outcome) (last : option VirtualTryOnDemo.exn) :
  settle o <> SystemExit last.
Proof.
  unfold settle. destruct o as [r | e]; [| discriminate].
  destruct (raises_for_status r); [discriminate |].
  destruct (parsed r); discriminate.
Qed.

(** X3. With a non-negative retry budget the statement after the loop is
    never reached: no call ends in the [SystemExit] of line 98. *)
Theorem loop_exit_unreachable (clock : Clock) (ep : nat -> outcome)
        (project location model token : string) (payload : json)
        (max_retries : Z) (b : Q) (last : option VirtualTryOnDemo.exn) :
  0 <= max_retries ->
  fst (call_virtual_try_on ep project location model token payload max_retries b)
  <> SystemExit last.
Proof.
  intros Hpos.
  destruct (call_shape clock ep project location model token payload
              max_retries b Hpos)
    as (k & res & _ & _ & _ & Hlast & ->).
  cbn [fst].
  destruct Hlast as [[-> _] | (e & r & _ & _ & _ & ->)];
    [apply settle_not_exit | discriminate].
Qed.

Lemma loop_exit_unreachable_witness :
  fst (@call_virtual_try_on sample_clock always_timeout "p" "us-central1"
                            "virtual-try-on-001" "t" JNull 0 2)
  <> SystemExit None.
Proof. apply loop_exit_unreachable. lia. Defined.

(** X4. A returned value is the parsed body of the last POST's response:
    that response carried no error status, and every POST before it got
    an error status that was retried. *)
Theorem returned_body_is_last_response (clock : Clock) (ep : nat -> outcome)
        (project location model token : string) (payload : json)
        (max_retries : Z) (b : Q) (j : json) :
  fst (call_virtual_try_on ep project location model token payload max_retries b)
  = Return j ->
  exists k r,
    posts_of (snd (call_virtual_try_on ep project location model token payload
                                       max_retries b)) = S k /\
    ep k = Responds r /\ ok r = true /\ parsed r = Some j /\
    forall i, (i < k)%nat -> exists r', http_failure (ep i) r'.
Proof.
  destruct (Z_lt_le_dec max_retries 0) as [Hneg | Hpos].
  - rewrite call_negative by assumption. discriminate.
  - destruct (call_shape clock ep project location model token payload
                max_retries b Hpos)
      as (k & res & Hk & Hpre & _ & Hlast & ->).
    cbn [fst snd].
    destruct (shape_counts ep
      (mkRequest (predict_url project location model) (predict_headers token)
                 payload 120) b k) as [-> _].
    intros Hret.
    destruct Hlast as [[-> _] | (e & r & _ & _ & _ & ->)]; [| discriminate].
    unfold settle in Hret. destruct (ep k) as [r | e] eqn:Ek; [| discriminate].
    destruct (raises_for_status r) eqn:Er; [discriminate |].
    destruct (parsed r) as [j' |] eqn:Ej; [| discriminate].
    injection Hret as ->.
    exists k, r. unfold ok. rewrite Er. auto.
Qed.

Lemma returned_body_is_last_response_witness :
  exists k r,
    posts_of (snd (@call_virtual_try_on sample_clock unavailable_once "p"
                     "us-central1" "virtual-try-on-001" "t" JNull 3 2)) = S k /\
    unavailable_once k = Responds r /\ ok r = true /\
    parsed r = Some prediction /\
    forall i, (i < k)%nat -> exists r', http_failure (unavailable_once i) r'.
Proof.
  apply (returned_body_is_last_response sample_clock unavailable_once "p" "us-central1"
           "virtual-try-on-001" "t" JNull 3 2 prediction).
  reflexivity.
Defined.

(** X5. An [HTTPError] leaves the call only when the budget is spent: it
    is the error of POST number [max_retries + 1], and [max_retries]
    sleeps were made before it. *)
Theorem http_error_means_budget_spent (clock : Clock) (ep : nat -> outcome)
        (project location model token : string) (payload : json)
        (max_retries : Z) (b : Q) (r : response) :
  fst (call_virtual_try_on ep project location model token payload max_retries b)
  = Raise (HTTPError r) ->
  let tr := snd (call_virtual_try_on ep project location model token payload
                                     max_retries b) in
  0 <= max_retries /\
  posts_of tr = Z.to_nat (max_retries + 1) /\
  List.length (sleeps_of tr) = Z.to_nat max_retries /\
  http_failure (ep (Z.to_nat max_retries)) r.
Proof.
  destruct (Z_lt_le_dec max_retries 0) as [Hneg | Hpos].
  - rewrite call_negative by assumption. discriminate.
  - destruct (call_shape clock ep project location model token payload
                max_retries b Hpos)
      as (k & res & Hk & _ & _ & Hlast & ->).
    cbn [fst snd]. intros Hret.
    destruct (shape_counts ep
      (mkRequest (predict_url project location model) (predict_headers token)
                 payload 120) b k) as [-> ->].
    destruct Hlast as [[-> Hstop] | (e & r' & _ & _ & Hb & ->)];
      [| injection Hret as ->;
         now destruct (backoff_sleep_not_http _ _ _ _ r Hb)].
    unfold settle in Hret. destruct (ep k) as [r' | e] eqn:Ek; [| discriminate].
    destruct (raises_for_status r') eqn:Er;
      [| destruct (parsed r'); discriminate].
    injection Hret as ->.
    assert (Hf : http_failure (ep k) r).
    { split; [exact Ek |]. unfold ok. now rewrite Er. }
    destruct Hstop as [Hlast | Hnot];
      [| exfalso; apply (Hnot r); split;
         [reflexivity | unfold ok; now rewrite Er]].
    replace (Z.to_nat max_retries) with k by lia.
    rewrite length_map, length_seq. repeat split; try lia; apply Hf.
Qed.

Lemma http_error_means_budget_spent_witness :
  let tr := snd (@call_virtual_try_on sample_clock always_unavailable "p"
                   "us-central1" "virtual-try-on-001" "t" JNull 3 2) in
  0 <= 3 /\
  posts_of tr = Z.to_nat (3 + 1) /\
  List.length (sleeps_of tr) = Z.to_nat 3 /\
  http_failure (always_unavailable (Z.to_nat 3)) unavailable.
Proof.
  apply (http_error_means_budget_spent sample_clock always_unavailable "p" "us-central1"
           "virtual-try-on-001" "t" JNull 3 2 unavailable).
  reflexivity.
Defined.

Lemma report_no_post (rq : request) (r : response) :
  Forall (fun e => match e with EPost rq' => rq' = rq | _ => True end) (report r).
Proof. unfold report. destruct (ok r); repeat constructor. Qed.

(** X6. Every POST of a call sends the same request: the predict URL
    built from the arguments, the bearer token and JSON content type, the
    given payload and a timeout of 120 seconds; a retry changes nothing. *)
Theorem every_post_sends_same_request (clock : Clock) (ep : nat -> outcome)
        (project location model token : string) (payload : json)
        (max_retries : Z) (b : Q) :
  let rq := mkRequest (predict_url project location model)
                      [("Authorization"%string, ("Bearer " ++ token)%string);
                       ("Content-Type"%string, "application/json"%string)]
                      payload 120 in
  Forall (fun e => match e with EPost rq' => rq' = rq | _ => True end)
         (snd (call_virtual_try_on ep project location model token payload
                                   max_retries b)).
Proof.
  intros rq.
  destruct (Z_lt_le_dec max_retries 0) as [Hneg | Hpos].
  - rewrite call_negative by assumption. constructor.
  - destruct (call_shape clock ep project location model token payload
                max_retries b Hpos)
      as (k & res & _ & _ & _ & _ & ->).
    cbn [snd]. fold (predict_headers token). fold rq.
    apply Forall_app. split.
    + unfold retried_attempts. apply Forall_flat_map.
      apply Forall_forall. intros i _. unfold retried_attempt.
      constructor; [reflexivity |]. apply Forall_app. split.
      * destruct (ep i); [apply report_no_post | constructor].
      * repeat constructor.
    + unfold final_attempt. constructor; [reflexivity |].
      destruct (ep k); [apply report_no_post | constructor].
Qed.

Lemma sum_app (xs ys : list Q) :
  (fold_right Qplus 0 (xs ++ ys) == fold_right Qplus 0 xs + fold_right Qplus 0 ys)%Q.
Proof.
  induction xs as [| x xs IH]; simpl; [ring |]. rewrite IH. ring.
Qed.

(** The backoff sleeps add up geometrically. *)
Lemma geometric_sum (b : Q) (k : nat) :
  (fold_right Qplus 0 (map (fun i => b * inject_Z (2 ^ Z.of_nat i)) (seq 0 k))
   == b * inject_Z (2 ^ Z.of_nat k - 1))%Q.
Proof.
  induction k as [| k IH]; [simpl; ring |].
  rewrite seq_S, map_app, sum_app, IH. cbn [Nat.add map fold_right].
  rewrite Nat2Z.inj_succ, Z.pow_succ_r by lia.
  unfold Z.sub. rewrite !inject_Z_plus, inject_Z_mult. ring.
Qed.

(** X7. With a non-negative backoff the time a call spends sleeping is at
    most [b * (2^max_retries - 1)] seconds, whatever the endpoint does. *)
Theorem total_sleep_bounded (clock : Clock) (ep : nat -> outcome)
        (project location model token : string) (payload : json)
        (max_retries : Z) (b : Q) :
  0 <= max_retries -> (0 <= b)%Q ->
  (total_sleep (snd (call_virtual_try_on ep project location model token
                                         payload max_retries b))
   <= b * inject_Z (2 ^ max_retries - 1))%Q.
Proof.
  intros Hpos Hb.
  destruct (call_shape clock ep project location model token payload
              max_retries b Hpos)
    as (k & res & Hk & _ & _ & _ & ->).
  cbn [snd]. unfold total_sleep.
  destruct (shape_counts ep
    (mkRequest (predict_url project location model) (predict_headers token)
               payload 120) b k) as [_ ->].
  rewrite geometric_sum, !(Qmult_comm b).
  apply Qmult_le_compat_r; [| exact Hb].
  rewrite <- Zle_Qle.
  assert (2 ^ Z.of_nat k <= 2 ^ max_retries) by (apply Z.pow_le_mono_r; lia).
  lia.
Qed.

Lemma total_sleep_bounded_witness :
  (total_sleep (snd (@call_virtual_try_on sample_clock always_unavailable "p"
                       "us-central1" "virtual-try-on-001" "t" JNull 3 2))
   <= 2 * inject_Z (2 ^ 3 - 1))%Q.
Proof.
  apply (total_sleep_bounded sample_clock always_unavailable "p" "us-central1"
           "virtual-try-on-001" "t" JNull 3 2).
  - lia.
  - discriminate.
Defined.

Lemma permanent_failure_attempts_witness :
  let run := @call_virtual_try_on sample_clock always_unavailable "p"
               "us-central1" "virtual-try-on-001" "t" JNull 5 2 in
  5 <= 1024 /\ (1 <= 5 -> (0 <= 2)%Q) /\
  posts_of (snd run) = Z.to_nat (5 + 1) /\
  sleeps_of (snd run) = map (fun i => (2 * inject_Z (2 ^ i))%Q) (range 5) /\
  exists r, http_failure (always_unavailable (Z.to_nat 5)) r /\
            fst run = Raise (HTTPError r).
Proof.
  apply (permanent_failure_attempts sample_clock always_unavailable "p"
           "us-central1" "virtual-try-on-001" "t" JNull 5 2).
  - lia.
  - intros n. exists unavailable. split; reflexivity.
  - intros i Hi.
    assert (i = 0 \/ i = 1 \/ i = 2 \/ i = 3 \/ i = 4) as H by lia.
    destruct H as [-> | [-> | [-> | [-> | ->]]]]; reflexivity.
Defined.

(** X9. A first response whose status is not an error status ends the
    call after that single POST, without print or sleep: the parsed body
    is returned, and a body that is not JSON raises [JSONDecodeError]
    without any retry. *)
Theorem first_response_without_error_settles (clock : Clock)
        (ep : nat -> outcome)
        (project location model token : string) (payload : json)
        (max_retries : Z) (b : Q) (r : response) :
  0 <= max_retries ->
  ep 0%nat = Responds r ->
  ok r = true ->
  call_virtual_try_on ep project location model token payload max_retries b
  = (match parsed r with Some j => Return j | None => Raise JSONDecodeError end,
     [EPost (mkRequest (predict_url project location model)
                       (predict_headers token) payload 120)]).
Proof.
  intros Hpos E0 Hok. unfold call_virtual_try_on, range.
  replace (Z.to_nat (max_retries + 1)) with (S (Z.to_nat max_retries)) by lia.
  cbn [seq map retry_loop]. rewrite E0.
  unfold ok in Hok. apply negb_true_iff in Hok. rewrite Hok.
  unfold report, ok. rewrite Hok. now destruct (parsed r).
Qed.

Lemma first_response_without_error_settles_witness :
  @call_virtual_try_on sample_clock (fun _ => Responds (mkResponse 204 "" None))
                       "p" "us-central1" "virtual-try-on-001" "t" JNull 3 2
  = (match parsed (mkResponse 204 "" None) with
     | Some j => Return j
     | None => Raise JSONDecodeError
     end,
     [EPost (mkRequest (predict_url "p" "us-central1" "virtual-try-on-001")
                       (predict_headers "t") JNull 120)]).
Proof.
  apply (first_response_without_error_settles sample_clock
           (fun _ => Responds (mkResponse 204 "" None))
           "p" "us-central1" "virtual-try-on-001" "t" JNull 3 2
           (mkResponse 204 "" None)).
  - lia.
  - reflexivity.
  - reflexivity.
Defined.

(** * The script around the call: token, output file, [main] *)

Lemma nonempty_some (s : option string) (t : string) :
  nonempty s = Some t -> s = Some t /\ t <> ""%string.
Proof.
  destruct s as [u |]; simpl; [| discriminate].
  destruct (String.eqb_spec u ""); [discriminate |].
  intros H. injection H as ->. auto.
Qed.

(** X10. [get_access_token] returns the explicit token whenever one is
    given and not empty, else the value of [ACCESS_TOKEN] when that is set
    and not empty, and exits otherwise; the token it returns is never the
    empty string. *)
Theorem access_token_resolution (environ : environment)
        (explicit_token : option string) :
  match get_access_token environ explicit_token with
  | inr t =>
      t <> ""%string /\
      (explicit_token = Some t \/
       (nonempty explicit_token = None /\ environ "ACCESS_TOKEN"%string = Some t))
  | inl e =>
      nonempty explicit_token = None /\
      nonempty (environ "ACCESS_TOKEN"%string) = None /\
      e = Exit "Missing access token. Provide --access-token or set ACCESS_TOKEN."
  end.
Proof.
  unfold get_access_token.
  destruct (nonempty explicit_token) as [t |] eqn:Ee.
  - apply nonempty_some in Ee. destruct Ee as [-> Ht]. auto.
  - destruct (nonempty (environ "ACCESS_TOKEN"%string)) as [t |] eqn:Ev.
    + apply nonempty_some in Ev. destruct Ev as [-> Ht]. auto.
    + auto.
Qed.

(** X11. A response dict without a ["predictions"] entry, or whose entry
    is falsy (an empty list, [null], ...), makes [save_output] exit with
    "No predictions returned from API." before it touches the disk. *)
Theorem save_output_no_predictions (host : Host)
        (fields : list (string * json)) (output_path : string) :
  match dict_get "predictions" fields with
  | Some predictions => truthy predictions = false
  | None => True
  end ->
  save_output (JDict fields) output_path
  = (Some (Exit "No predictions returned from API."), []).
Proof.
  intros H. unfold save_output, image_payload_of, get.
  destruct (dict_get "predictions" fields) as [v |]; [now rewrite H | reflexivity].
Qed.

Lemma save_output_no_predictions_witness :
  @save_output sample_host (JDict [("predictions"%string, JList [])]) "out/result.png"
  = (Some (Exit "No predictions returned from API."), []).
Proof.
  apply (save_output_no_predictions sample_host
           [("predictions"%string, JList [])] "out/result.png").
  reflexivity.
Defined.

(** When the first prediction is a dict without a
    ["bytesBase64Encoded"] entry, or with a falsy one (an empty string,
    [null], ...), [save_output] exits with "Missing image data in API
    response." before it touches the disk. *)
Theorem save_output_missing_image (host : Host)
        (fields first : list (string * json)) (others : list json)
        (output_path : string) :
  dict_get "predictions" fields = Some (JList (JDict first :: others)) ->
  match dict_get "bytesBase64Encoded" first with
  | Some image_payload => truthy image_payload = false
  | None => True
  end ->
  save_output (JDict fields) output_path
  = (Some (Exit "Missing image data in API response."), []).
Proof.
  intros Hp Hi. unfold save_output, image_payload_of, get. rewrite Hp.
  cbn [truthy negb item0].
  destruct (dict_get "bytesBase64Encoded" first) as [v |];
    [now rewrite Hi | reflexivity].
Qed.

Lemma save_output_missing_image_witness :
  @save_output sample_host
     (JDict [("predictions"%string,
              JList [JDict [("bytesBase64Encoded"%string, JStr "")]])])
     "out/result.png"
  = (Some (Exit "Missing image data in API response."), []).
Proof.
  apply (save_output_missing_image sample_host
           [("predictions"%string,
             JList [JDict [("bytesBase64Encoded"%string, JStr "")]])]
           [("bytesBase64Encoded"%string, JStr "")] [] "out/result.png");
    reflexivity.
Defined.

(** Only the first prediction counts: whatever follows it in the
    list, and whatever else the response holds, changes neither what
    [save_output] returns nor what it does. *)
Theorem save_output_reads_first_prediction_only (host : Host)
        (fields : list (string * json)) (first : json) (others : list json)
        (output_path : string) :
  dict_get "predictions" fields = Some (JList (first :: others)) ->
  save_output (JDict fields) output_path
  = save_output (JDict [("predictions"%string, JList [first])]) output_path.
Proof.
  intros Hp. unfold save_output, image_payload_of, get. rewrite Hp. reflexivity.
Qed.

Lemma save_output_reads_first_prediction_only_witness :
  @save_output sample_host
     (JDict [("deployedModelId"%string, JStr "1");
             ("predictions"%string,
              JList [JDict [("bytesBase64Encoded"%string, JStr "aGVsbG8=")];
                     JNull; JNum 7])])
     "out/result.png"
  = @save_output sample_host
      (JDict [("predictions"%string,
               JList [JDict [("bytesBase64Encoded"%string, JStr "aGVsbG8=")]])])
      "out/result.png".
Proof.
  apply (save_output_reads_first_prediction_only sample_host
           [("deployedModelId"%string, JStr "1");
            ("predictions"%string,
             JList [JDict [("bytesBase64Encoded"%string, JStr "aGVsbG8=")];
                    JNull; JNum 7])]
           (JDict [("bytesBase64Encoded"%string, JStr "aGVsbG8=")])
           [JNull; JNum 7] "out/result.png").
  reflexivity.
Defined.

(** X12. A payload that does not decode leaves its mark: the output
    directory has been made by then, the decoding error propagates, and no
    file is written. *)
Theorem undecodable_payload_leaves_directory (host : Host)
        (response_json first : json) (s : string) (output_path : string)
        (e : script_exn) :
  image_payload_of response_json = Image first (JStr s) ->
  mkdir_parents (parent output_path) = None ->
  b64decode s = inl e ->
  save_output response_json output_path = (Some e, [Mkdir (parent output_path)]).
Proof.
  intros Hi Hm Hd. unfold save_output. rewrite Hi, Hm. cbn [decode_payload].
  now rewrite Hd.
Qed.

Lemma undecodable_payload_leaves_directory_witness :
  @save_output sample_host
     (JDict [("predictions"%string,
              JList [JDict [("bytesBase64Encoded"%string, JStr "=")]])])
     "out/result.png"
  = (Some (DecodingError "Incorrect padding"), [Mkdir "out"]).
Proof.
  apply (undecodable_payload_leaves_directory sample_host
           (JDict [("predictions"%string,
                    JList [JDict [("bytesBase64Encoded"%string, JStr "=")]])])
           (JDict [("bytesBase64Encoded"%string, JStr "=")]) "=" "out/result.png"
           (DecodingError "Incorrect padding"));
    reflexivity.
Defined.

(** X13. [save_output] writes at most one file, the output path, and only
    bytes decoded from the first prediction's ["bytesBase64Encoded"]
    string, after the directory was made; a failed validation leaves the
    disk untouched. *)
Theorem save_output_writes_only_decoded_payload (host : Host)
        (response_json : json) (output_path : string) :
  let tr := snd (save_output response_json output_path) in
  tr = []
  \/ tr = [Mkdir (parent output_path)]
  \/ exists first s data,
       image_payload_of response_json = Image first (JStr s) /\
       b64decode s = inr data /\
       save_output response_json output_path
       = (write_bytes output_path data,
          [Mkdir (parent output_path); WriteBytes output_path data]).
Proof.
  unfold save_output.
  destruct (image_payload_of response_json) as [| | first image_payload | e];
    try (left; reflexivity).
  destruct (mkdir_parents (parent output_path)); [right; left; reflexivity |].
  destruct image_payload as [| bb | n | s | items | fs];
    try (right; left; reflexivity).
  cbn [decode_payload].
  destruct (b64decode s) as [e | data] eqn:Ed; [right; left; reflexivity |].
  right. right. exists first, s, data. auto.
Qed.

(** A successful [save_output] made the directory and wrote one file. *)
Lemma save_output_effects (host : Host) (response_json : json)
      (output_path : string) :
  fst (save_output response_json output_path) = None ->
  exists data,
    snd (save_output response_json output_path)
    = [Mkdir (parent output_path); WriteBytes output_path data] /\
    write_bytes output_path data = None.
Proof.
  unfold save_output.
  destruct (image_payload_of response_json) as [| | first image_payload | e];
    try discriminate.
  destruct (mkdir_parents (parent output_path)); [discriminate |].
  destruct (decode_payload image_payload) as [e | data]; [discriminate |].
  cbn [fst snd]. eauto.
Qed.

(** X14. [main] stops before reading anything when the person file or
    the garment file does not exist or no token can be found: it fails
    having only checked which files exist; no file is read, no POST is
    sent, nothing is written or printed. *)
Theorem main_stops_before_reading (host : Host) (clock : Clock)
        (ep : nat -> outcome) (args : arguments) :
  path_exists (arg_person args) && path_exists (arg_garment args) = false
  \/ nonempty (arg_access_token args) = None
     /\ nonempty (environ "ACCESS_TOKEN"%string) = None ->
  exists msg,
    fst (main ep args) = Failed (Exit msg) /\
    Forall (fun x => match x with Exists _ => True | _ => False end)
           (snd (main ep args)).
Proof.
  intros H. unfold main.
  destruct (path_exists (arg_person args)) eqn:Ep; cbn [negb].
  2:{ eexists. split; [reflexivity |]. repeat constructor. }
  destruct (path_exists (arg_garment args)) eqn:Eg; cbn [negb].
  2:{ eexists. split; [reflexivity |]. repeat constructor. }
  destruct H as [H | [He Hv]]; [discriminate H |].
  unfold get_access_token. rewrite He, Hv.
  eexists. split; [reflexivity |]. repeat constructor.
Qed.

Lemma main_stops_before_reading_witness :
  exists msg,
    fst (@main sample_host sample_clock always_unavailable
               (mkArguments "p" "us-central1" "person.jpg" "top.jpg"
                            "out/result.png" None "virtual-try-on-001" 3 2))
    = Failed (Exit msg) /\
    Forall (fun x => match x with Exists _ => True | _ => False end)
           (snd (@main sample_host sample_clock always_unavailable
                       (mkArguments "p" "us-central1" "person.jpg" "top.jpg"
                                    "out/result.png" None "virtual-try-on-001" 3 2))).
Proof.
  apply (main_stops_before_reading sample_host sample_clock always_unavailable
           (mkArguments "p" "us-central1" "person.jpg" "top.jpg"
                        "out/result.png" None "virtual-try-on-001" 3 2)).
  right. split; reflexivity.
Defined.

(** X15. When [main] completes, it has written exactly one file: the
    run ends with making the output directory, writing the output path
    and printing the confirmation, and nothing was written before that. *)
Theorem main_done_wrote_once (host : Host) (clock : Clock)
        (ep : nat -> outcome) (args : arguments) :
  fst (main ep args) = Done ->
  exists before data,
    snd (main ep args)
    = before
      ++ [Mkdir (parent (arg_output args)); WriteBytes (arg_output args) data;
          Stdout ("Saved try-on image to " ++ arg_output args)] /\
    write_bytes (arg_output args) data = None /\
    Forall (fun x => is_write x = false) before.
Proof.
  unfold main.
  destruct (path_exists (arg_person args)); cbn [negb]; [| discriminate].
  destruct (path_exists (arg_garment args)); cbn [negb]; [| discriminate].
  destruct (get_access_token environ (arg_access_token args)) as [e | token];
    [discriminate |].
  unfold read_image_base64.
  destruct (read_bytes (arg_person args)) as [e | person]; [discriminate |].
  destruct (read_bytes (arg_garment args)) as [e | garment]; [discriminate |].
  destruct (call_virtual_try_on ep (arg_project args) (arg_location args)
              (arg_model args) token
              (build_payload (b64encode person) (b64encode garment))
              (arg_max_retries args) (arg_backoff_seconds args))
    as [res net].
  destruct res as [response_json | e | last_exc]; try discriminate.
  pose proof (save_output_effects host response_json (arg_output args)) as Hs.
  destruct (save_output response_json (arg_output args)) as [[e |] tr3] eqn:Es;
    [discriminate |].
  intros _. cbn [fst snd] in *.
  destruct (Hs eq_refl) as (data & -> & Hw).
  exists ([Exists (arg_person args); Exists (arg_garment args)]
          ++ [ReadBytes (arg_person args)] ++ [ReadBytes (arg_garment args)]
          ++ map Net net), data.
  split; [reflexivity |]. split; [exact Hw |].
  repeat (apply Forall_app; split); try (repeat constructor).
  apply Forall_map. apply Forall_forall. intros x _. reflexivity.
Qed.

Lemma main_done_wrote_once_witness :
  exists before data,
    snd (@main sample_host sample_clock unavailable_once sample_arguments)
    = before
      ++ [Mkdir (@parent sample_host (arg_output sample_arguments));
          WriteBytes (arg_output sample_arguments) data;
          Stdout ("Saved try-on image to " ++ arg_output sample_arguments)] /\
    @write_bytes sample_host (arg_output sample_arguments) data = None /\
    Forall (fun x => is_write x = false) before.
Proof.
  apply (main_done_wrote_once sample_host sample_clock unavailable_once
           sample_arguments).
  reflexivity.
Defined.

(** * The service: token, predict call, endpoints *)

Lemma no_http_in_auth (auth : ApiService.GoogleAuth) (environ : environment) :
  filter ApiService.is_http (snd (ApiService.resolve_token environ)) = [].
Proof.
  unfold ApiService.resolve_token, ApiService.token_from_environment.
  destruct ApiService.auth_default as [c |].
  - destruct (negb (ApiService.valid c) || ApiService.expired c).
    + destruct (ApiService.refresh c) as [c' |].
      * destruct (nonempty (ApiService.token c'));
          [| destruct (nonempty (environ "ACCESS_TOKEN"%string))]; reflexivity.
      * destruct (nonempty (environ "ACCESS_TOKEN"%string)); reflexivity.
    + destruct (nonempty (ApiService.token c));
        [| destruct (nonempty (environ "ACCESS_TOKEN"%string))]; reflexivity.
  - destruct (nonempty (environ "ACCESS_TOKEN"%string)); reflexivity.
Qed.

(** X16. [resolve_token] never returns an empty token and fails in one
    way only, with status 401, and only when [ACCESS_TOKEN] is unset or
    empty: a failing or token-less credentials lookup is swallowed. The
    credentials are refreshed exactly when they were found and are not
    valid or are expired. *)
Theorem service_token_resolution (auth : ApiService.GoogleAuth)
        (environ : environment) :
  match fst (ApiService.resolve_token environ) with
  | inr t => t <> ""%string
  | inl e =>
      e = ApiService.missing_token /\
      nonempty (environ "ACCESS_TOKEN"%string) = None
  end
  /\ (In ApiService.AuthRefresh (snd (ApiService.resolve_token environ))
      <-> exists c, ApiService.auth_default = Some c /\
                    (ApiService.valid c = false \/ ApiService.expired c = true)).
Proof.
  unfold ApiService.resolve_token, ApiService.token_from_environment.
  assert (Henv : forall tr,
             match fst (match nonempty (environ "ACCESS_TOKEN"%string) with
                        | Some t => (@inr ApiService.failure _ t, tr)
                        | None => (inl ApiService.missing_token, tr)
                        end : (ApiService.failure + string) * list ApiService.api_event)
             with
             | inr t => t <> ""%string
             | inl e => e = ApiService.missing_token /\
                        nonempty (environ "ACCESS_TOKEN"%string) = None
             end).
  { intros tr. destruct (nonempty (environ "ACCESS_TOKEN"%string)) as [t |] eqn:Ev.
    - apply nonempty_some in Ev. now destruct Ev.
    - split; reflexivity. }
  destruct ApiService.auth_default as [c |].
  - destruct (ApiService.valid c) eqn:Ev, (ApiService.expired c) eqn:Ee; cbn [negb orb].
    + (* valid and expired: refreshed *)
      split.
      * destruct (ApiService.refresh c) as [c' |]; [| apply Henv].
        destruct (nonempty (ApiService.token c')) as [t |] eqn:Et; [| apply Henv].
        apply nonempty_some in Et. now destruct Et.
      * split; [intros _; exists c; auto |]. intros _.
        destruct (ApiService.refresh c) as [c' |];
          [destruct (nonempty (ApiService.token c')) |];
          try destruct (nonempty (environ "ACCESS_TOKEN"%string));
          simpl; auto.
    + (* valid, not expired: used as it is *)
      split.
      * destruct (nonempty (ApiService.token c)) as [t |] eqn:Et; [| apply Henv].
        apply nonempty_some in Et. now destruct Et.
      * split.
        -- destruct (nonempty (ApiService.token c));
             try destruct (nonempty (environ "ACCESS_TOKEN"%string));
             simpl; intros [H | []]; discriminate H.
        -- intros (c0 & Hc & [Hv | Hx]); injection Hc as <-; congruence.
    + split.
      * destruct (ApiService.refresh c) as [c' |]; [| apply Henv].
        destruct (nonempty (ApiService.token c')) as [t |] eqn:Et; [| apply Henv].
        apply nonempty_some in Et. now destruct Et.
      * split; [intros _; exists c; auto |]. intros _.
        destruct (ApiService.refresh c) as [c' |];
          [destruct (nonempty (ApiService.token c')) |];
          try destruct (nonempty (environ "ACCESS_TOKEN"%string));
          simpl; auto.
    + split.
      * destruct (ApiService.refresh c) as [c' |]; [| apply Henv].
        destruct (nonempty (ApiService.token c')) as [t |] eqn:Et; [| apply Henv].
        apply nonempty_some in Et. now destruct Et.
      * split; [intros _; exists c; auto |]. intros _.
        destruct (ApiService.refresh c) as [c' |];
          [destruct (nonempty (ApiService.token c')) |];
          try destruct (nonempty (environ "ACCESS_TOKEN"%string));
          simpl; auto.
  - split; [apply Henv |]. split.
    + destruct (nonempty (environ "ACCESS_TOKEN"%string)); simpl;
        intros [H | []]; discriminate H.
    + intros (c & Hc & _). discriminate Hc.
Qed.

(** X17. Usable default credentials win over the environment: when they
    are valid, not expired and carry a non-empty token, that token is
    returned without a refresh, whatever [ACCESS_TOKEN] holds. *)
Theorem default_credentials_win (auth : ApiService.GoogleAuth)
        (environ : environment) (c : ApiService.credentials) (t : string) :
  ApiService.auth_default = Some c ->
  ApiService.valid c = true -> ApiService.expired c = false ->
  ApiService.token c = Some t -> t <> ""%string ->
  ApiService.resolve_token environ = (inr t, [ApiService.AuthDefault]).
Proof.
  intros Hc Hv He Ht Hne. unfold ApiService.resolve_token.
  rewrite Hc, Hv, He, Ht. cbn [negb orb nonempty].
  destruct (String.eqb_spec t ""); [contradiction | reflexivity].
Qed.

Lemma default_credentials_win_witness :
  @ApiService.resolve_token
     {| ApiService.auth_default :=
          Some (ApiService.mkCredentials true false (Some "ya29.adc"%string));
        ApiService.refresh := fun _ => None |}
     ApiService.token_in_environment
  = (inr "ya29.adc"%string, [ApiService.AuthDefault]).
Proof.
  apply (default_credentials_win
           {| ApiService.auth_default :=
                Some (ApiService.mkCredentials true false (Some "ya29.adc"%string));
              ApiService.refresh := fun _ => None |}
           ApiService.token_in_environment
           (ApiService.mkCredentials true false (Some "ya29.adc"%string))
           "ya29.adc");
    try reflexivity.
  discriminate.
Defined.

(** X18. [call_vertex] is the retry loop with no retry left: for every
    endpoint it sends the very POST that [call_virtual_try_on] sends with
    [max_retries = 0], exactly once, and ends the same way: the same
    parsed body, the same transport or decoding error, and for an error
    status an [HTTPException] carrying the status code and body text of
    the response the loop's [HTTPError] carries. *)
Theorem call_vertex_is_single_attempt (clock : Clock) (ep : nat -> outcome)
        (project location model token : string) (payload : json) (b : Q) :
  let v := ApiService.call_vertex ep project location model token payload in
  let c := call_virtual_try_on ep project location model token payload 0 b in
  snd v = [EPost (mkRequest (predict_url project location model)
                            (predict_headers token) payload 120)] /\
  network_trace (snd c) = snd v /\
  sleeps_of (snd c) = [] /\
  match fst v, fst c with
  | inr j, Return j' => j = j'
  | inl (ApiService.HTTPException status detail), Raise (HTTPError r) =>
      status = status_code r /\ detail = text r
  | inl (ApiService.RequestFailed e), Raise e' => e = e'
  | _, _ => False
  end.
Proof.
  unfold ApiService.call_vertex, call_virtual_try_on, range.
  change (Z.to_nat (0 + 1)) with 1%nat. cbn [seq map retry_loop fst snd].
  split; [reflexivity |].
  destruct (ep 0%nat) as [r | e]; [| repeat split].
  unfold ok, report, ok. destruct (raises_for_status r); cbn [negb].
  - change (0 <=? Z.of_nat 0) with true. repeat split.
  - destruct (parsed r); repeat split.
Qed.

Lemma no_http_in_imaging (log : list ApiApp.op) :
  filter ApiService.is_http (map ApiService.Imaging log) = [].
Proof. induction log as [| o log IH]; [reflexivity | exact IH]. Qed.

Lemma call_vertex_trace (ep : nat -> outcome)
      (project location model token : string) (payload : json) :
  snd (ApiService.call_vertex ep project location model token payload)
  = [EPost (mkRequest (ApiService.vertex_url project location model)
                      [("Authorization"%string, ("Bearer " ++ token)%string);
                       ("Content-Type"%string, "application/json"%string)]
                      payload 120)].
Proof. reflexivity. Qed.

(** X19. [generate_background] sends no request without a token and
    exactly one with it, never a second: that POST goes to the predict
    URL of the requested model with the resolved bearer token, and carries
    the prompt as the only instance and the requested sample count. *)
Theorem background_posts_once_with_token (auth : ApiService.GoogleAuth)
        (pydantic : ApiService.Pydantic)
        (environ : environment) (ep : nat -> outcome)
        (request : ApiService.BackgroundRequest) :
  match fst (ApiService.resolve_token environ) with
  | inl e =>
      ApiService.generate_background environ ep request
      = (inl e, snd (ApiService.resolve_token environ))
  | inr tok =>
      filter ApiService.is_http
             (snd (ApiService.generate_background environ ep request))
      = [ApiService.Http
           (EPost (mkRequest
                     (ApiService.vertex_url (ApiService.bg_project request)
                                            (ApiService.bg_location request)
                                            (ApiService.bg_model request))
                     [("Authorization"%string, ("Bearer " ++ tok)%string);
                      ("Content-Type"%string, "application/json"%string)]
                     (JDict [("instances"%string,
                              JList [JDict [("prompt"%string,
                                             JStr (ApiService.prompt request))]]);
                             ("parameters"%string,
                              JDict [("sampleCount"%string,
                                      JNum (ApiService.sampleCount request))])])
                     120))]
  end.
Proof.
  pose proof (no_http_in_auth auth environ) as Hauth.
  unfold ApiService.generate_background.
  destruct (ApiService.resolve_token environ) as [[e | tok] tr0];
    cbn [fst snd] in *; [reflexivity |].
  match goal with
  | |- context [ApiService.call_vertex ?e ?p ?l ?m ?t ?pl] =>
      pose proof (call_vertex_trace e p l m t pl) as Hnet;
      destruct (ApiService.call_vertex e p l m t pl) as [[err | response_json] net]
  end; cbn [snd] in Hnet; subst net.
  - cbn [snd]. now rewrite filter_app, Hauth.
  - destruct (image_payload_of response_json) as [| | first image_payload | err];
      try (cbn [snd]; now rewrite filter_app, Hauth).
    destruct (get first "prompt" JNull);
      cbn [snd]; now rewrite filter_app, Hauth.
Qed.

(** X20. An error status of the upstream service is passed on as it is:
    with a token at hand, a response that is not ok makes
    [generate_background] fail with an [HTTPException] of that very status
    code, with the response text as detail. *)
Theorem background_passes_upstream_status (auth : ApiService.GoogleAuth)
        (pydantic : ApiService.Pydantic)
        (environ : environment) (ep : nat -> outcome)
        (request : ApiService.BackgroundRequest) (tok : string) (r : response) :
  fst (ApiService.resolve_token environ) = inr tok ->
  ep 0%nat = Responds r ->
  ok r = false ->
  fst (ApiService.generate_background environ ep request)
  = inl (ApiService.HTTPException (status_code r) (text r)).
Proof.
  intros Ht E0 Hok. unfold ApiService.generate_background.
  destruct (ApiService.resolve_token environ) as [[e | tok'] tr0];
    cbn [fst] in Ht; [discriminate |]. injection Ht as ->.
  unfold ApiService.call_vertex. now rewrite E0, Hok.
Qed.

Lemma background_passes_upstream_status_witness :
  fst (@ApiService.generate_background ApiService.stale_auth
         ApiService.strict_pydantic
         ApiService.no_environment always_unavailable
         (ApiService.mkBackgroundRequest "p" "us-central1" "imagen" "a beach" 1))
  = inl (ApiService.HTTPException (status_code unavailable) (text unavailable)).
Proof.
  apply (background_passes_upstream_status ApiService.stale_auth
           ApiService.strict_pydantic ApiService.no_environment always_unavailable
           (ApiService.mkBackgroundRequest "p" "us-central1" "imagen" "a beach" 1)
           "ya29.fresh" unavailable);
    reflexivity.
Defined.

(** X21. A well-formed answer without usable predictions is a 502: with
    a token at hand and an ok response whose body is a dict with no
    ["predictions"] entry or a falsy one, [generate_background] fails with
    [HTTPException(502, "No predictions returned from API.")]. *)
Theorem background_without_predictions_is_502 (auth : ApiService.GoogleAuth)
        (pydantic : ApiService.Pydantic)
        (environ : environment) (ep : nat -> outcome)
        (request : ApiService.BackgroundRequest) (tok : string) (r : response)
        (fields : list (string * json)) :
  fst (ApiService.resolve_token environ) = inr tok ->
  ep 0%nat = Responds r ->
  ok r = true ->
  parsed r = Some (JDict fields) ->
  match dict_get "predictions" fields with
  | Some predictions => truthy predictions = false
  | None => True
  end ->
  fst (ApiService.generate_background environ ep request)
  = inl (ApiService.HTTPException 502 "No predictions returned from API.").
Proof.
  intros Ht E0 Hok Hp Hf. unfold ApiService.generate_background.
  destruct (ApiService.resolve_token environ) as [[e | tok'] tr0];
    cbn [fst] in Ht; [discriminate |]. injection Ht as ->.
  unfold ApiService.call_vertex. rewrite E0, Hok, Hp. cbn [negb].
  unfold image_payload_of, get.
  destruct (dict_get "predictions" fields) as [v |]; [now rewrite Hf | reflexivity].
Qed.

Lemma background_without_predictions_is_502_witness :
  fst (@ApiService.generate_background ApiService.stale_auth
         ApiService.strict_pydantic
         ApiService.no_environment
         (fun _ => Responds (mkResponse 200 "{}" (Some (JDict []))))
         (ApiService.mkBackgroundRequest "p" "us-central1" "imagen" "a beach" 1))
  = inl (ApiService.HTTPException 502 "No predictions returned from API.").
Proof.
  apply (background_without_predictions_is_502 ApiService.stale_auth
           ApiService.strict_pydantic ApiService.no_environment
           (fun _ => Responds (mkResponse 200 "{}" (Some (JDict []))))
           (ApiService.mkBackgroundRequest "p" "us-central1" "imagen" "a beach" 1)
           "ya29.fresh" (mkResponse 200 "{}" (Some (JDict []))) []);
    first [reflexivity | exact I].
Defined.

(** [resize_and_encode] makes no compositing call, whatever it is given. *)
Lemma resize_and_encode_log (pillow : Pillow) (e : encoded) (m : Z) :
  Forall (fun o => is_compositing_step o = false)
         (snd (run (resize_and_encode e m))).
Proof.
  unfold run, resize_and_encode, bind, Image_open, convert_RGB, thumbnail, save, call.
  destruct e as [fmt im | raw]; cbn [app]; [| repeat constructor].
  match goal with
  | |- context [match ?t with inl _ => _ | inr _ => _ end] =>
      destruct t as [err | out]
  end; cbn [fst snd]; repeat constructor.
Qed.

(** X22. [try_on] sends at most one request, and sends it only when a
    token was resolved and both input images came through
    [resize_and_encode]: a missing token or an input that cannot be
    normalised stops the call before anything leaves the service. *)
Theorem try_on_posts_at_most_once (auth : ApiService.GoogleAuth)
        (codec : ApiService.Base64Images) (pydantic : ApiService.Pydantic)
        (pillow : Pillow) (rembg : Rembg)
        (environ : environment) (ep : nat -> outcome) (max_image_dim : Z)
        (request : ApiService.TryOnRequest) :
  let tr := snd (ApiService.try_on environ ep max_image_dim request) in
  (List.length (filter ApiService.is_http tr) <= 1)%nat /\
  (filter ApiService.is_http tr <> [] ->
   exists tok person garment,
     fst (ApiService.resolve_token environ) = inr tok /\
     fst (run (resize_and_encode
                 (ApiService.as_image (ApiService.personImageBase64 request))
                 max_image_dim)) = inr person /\
     fst (run (resize_and_encode
                 (ApiService.as_image (ApiService.garmentImageBase64 request))
                 max_image_dim)) = inr garment).
Proof.
  pose proof (no_http_in_auth auth environ) as Hauth.
  unfold ApiService.try_on, ApiService.imaging.
  destruct (ApiService.resolve_token environ) as [[e | tok] tr0];
    cbn [fst snd] in *.
  { rewrite Hauth. split; [cbn; lia | intros H; now elim H]. }
  destruct (fst (run (resize_and_encode
                        (ApiService.as_image (ApiService.personImageBase64 request))
                        max_image_dim))) as [e | person].
  { cbn [snd]. rewrite filter_app, Hauth, no_http_in_imaging.
    split; [cbn; lia | intros H; now elim H]. }
  destruct (fst (run (resize_and_encode
                        (ApiService.as_image (ApiService.garmentImageBase64 request))
                        max_image_dim))) as [e | garment].
  { cbn [snd]. rewrite !filter_app, Hauth, !no_http_in_imaging.
    split; [cbn; lia | intros H; now elim H]. }
  assert (Hex : exists tok0 person0 garment0,
             @inr ApiService.failure _ tok = inr tok0 /\
             @inr ApiApp.exn _ person = inr person0 /\
             @inr ApiApp.exn _ garment = inr garment0)
    by (exists tok, person, garment; auto).
  match goal with
  | |- context [ApiService.call_vertex ?e ?p ?l ?m ?t ?pl] =>
      pose proof (call_vertex_trace e p l m t pl) as Hnet;
      destruct (ApiService.call_vertex e p l m t pl) as [[err | response_json] net]
  end; cbn [snd] in Hnet; subst net.
  { cbn [snd]. rewrite !filter_app, Hauth, !no_http_in_imaging.
    split; [cbn; lia | intros _; exact Hex]. }
  destruct (image_payload_of response_json) as [| | first image_payload | err];
    try (cbn [snd]; rewrite !filter_app, Hauth, !no_http_in_imaging;
         split; [cbn; lia | intros _; exact Hex]).
  destruct (nonempty (ApiService.backgroundImageBase64 request)) as [background |];
    [| cbn [snd]; rewrite !filter_app, Hauth, !no_http_in_imaging;
       split; [cbn; lia | intros _; exact Hex]].
  destruct image_payload as [| bb | n | s | items | fs];
    try (cbn [snd]; rewrite !filter_app, Hauth, !no_http_in_imaging;
         split; [cbn; lia | intros _; exact Hex]).
  destruct (fst (run (composite_on_background (ApiService.as_image s)
                                              (ApiService.as_image background))));
    cbn [snd]; rewrite !filter_app, Hauth, !no_http_in_imaging;
    (split; [cbn; lia | intros _; exact Hex]).
Qed.

(** [resolve_token] only talks to the credentials. *)
Lemma auth_events_only (auth : ApiService.GoogleAuth) (environ : environment) :
  Forall (fun e => match e with
                   | ApiService.AuthDefault | ApiService.AuthRefresh => True
                   | _ => False
                   end)
         (snd (ApiService.resolve_token environ)).
Proof.
  unfold ApiService.resolve_token, ApiService.token_from_environment.
  destruct ApiService.auth_default as [c |].
  - destruct (negb (ApiService.valid c) || ApiService.expired c).
    + destruct (ApiService.refresh c) as [c' |].
      * destruct (nonempty (ApiService.token c'));
          [| destruct (nonempty (environ "ACCESS_TOKEN"%string))];
          repeat constructor.
      * destruct (nonempty (environ "ACCESS_TOKEN"%string)); repeat constructor.
    + destruct (nonempty (ApiService.token c));
        [| destruct (nonempty (environ "ACCESS_TOKEN"%string))];
        repeat constructor.
  - destruct (nonempty (environ "ACCESS_TOKEN"%string)); repeat constructor.
Qed.

(** X23. Without a background image [try_on] hands back the model's
    image as it came: when the first prediction's ["bytesBase64Encoded"]
    value is a string, that string is the image of the response; a list
    or a dict there is refused by the response model, whose field is a
    [str], whatever the pydantic version. In each case no compositing
    step has run. *)
Theorem try_on_without_background_returns_model_image
        (auth : ApiService.GoogleAuth) (codec : ApiService.Base64Images)
        (pydantic : ApiService.Pydantic) (pillow : Pillow) (rembg : Rembg)
        (environ : environment) (ep : nat -> outcome) (max_image_dim : Z)
        (request : ApiService.TryOnRequest)
        (tok : string) (person garment : encoded) (r : response)
        (j first image_payload : json) :
  fst (ApiService.resolve_token environ) = inr tok ->
  fst (run (resize_and_encode
              (ApiService.as_image (ApiService.personImageBase64 request))
              max_image_dim)) = inr person ->
  fst (run (resize_and_encode
              (ApiService.as_image (ApiService.garmentImageBase64 request))
              max_image_dim)) = inr garment ->
  ep 0%nat = Responds r -> ok r = true -> parsed r = Some j ->
  image_payload_of j = Image first image_payload ->
  nonempty (ApiService.backgroundImageBase64 request) = None ->
  match image_payload with
  | JStr image =>
      fst (ApiService.try_on environ ep max_image_dim request)
      = inr (ApiService.mkTryOnResponse image)
  | JList _ | JDict _ =>
      fst (ApiService.try_on environ ep max_image_dim request)
      = inl (ApiService.ValidationError ["imageBase64"%string])
  | _ => True
  end /\
  Forall (fun e => match e with
                   | ApiService.Imaging o => is_compositing_step o = false
                   | _ => True
                   end)
         (snd (ApiService.try_on environ ep max_image_dim request)).
Proof.
  intros Ht Hp Hg E0 Hok Hj Hi Hb.
  pose proof (resize_and_encode_log pillow
                (ApiService.as_image (ApiService.personImageBase64 request))
                max_image_dim) as Lp.
  pose proof (resize_and_encode_log pillow
                (ApiService.as_image (ApiService.garmentImageBase64 request))
                max_image_dim) as Lg.
  unfold ApiService.try_on, ApiService.imaging.
  destruct (ApiService.resolve_token environ) as [[e | tok'] tr0] eqn:Er;
    cbn [fst] in Ht; [discriminate |]. injection Ht as ->.
  rewrite Hp, Hg. unfold ApiService.call_vertex. rewrite E0, Hok, Hj.
  cbn [negb]. rewrite Hi, Hb. cbn [fst snd]. split.
  - destruct image_payload; first [exact I | reflexivity].
  - repeat (apply Forall_app; split).
    + pose proof (auth_events_only auth environ) as Hauth. rewrite Er in Hauth.
      cbn [snd] in Hauth. revert Hauth. apply Forall_impl.
      intros x. now destruct x.
    + apply Forall_map. exact Lp.
    + apply Forall_map. exact Lg.
    + repeat constructor.
Qed.

Lemma try_on_without_background_returns_model_image_witness :
  fst (@ApiService.try_on ApiService.stale_auth
         (ApiService.fixed_codec sample_subject) ApiService.strict_pydantic
         flat_pillow
         (stub_rembg (CutImage sample_cutout)) ApiService.no_environment
         (fun _ => Responds (mkResponse 200 "{...}" (Some prediction)))
         1280 ApiService.sample_request)
  = inr (ApiService.mkTryOnResponse "aGVsbG8=") /\
  Forall (fun e => match e with
                   | ApiService.Imaging o => is_compositing_step o = false
                   | _ => True
                   end)
         (snd (@ApiService.try_on ApiService.stale_auth
                 (ApiService.fixed_codec sample_subject)
                 ApiService.strict_pydantic flat_pillow
                 (stub_rembg (CutImage sample_cutout)) ApiService.no_environment
                 (fun _ => Responds (mkResponse 200 "{...}" (Some prediction)))
                 1280 ApiService.sample_request)).
Proof.
  apply (try_on_without_background_returns_model_image ApiService.stale_auth
           (ApiService.fixed_codec sample_subject) ApiService.strict_pydantic
           flat_pillow
           (stub_rembg (CutImage sample_cutout)) ApiService.no_environment
           (fun _ => Responds (mkResponse 200 "{...}" (Some prediction)))
           1280 ApiService.sample_request "ya29.fresh"
           (Encoded (JPEG 90 true)
              (mkImage RGB 8 12 (data (solid RGB 8 12 (mkPixel 200 180 160 255)))))
           (Encoded (JPEG 90 true)
              (mkImage RGB 8 12 (data (solid RGB 8 12 (mkPixel 200 180 160 255)))))
           (mkResponse 200 "{...}" (Some prediction)) prediction
           (JDict [("bytesBase64Encoded"%string, JStr "aGVsbG8=")])
           (JStr "aGVsbG8="));
    reflexivity.
Defined.

(** X24. An input image that does not decode stops [try_on] at its
    first imaging call: with a token at hand and a person image that is
    no image, the call fails with the decoding error and nothing has been
    sent to the upstream service. *)
Theorem try_on_rejects_undecodable_person
        (auth : ApiService.GoogleAuth) (codec : ApiService.Base64Images)
        (pydantic : ApiService.Pydantic) (pillow : Pillow) (rembg : Rembg)
        (environ : environment) (ep : nat -> outcome) (max_image_dim : Z)
        (request : ApiService.TryOnRequest) (tok raw : string) :
  fst (ApiService.resolve_token environ) = inr tok ->
  ApiService.as_image (ApiService.personImageBase64 request) = Undecodable raw ->
  ApiService.try_on environ ep max_image_dim request
  = (inl (ApiService.ImageError (DecodeError raw)),
     snd (ApiService.resolve_token environ) ++ [ApiService.Imaging OpOpen]) /\
  filter ApiService.is_http
         (snd (ApiService.try_on environ ep max_image_dim request)) = [].
Proof.
  intros Ht Hraw.
  pose proof (no_http_in_auth auth environ) as Hauth.
  unfold ApiService.try_on, ApiService.imaging.
  destruct (ApiService.resolve_token environ) as [[e | tok'] tr0];
    cbn [fst snd] in *; [discriminate |].
  rewrite Hraw. cbn. split; [reflexivity |].
  now rewrite filter_app, Hauth.
Qed.

Lemma try_on_rejects_undecodable_person_witness :
  @ApiService.try_on ApiService.stale_auth ApiService.broken_codec
     ApiService.strict_pydantic flat_pillow
     (stub_rembg (CutImage sample_cutout)) ApiService.no_environment
     always_unavailable 1280 ApiService.sample_request
  = (inl (ApiService.ImageError (DecodeError "cGVyc29u")),
     snd (@ApiService.resolve_token ApiService.stale_auth ApiService.no_environment)
     ++ [ApiService.Imaging OpOpen]) /\
  filter ApiService.is_http
         (snd (@ApiService.try_on ApiService.stale_auth ApiService.broken_codec
                 ApiService.strict_pydantic
                 flat_pillow (stub_rembg (CutImage sample_cutout))
                 ApiService.no_environment always_unavailable 1280
                 ApiService.sample_request)) = [].
Proof.
  apply (try_on_rejects_undecodable_person ApiService.stale_auth
           ApiService.broken_codec ApiService.strict_pydantic flat_pillow
           (stub_rembg (CutImage sample_cutout)) ApiService.no_environment
           always_unavailable 1280 ApiService.sample_request
           "ya29.fresh" "cGVyc29u");
    reflexivity.
Defined.

(** * Further properties of the image pipeline *)

(** The side [thumbnail] does not scale is the requested one. *)
Lemma preserve_aspect_ratio_side (im : image) (m : Z) :
  match preserve_aspect_ratio im (m, m) with
  | inr (Some (x, y)) => (x = m \/ y = m) /\ (m < width im \/ m < height im)
  | _ => True
  end.
Proof.
  unfold preserve_aspect_ratio.
  destruct ((width im <=? m) && (height im <=? m)) eqn:Efits; [exact I |].
  assert (Hbig : m < width im \/ m < height im).
  { apply andb_false_iff in Efits.
    destruct Efits as [E | E]; apply Z.leb_gt in E; auto. }
  destruct (py_div (inject_Z (width im)) (inject_Z (height im))); [exact I |].
  destruct (py_div (inject_Z m) (inject_Z m)); [exact I |].
  destruct (Qle_bool _ _); [auto |].
  destruct (py_div (inject_Z m) _); [exact I | auto].
Qed.

(** What [thumbnail] yields for a square box of side [m]. *)
Lemma thumbnail_ok (pillow : Pillow) (im : image) (m : Z) (log : list op) :
  0 < width im -> 0 < height im -> 0 < m ->
  exists out,
    thumbnail im (m, m) log = (inr out, log ++ [OpThumbnail (m, m)]) /\
    mode out = mode im /\
    1 <= width out <= Z.min (width im) m /\
    1 <= height out <= Z.min (height im) m /\
    ((width im <= m /\ height im <= m /\ out = im)
     \/ ((m < width im \/ m < height im)
         /\ Z.max (width out) (height out) = m)).
Proof.
  intros HW HH Hm. unfold thumbnail, call.
  pose proof (preserve_aspect_ratio_spec im m HW HH Hm) as Hspec.
  pose proof (preserve_aspect_ratio_side im m) as Hside.
  destruct (preserve_aspect_ratio im (m, m)) as [e | [[x y] |]];
    [contradiction | |].
  - destruct Hspec as (Hx & Hy & _). destruct Hside as [Hxy Hbig].
    destruct (size_eqb (size im) (x, y)) eqn:Esame.
    + apply size_eqb_true in Esame. injection Esame as <- <-.
      exists im. repeat split; try lia.
      all: try (right; split; [exact Hbig | lia]).
    + destruct (resize_box_ok pillow im (x, y) BICUBIC (whole im))
        as (out & -> & Hsize & Hmode);
        [simpl; lia | simpl; lia | apply whole_within; lia |].
      injection Hsize as Hw Hh.
      exists out. rewrite Hw, Hh. repeat split; try lia; try assumption.
      all: try (right; split; [exact Hbig | lia]).
  - exists im. repeat split; try lia.
    all: try (left; repeat split; first [lia | reflexivity]).
Qed.

(** A run of [resize_and_encode] on a decodable image. *)
Lemma resize_and_encode_run (pillow : Pillow) (fmt : image_format) (im : image)
      (m : Z) :
  0 < width im -> 0 < height im -> 0 < m ->
  exists out,
    run (resize_and_encode (Encoded fmt im) m)
    = (inr (Encoded (JPEG 90 true) out),
       [OpOpen; OpConvert RGB; OpThumbnail (m, m); OpSave (JPEG 90 true)]) /\
    mode out = RGB /\
    1 <= width out <= Z.min (width im) m /\
    1 <= height out <= Z.min (height im) m /\
    ((width im <= m /\ height im <= m /\ size out = size im)
     \/ ((m < width im \/ m < height im)
         /\ Z.max (width out) (height out) = m)).
Proof.
  intros HW HH Hm.
  unfold run, resize_and_encode, Image_open, convert_RGB.
  rewrite !bind_call_inr.
  set (im1 := mkImage RGB (width im) (height im) (map opaque (data im))).
  destruct (thumbnail_ok pillow im1 m (([] ++ [OpOpen]) ++ [OpConvert RGB]))
    as (out & Eth & Hmode & Hw & Hh & Hcase); try assumption.
  rewrite (bind_ok _ _ _ _ _ Eth).
  unfold save, call. rewrite Hmode. cbn [mode im1 fst].
  exists out. split; [reflexivity |]. split; [exact Hmode |].
  split; [exact Hw |]. split; [exact Hh |].
  destruct Hcase as [(H1 & H2 & ->) | Hbig]; [left | right; exact Hbig].
  repeat split; assumption.
Qed.

(** X25. [resize_and_encode] shrinks to the box and no further: an image
    that fits within [max_dim] on both sides keeps its size, and an image
    that does not comes out with its longer side equal to [max_dim]. *)
Theorem resize_and_encode_longest_side (pillow : Pillow)
        (fmt : image_format) (im : image) (max_dim : Z) :
  0 < width im -> 0 < height im -> 0 < max_dim ->
  exists out,
    fst (run (resize_and_encode (Encoded fmt im) max_dim))
    = inr (Encoded (JPEG 90 true) out) /\
    if (width im <=? max_dim) && (height im <=? max_dim)
    then size out = size im
    else Z.max (width out) (height out) = max_dim.
Proof.
  intros HW HH Hm.
  destruct (resize_and_encode_run pillow fmt im max_dim HW HH Hm)
    as (out & -> & _ & _ & _ & Hcase).
  exists out. split; [reflexivity |].
  destruct Hcase as [(H1 & H2 & Hs) | ([H1 | H1] & Hmax)].
  - replace (width im <=? max_dim) with true by (symmetry; apply Z.leb_le; lia).
    replace (height im <=? max_dim) with true by (symmetry; apply Z.leb_le; lia).
    exact Hs.
  - replace (width im <=? max_dim) with false by (symmetry; apply Z.leb_gt; lia).
    exact Hmax.
  - replace (height im <=? max_dim) with false by (symmetry; apply Z.leb_gt; lia).
    rewrite andb_false_r. exact Hmax.
Qed.

Lemma resize_and_encode_longest_side_witness :
  exists out,
    fst (run (@resize_and_encode flat_pillow (Encoded PNG sample_subject) 6))
    = inr (Encoded (JPEG 90 true) out) /\
    if (width sample_subject <=? 6) && (height sample_subject <=? 6)
    then size out = size sample_subject
    else Z.max (width out) (height out) = 6.
Proof.
  apply (resize_and_encode_longest_side flat_pillow PNG sample_subject 6);
    reflexivity.
Defined.

(** X26. [resize_and_encode] is stable: fed its own output with the same
    [max_dim], it succeeds again and returns an image of the same size. *)
Theorem resize_and_encode_twice_keeps_size (pillow : Pillow)
        (fmt : image_format) (im : image) (max_dim : Z) :
  0 < width im -> 0 < height im -> 0 < max_dim ->
  exists once twice,
    fst (run (resize_and_encode (Encoded fmt im) max_dim)) = inr once /\
    fst (run (resize_and_encode once max_dim)) = inr twice /\
    match decoded once, decoded twice with
    | Some out1, Some out2 => size out2 = size out1 /\ mode out2 = RGB
    | _, _ => False
    end.
Proof.
  intros HW HH Hm.
  destruct (resize_and_encode_run pillow fmt im max_dim HW HH Hm)
    as (out1 & -> & _ & Hw & Hh & _).
  destruct (resize_and_encode_run pillow (JPEG 90 true) out1 max_dim)
    as (out2 & E2 & Hmode2 & _ & _ & Hcase); try lia.
  exists (Encoded (JPEG 90 true) out1), (Encoded (JPEG 90 true) out2).
  rewrite E2. cbn [fst decoded]. split; [reflexivity |]. split; [reflexivity |].
  split; [| exact Hmode2].
  destruct Hcase as [(_ & _ & Hs) | (Hbig & _)]; [exact Hs | lia].
Qed.

Lemma resize_and_encode_twice_keeps_size_witness :
  exists once twice,
    fst (run (@resize_and_encode flat_pillow (Encoded PNG sample_subject) 6))
    = inr once /\
    fst (run (@resize_and_encode flat_pillow once 6)) = inr twice /\
    match decoded once, decoded twice with
    | Some out1, Some out2 => size out2 = size out1 /\ mode out2 = RGB
    | _, _ => False
    end.
Proof.
  apply (resize_and_encode_twice_keeps_size flat_pillow PNG sample_subject 6);
    reflexivity.
Defined.

(** X27. An input that does not decode never reaches the segmenter: when
    the foreground or the background is no image, the call raises the
    decoding error, and neither [new_session] nor [remove] has been
    called. *)
Theorem undecodable_input_skips_segmenter (pillow : Pillow) (rembg : Rembg)
        (foreground_b64 background_b64 : encoded) :
  decoded foreground_b64 = None \/ decoded background_b64 = None ->
  exists raw,
    fst (run (composite_on_background foreground_b64 background_b64))
    = inl (DecodeError raw) /\
    Forall (fun o => match o with
                     | OpNewSession _ | OpRemove _ => False
                     | _ => True
                     end)
           (snd (run (composite_on_background foreground_b64 background_b64))).
Proof.
  intros H. unfold run, composite_on_background, Image_open, convert_RGBA.
  destruct foreground_b64 as [ff fi | rawf].
  - destruct background_b64 as [fb bi | rawb];
      [destruct H as [H | H]; discriminate H |].
    exists rawb. split; [reflexivity |]. repeat constructor.
  - exists rawf. split; [reflexivity |]. repeat constructor.
Qed.

Lemma undecodable_input_skips_segmenter_witness :
  exists raw,
    fst (run (@composite_on_background flat_pillow
                (stub_rembg (CutImage sample_cutout))
                (Encoded PNG sample_subject) (Undecodable "bm90IGFuIGltYWdl")))
    = inl (DecodeError raw) /\
    Forall (fun o => match o with
                     | OpNewSession _ | OpRemove _ => False
                     | _ => True
                     end)
           (snd (run (@composite_on_background flat_pillow
                        (stub_rembg (CutImage sample_cutout))
                        (Encoded PNG sample_subject)
                        (Undecodable "bm90IGFuIGltYWdl")))).
Proof.
  apply (undecodable_input_skips_segmenter flat_pillow
           (stub_rembg (CutImage sample_cutout))
           (Encoded PNG sample_subject) (Undecodable "bm90IGFuIGltYWdl")).
  right. reflexivity.
Defined.

(** X28. A failing segmenter is not masked: when both inputs decode and
    [new_session] or [remove] raises, the call ends with that very
    exception and no compositing step has run. *)
Theorem segmenter_failure_propagates (pillow : Pillow) (rembg : Rembg)
        (foreground_b64 background_b64 : encoded) (fg_im bg_im : image)
        (e : exn) :
  decoded foreground_b64 = Some fg_im ->
  decoded background_b64 = Some bg_im ->
  new_session "u2net" = inl e
  \/ (exists session,
        new_session "u2net" = inr session /\
        remove (Encoded PNG (mkImage RGBA (width fg_im) (height fg_im) (data fg_im)))
               session rembg_matting = inl e) ->
  fst (run (composite_on_background foreground_b64 background_b64)) = inl e /\
  forallb (fun o => negb (is_compositing_step o))
          (snd (run (composite_on_background foreground_b64 background_b64)))
  = true.
Proof.
  intros Hf Hb Hseg.
  destruct foreground_b64 as [ff fi | ]; [injection Hf as -> | discriminate].
  destruct background_b64 as [fb bi | ]; [injection Hb as -> | discriminate].
  unfold run, composite_on_background, Image_open, convert_RGBA, save.
  cbv beta iota.
  repeat (rewrite bind_call_inr; cbv beta iota; cbn [mode]).
  destruct Hseg as [Hs | (session & Hs & Hr)].
  - rewrite Hs. split; reflexivity.
  - rewrite Hs, bind_call_inr. cbv beta. rewrite Hr. split; reflexivity.
Qed.

Lemma segmenter_failure_propagates_witness :
  fst (run (@composite_on_background flat_pillow
              {| new_session := fun _ => inl (RembgError "model not available");
                 remove := fun _ _ _ => inr (CutImage sample_cutout) |}
              (Encoded PNG sample_subject) (Encoded PNG sample_scene)))
  = inl (RembgError "model not available") /\
  forallb (fun o => negb (is_compositing_step o))
          (snd (run (@composite_on_background flat_pillow
                       {| new_session := fun _ => inl (RembgError "model not available");
                          remove := fun _ _ _ => inr (CutImage sample_cutout) |}
                       (Encoded PNG sample_subject) (Encoded PNG sample_scene))))
  = true.
Proof.
  apply (segmenter_failure_propagates flat_pillow
           {| new_session := fun _ => inl (RembgError "model not available");
              remove := fun _ _ _ => inr (CutImage sample_cutout) |}
           (Encoded PNG sample_subject) (Encoded PNG sample_scene)
           sample_subject sample_scene (RembgError "model not available"));
    try reflexivity.
  left. reflexivity.
Defined.

(** ** Where the subject and its shadow are placed *)

Lemma match_luminance_log (pillow : Pillow) (bg fg : image) (log : list op) :
  exists fg' enh,
    match_luminance bg fg log
    = (inr fg', log ++ [OpGrayscale; OpGrayscale] ++ enh) /\
    size fg' = size fg /\ mode fg' = mode fg /\
    (enh = [] \/ exists factor, enh = [OpEnhance factor]).
Proof.
  unfold match_luminance, bind, luma, call.
  destruct (luminances (grayscale_1x1 bg) (grayscale_1x1 fg)) as [b f].
  unfold brightness_factor.
  destruct (Qltb 0 f) eqn:Hguard.
  - apply Qltb_true in Hguard. rewrite py_div_pos by assumption.
    unfold enhance, call. eexists. eexists.
    rewrite <- !app_assoc. split; [reflexivity |].
    split; [reflexivity |]. split; [reflexivity |]. right. eauto.
  - unfold ret. exists fg, []. rewrite <- !app_assoc.
    split; [reflexivity |]. auto.
Qed.

(** The calls of the placement phase, in order, with their arguments. *)
Lemma place_on_background_log (pillow : Pillow) (background foreground : image)
      (log : list op) :
  mode background = RGBA -> mode foreground = RGBA ->
  0 < width background -> 0 < height background ->
  2 <= width foreground -> 2 <= height foreground ->
  let fw := width foreground * 78 / 100 in
  let fh := height foreground * 78 / 100 in
  let dest := ((width foreground - fw) / 2, scaled (height foreground) 0.14) in
  exists enh,
    snd (place_on_background background foreground log)
    = log
      ++ [OpResize (width background * 135 / 100, height background * 135 / 100);
          OpFit (size foreground); OpResize (fw, fh);
          OpSplit; OpPoint; OpPutalpha; OpNew (fw, fh);
          OpEllipse ((fw - scaled fw 0.55) / 2, scaled fh 0.88,
                     (fw - scaled fw 0.55) / 2 + scaled fw 0.55,
                     scaled fh 0.88 + scaled fh 0.08);
          OpBlur 18; OpGrayscale; OpGrayscale]
      ++ enh
      ++ [OpAlphaComposite dest; OpAlphaComposite dest;
          OpConvert RGB; OpSave (JPEG 92 true)] /\
    (enh = [] \/ exists factor, enh = [OpEnhance factor]).
Proof.
  intros Hmb Hmf HWb HHb HWf HHf fw fh dest. subst fw fh dest.
  unfold place_on_background.
  change 1.35%Q with (135 # 100). change 0.78%Q with (78 # 100).
  rewrite !scaled_eq by lia.
  pose proof (zoomed_side _ HWb) as Zw. pose proof (zoomed_side _ HHb) as Zh.
  pose proof (shrunk_side _ HWf) as Sw. pose proof (shrunk_side _ HHf) as Sh.
  destruct (resize_ok pillow background
              (width background * 135 / 100, height background * 135 / 100)
              LANCZOS log) as (bg_zoom & E1 & S1 & M1);
    [lia | lia | cbn [fst snd size]; lia | cbn [fst snd size]; lia |].
  rewrite (bind_ok _ _ _ _ _ E1). clear E1.
  injection S1 as W1 H1.
  destruct (fit_ok pillow bg_zoom (size foreground) LANCZOS
              (log ++ [OpResize (width background * 135 / 100,
                                 height background * 135 / 100)]))
    as (bg & E2 & S2 & M2);
    [lia | lia | cbn [fst snd size]; lia | cbn [fst snd size]; lia |].
  rewrite (bind_ok _ _ _ _ _ E2). clear E2.
  injection S2 as W2 H2.
  match goal with
  | |- context [bind (resize foreground ?t LANCZOS) _ ?l] =>
      destruct (resize_ok pillow foreground t LANCZOS l)
        as (fg & E3 & S3 & M3);
        [lia | lia | cbn [fst snd size]; lia | cbn [fst snd size]; lia |];
      rewrite (bind_ok _ _ _ _ _ E3); clear E3
  end.
  injection S3 as W3 H3.
  rewrite (bind_ok _ _ _ _ _ (edge_cleanup_run fg _ (eq_trans M3 Hmf))).
  cbn [width height size].
  match goal with
  | |- context [bind (new RGBA ?t ?c) _ ?l] =>
      rewrite (bind_ok _ _ _ _ _ (new_ok pillow RGBA t c l
                                         ltac:(unfold size; cbn [fst snd width height]; lia)
                                         ltac:(unfold size; cbn [fst snd width height]; lia)))
  end.
  unfold ellipse, GaussianBlur. rewrite !bind_call_inr.
  match goal with
  | |- context [bind (match_luminance bg ?f) _ ?l] =>
      destruct (match_luminance_log pillow bg f l)
        as (fg' & enh & E4 & S4 & M4 & Henh);
      rewrite (bind_ok _ _ _ _ _ E4); clear E4
  end.
  unfold alpha_composite, convert_RGB, save, bind, call.
  rewrite M2, M1, Hmb, M4. cbn [mode width height snd fst].
  exists enh. split; [| exact Henh].
  unfold size. cbn [width height fst snd]. rewrite W2, H2, W3, H3.
  rewrite <- !app_assoc. reflexivity.
Qed.

Lemma cutout_image_log (cutout : cutout_result) (cut : image) (log : list op) :
  cutout_as_image cutout = Some cut ->
  exists extra,
    cutout_image cutout log
    = (inr (mkImage RGBA (width cut) (height cut) (data cut)), log ++ extra) /\
    Forall (fun o => is_compositing_step o = false) extra.
Proof.
  destruct cutout as [[fmt im | raw] | im | [im |] | name]; simpl;
    intros H; try discriminate; injection H as ->.
  - exists [OpOpen; OpConvert RGBA]. split; [| repeat constructor].
    unfold bind, Image_open, convert_RGBA, call. now rewrite <- app_assoc.
  - exists [OpConvert RGBA]. split; [reflexivity | repeat constructor].
  - exists [OpFromArray; OpConvert RGBA]. split; [| repeat constructor].
    unfold bind, convert_RGBA, call. now rewrite <- app_assoc.
Qed.

(** X29. The subject never overhangs the background and the shadow never
    overhangs the subject. In a composite of a cutout [W x H] (at least
    2 x 2), with the subject scaled to [fw x fh]: the shadow canvas is
    [fw x fh] and the ellipse box lies inside it; both blends go to one
    and the same offset, shadow first; at that offset the subject lies
    inside the [W x H] background, and it is centred horizontally up to
    one pixel. *)
Theorem placement_stays_inside (pillow : Pillow) (rembg : Rembg)
        (foreground_b64 background_b64 : encoded) (fg_im bg_im : image)
        (session : string) (cutout : cutout_result) (cut : image) :
  decoded foreground_b64 = Some fg_im ->
  decoded background_b64 = Some bg_im ->
  0 < width bg_im -> 0 < height bg_im ->
  new_session "u2net" = inr session ->
  remove (Encoded PNG (mkImage RGBA (width fg_im) (height fg_im) (data fg_im)))
         session rembg_matting = inr cutout ->
  cutout_as_image cutout = Some cut ->
  2 <= width cut -> 2 <= height cut ->
  let log := snd (run (composite_on_background foreground_b64 background_b64)) in
  let fw := scaled (width cut) 0.78 in
  let fh := scaled (height cut) 0.78 in
  Forall (fun o =>
            match o with
            | OpNew target => target = (fw, fh)
            | OpEllipse (x0, y0, x1, y1) =>
                0 <= x0 /\ x0 <= x1 /\ x1 <= fw /\ 0 <= y0 /\ y0 <= y1 /\ y1 <= fh
            | OpAlphaComposite (x, y) =>
                0 <= x /\ x + fw <= width cut /\ 0 <= y /\ y + fh <= height cut /\
                width cut - fw - 1 <= 2 * x <= width cut - fw
            | _ => True
            end) log
  /\ exists dest,
       filter (fun o => match o with OpAlphaComposite _ => true | _ => false end) log
       = [OpAlphaComposite dest; OpAlphaComposite dest].
Proof.
  intros Hf Hb HW HH Hs Hr Hc Hw Hh log fw fh. subst log.
  rewrite (segmentation_run pillow rembg _ _ _ _ _ _ Hf Hb Hs Hr).
  destruct (cutout_image_log cutout cut
              [OpOpen; OpConvert RGBA; OpOpen; OpConvert RGBA; OpSave PNG;
               OpNewSession "u2net"; OpRemove rembg_matting] Hc)
    as (extra & Ecut & Hextra).
  rewrite (bind_ok _ _ _ _ _ Ecut).
  match goal with
  | |- context [place_on_background ?b ?f ?l] =>
      destruct (place_on_background_log pillow b f l)
        as (enh & -> & Henh); try reflexivity; try assumption
  end.
  cbn [width height size].
  assert (Efw : fw = width cut * 78 / 100).
  { subst fw. change 0.78%Q with (78 # 100). apply scaled_eq; lia. }
  assert (Efh : fh = height cut * 78 / 100).
  { subst fh. change 0.78%Q with (78 # 100). apply scaled_eq; lia. }
  rewrite <- Efw, <- Efh.
  pose proof (shrunk_side _ Hw) as Sw. pose proof (shrunk_side _ Hh) as Sh.
  rewrite <- Efw in Sw. rewrite <- Efh in Sh.
  change 0.55%Q with (55 # 100). change 0.88%Q with (88 # 100).
  change 0.08%Q with (8 # 100). change 0.14%Q with (14 # 100).
  rewrite !scaled_eq by lia.
  split.
  - repeat (apply Forall_app; split).
    + repeat constructor.
    + revert Hextra. apply Forall_impl. intros o Ho.
      destruct o; try exact I; discriminate Ho.
    + repeat constructor; try exact I; try reflexivity;
        Z.to_euclidean_division_equations; lia.
    + destruct Henh as [-> | [factor ->]]; repeat constructor.
    + repeat constructor; try exact I;
        rewrite ?Efw, ?Efh; Z.to_euclidean_division_equations; lia.
  - eexists. rewrite !filter_app.
    replace (filter _ extra) with (@nil op).
    2:{ symmetry. clear -Hextra. induction Hextra as [| o l Ho _ IH];
          [reflexivity |]. simpl. rewrite IH. destruct o; try reflexivity.
        discriminate Ho. }
    destruct Henh as [-> | [factor ->]]; reflexivity.
Qed.

Lemma placement_stays_inside_witness :
  let log := snd (run (@composite_on_background flat_pillow
                         (stub_rembg (CutImage sample_cutout))
                         (Encoded PNG sample_subject) (Encoded PNG sample_scene))) in
  let fw := scaled (width sample_cutout) 0.78 in
  let fh := scaled (height sample_cutout) 0.78 in
  Forall (fun o =>
            match o with
            | OpNew target => target = (fw, fh)
            | OpEllipse (x0, y0, x1, y1) =>
                0 <= x0 /\ x0 <= x1 /\ x1 <= fw /\ 0 <= y0 /\ y0 <= y1 /\ y1 <= fh
            | OpAlphaComposite (x, y) =>
                0 <= x /\ x + fw <= width sample_cutout /\ 0 <= y /\
                y + fh <= height sample_cutout /\
                width sample_cutout - fw - 1 <= 2 * x <= width sample_cutout - fw
            | _ => True
            end) log
  /\ exists dest,
       filter (fun o => match o with OpAlphaComposite _ => true | _ => false end) log
       = [OpAlphaComposite dest; OpAlphaComposite dest].
Proof.
  apply (placement_stays_inside flat_pillow (stub_rembg (CutImage sample_cutout))
           (Encoded PNG sample_subject) (Encoded PNG sample_scene)
           sample_subject sample_scene "u2net" (CutImage sample_cutout)
           sample_cutout);
    reflexivity || (simpl; lia).
Defined.

(** * The three payload builders *)

(** X30. The three front ends send the same payload for one garment:
    the payload the UI builds from a top garment alone, or from a bottom
    garment alone, and the payload the service builds without a
    background prompt, are each the script's [build_payload]; a blank
    garment slot adds no entry. *)
Theorem ui_payload_matches_script (person_b64 garment_b64 : string) :
  garment_b64 <> ""%string ->
  StreamlitApp.build_payload_multi
    person_b64 (StreamlitApp.garment_b64_list (Some garment_b64) None)
  = build_payload person_b64 garment_b64 /\
  StreamlitApp.build_payload_multi
    person_b64 (StreamlitApp.garment_b64_list (Some ""%string) (Some garment_b64))
  = build_payload person_b64 garment_b64 /\
  ApiService.build_payload person_b64 garment_b64 None
  = build_payload person_b64 garment_b64 /\
  ApiService.build_payload person_b64 garment_b64 (Some ""%string)
  = build_payload person_b64 garment_b64.
Proof.
  intros Hg.
  unfold StreamlitApp.build_payload_multi, StreamlitApp.garment_b64_list,
    ApiService.build_payload, build_payload.
  cbn [flat_map nonempty app String.eqb].
  destruct (String.eqb_spec garment_b64 ""); [contradiction |].
  repeat split.
Qed.

Lemma ui_payload_matches_script_witness :
  StreamlitApp.build_payload_multi
    "cGVyc29u" (StreamlitApp.garment_b64_list (Some "dG9w"%string) None)
  = build_payload "cGVyc29u" "dG9w" /\
  StreamlitApp.build_payload_multi
    "cGVyc29u" (StreamlitApp.garment_b64_list (Some ""%string) (Some "dG9w"%string))
  = build_payload "cGVyc29u" "dG9w" /\
  ApiService.build_payload "cGVyc29u" "dG9w" None
  = build_payload "cGVyc29u" "dG9w" /\
  ApiService.build_payload "cGVyc29u" "dG9w" (Some ""%string)
  = build_payload "cGVyc29u" "dG9w".
Proof.
  apply (ui_payload_matches_script "cGVyc29u" "dG9w"). discriminate.
Defined.
